(** * A shallow embedding of [romi_model/scad.py]

    The module builds 2D polygons out of points, tessellates arcs, circles,
    rotated rectangles and slots into point sequences, and renders a set of
    polygons as one OpenSCAD [polygon(points = [...], paths = [...])] command.

    Modelling conventions.
    - A Python [float] is a real number: arithmetic is exact, [cos], [sin],
      [sqrt] and [PI] are those of the Standard Library.  Rounding, overflow,
      infinities and NaN are outside the model.  Division raises
      [ZeroDivisionError] on a zero divisor, as in Python.
    - A Python [int] is a [Z]; a [str] is a [string].
    - A Python [list] of points is a mutable object: it lives in a heap and is
      named by a location.  A [Polygon] holds the location of its [points]
      list, so that aliasing between polygons, callers and a [ScadPolygon] is
      visible in the model.
    - A method is a computation in a state-and-exception monad over that heap;
      the heap reached when an exception is raised is kept, so that a partial
      mutation would be observable.
    - The [scad_lines] list that the rendering methods append to, and the
      [polygons] list of a [ScadPolygon], are passed and returned as values.
    - [Polygon.__str__] and the debugging prints are left out. *)

From Stdlib Require Import Reals ZArith String Ascii List Lia Lra DecimalString.
From stdpp Require Import base gmap list strings.

Local Open Scope Z_scope.

Abbreviation float := R (only parsing).

(** ** The Python runtime: exceptions, built-ins and string formatting *)

Module Py.

(** The exceptions a method of the module can end with.  [DanglingReference]
    is an artefact of the partial heap: no Python program reaches it. *)
Inductive exn : Set :=
| ZeroDivisionError
| AssertionError
| IndexError
| DanglingReference.

(** [range(n)] and [range(a, b)]. *)
Definition range (n : Z) : list Z := seqZ 0 n.
Definition range2 (a b : Z) : list Z := seqZ a (b - a).

(** [xs[a:b]] for [0 <= a]. *)
Definition slice {A} (xs : list A) (a b : Z) : list A :=
  take (Z.to_nat (b - a)) (drop (Z.to_nat a) xs).

(** [len(xs)]. *)
Definition len {A} (xs : list A) : Z := Z.of_nat (length xs).

(** [str(n)] for an [int]. *)
Definition str (n : Z) : string := NilZero.string_of_int (Z.to_int n).

(** [sep.join(xs)]. *)
Fixpoint join (sep : string) (xs : list string) : string :=
  match xs with
  | [] => ""
  | [s] => s
  | s :: rest => s +:+ sep +:+ join sep rest
  end.

(** [math.ceil]. *)
Definition ceil (v : float) : Z := Zceil v.

(** [math.atan2(y, x)] over the reals. *)
Definition atan2 (y x : float) : float :=
  if Rlt_dec 0 x then atan (y / x)
  else if Rlt_dec x 0 then
    if Rle_dec 0 y then (atan (y / x) + PI)%R else (atan (y / x) - PI)%R
  else if Rlt_dec 0 y then (PI / 2)%R
  else if Rlt_dec y 0 then (- (PI / 2))%R
  else 0%R.

(** The nearest integer to a non-negative real, ties going to the even
    neighbour: the rounding of Python's fixed-point formatting. *)
Definition round_half_even (v : float) : Z :=
  let f := Zfloor v in
  let r := (v - IZR f)%R in
  if Rlt_dec r (1 / 2) then f
  else if Rlt_dec (1 / 2) r then f + 1
  else if Z.even f then f else f + 1.

Definition digit (d : Z) : ascii := ascii_of_nat (48 + Z.to_nat d).

(** The three digits after the decimal point, for [0 <= m]. *)
Definition frac3 (m : Z) : string :=
  String (digit (m / 100 mod 10))
    (String (digit (m / 10 mod 10)) (String (digit (m mod 10)) "")).

(** ["{0:.3f}".format(v)]: an optional minus sign, the integer part, a point
    and exactly three decimals.  The sign is that of [v] itself, so that a
    small negative [v] is printed as ["-0.000"]. *)
Definition format_3f (v : float) : string :=
  let m := round_half_even (Rabs v * 1000) in
  (if Rlt_dec v 0 then "-" else "") +:+ str (m / 1000) +:+ "." +:+ frac3 (m mod 1000).

End Py.

(** ** [class P]: a 3 dimensional point *)

Module P.

Record t : Type := mk { x : float; y : float; z : float }.

(** [P(x, y)]: the third coordinate defaults to [0.0]. *)
Definition mk2 (x y : float) : t := mk x y 0.

Definition __add__ (point1 point2 : t) : t :=
  mk (x point1 + x point2) (y point1 + y point2) (z point1 + z point2).

Definition __mul__ (point : t) (scale : float) : t :=
  mk (x point * scale) (y point * scale) (z point * scale).

Definition __rmul__ (point : t) (scale : float) : t :=
  mk (x point * scale) (y point * scale) (z point * scale).

Definition __sub__ (point1 point2 : t) : t :=
  mk (x point1 - x point2) (y point1 - y point2) (z point1 - z point2).



(** [point / scale]: [None] stands for [ZeroDivisionError]. *)
Definition __truediv__ (point : t) (scale : float) : option t :=
  if Req_dec_T scale 0 then None
  else Some (mk (x point / scale) (y point / scale) (z point / scale)).

Definition distance (point1 point2 : t) : float :=
  let dx := (x point1 - x point2)%R in
  let dy := (y point1 - y point2)%R in
  let dz := (z point1 - z point2)%R in
  sqrt (dx * dx + dy * dy + dz * dz).

Definition rotate2d (point : t) (angle : float) : t :=
  let x := x point in
  let y := y point in
  let sin_angle := sin angle in
  let cos_angle := cos angle in
  mk (x * cos_angle - y * sin_angle) (y * cos_angle + x * sin_angle) 0.

Definition y_mirror (point : t) : t :=
  mk (- x point) (y point) (- z point).

End P.

(** ** The heap of point lists and the monad of methods *)

Module Mem.

Abbreviation loc := positive (only parsing).

(** A heap maps the location of each live list object to its contents. *)
Abbreviation heap := (gmap positive (list P.t)) (only parsing).

(** A method run from a heap ends in a heap with a value or an exception. *)
Definition M (A : Type) : Type := heap → heap * (Py.exn + A).

Definition ret {A} (a : A) : M A := λ h, (h, inr a).

Definition bind {A B} (m : M A) (k : A → M B) : M B :=
  λ h, match m h with
       | (h', inr a) => k a h'
       | (h', inl e) => (h', inl e)
       end.

Definition raise {A} (e : Py.exn) : M A := λ h, (h, inl e).

#[global] Instance M_ret : MRet M := @ret.
#[global] Instance M_bind : MBind M := λ A B k m, bind m k.

(** [list(xs)]: a new list object. *)
Definition list_new (xs : list P.t) : M loc :=
  λ h, let l := fresh (dom h) in (<[l := xs]> h, inr l).

(** The current contents of a list object. *)
Definition list_get (l : loc) : M (list P.t) :=
  λ h, match h !! l with
       | Some xs => (h, inr xs)
       | None => (h, inl Py.DanglingReference)
       end.

(** [l.append(p)]. *)
Definition list_append (l : loc) (p : P.t) : M () :=
  λ h, match h !! l with
       | Some xs => (<[l := xs ++ [p]]> h, inr ())
       | None => (h, inl Py.DanglingReference)
       end.

(** [a / b] on floats, for a divisor that is not a non-zero literal (a
    division by a literal such as [2.0] is written [a / 2] directly). *)
Definition float_div (a b : float) : M float :=
  if Req_dec_T b 0 then raise Py.ZeroDivisionError else ret (a / b)%R.

(** [assert c]. *)
Definition assert (c : bool) : M () :=
  if c then ret () else raise Py.AssertionError.

(** An optional value turned into a computation that raises [e] on [None]. *)
Definition lift_option {A} (e : Py.exn) (o : option A) : M A :=
  match o with Some a => ret a | None => raise e end.

(** [for a in xs: s = body(s, a)], for a loop that updates local variables. *)
Fixpoint fold_m {A S} (xs : list A) (body : S → A → M S) (s : S) : M S :=
  match xs with
  | [] => ret s
  | a :: rest => s' ← body s a; fold_m rest body s'
  end.

(** [for a in xs: body(a)]. *)
Fixpoint for_each {A} (xs : list A) (body : A → M ()) : M () :=
  match xs with
  | [] => ret ()
  | a :: rest => body a ;; for_each rest body
  end.

End Mem.

Import Mem.

(** ** [class Polygon]: a closed polygon of points *)

Module Polygon.

Record t : Type := mk { name : string; points : loc }.

(** The list object that the default argument [points=[]] of [__init__]
    denotes: it is created once, when the [def] is executed. *)
Definition default_points : loc := 1%positive.

(** The heap once the module is loaded. *)
Definition heap_init : heap := {[ default_points := [] ]}.

(** [Polygon(name, points)]: [points[:]] copies the argument into a new list
    object.  [None] stands for an omitted argument. *)
Definition __init__ (name : string) (points : option loc) : M t :=
  let points := default default_points points in
  contents ← list_get points;
  copy ← list_new contents;
  mret (mk name copy).

Definition __getitem__ (polygon : t) (index : Z) : M P.t :=
  points ← list_get (points polygon);
  let points_size := Py.len points in
  assert ((0 <=? index) && (index <? points_size)) ;;
  lift_option Py.IndexError (points !! Z.to_nat index).

Definition __len__ (polygon : t) : M Z :=
  points ← list_get (points polygon);
  mret (Py.len points).

Definition arc_append (polygon : t) (center : P.t)
    (radius start_angle end_angle : float) (points_count : Z) : M () :=
  let points := points polygon in
  let span_angle := (end_angle - start_angle)%R in
  delta_angle ← float_div span_angle (IZR (points_count - 1));
  let center_x := P.x center in
  let center_y := P.y center in
  for_each (Py.range points_count) (λ index,
    let angle := (start_angle + IZR index * delta_angle)%R in
    let x := (center_x + radius * cos angle)%R in
    let y := (center_y + radius * sin angle)%R in
    list_append points (P.mk2 x y)).

Definition circle_append (polygon : t) (center : P.t) (diameter : float)
    (points_count : Z) : M () :=
  let points := points polygon in
  delta_angle ← float_div (2 * PI) (IZR points_count);
  let radius := (diameter / 2)%R in
  let center_x := P.x center in
  let center_y := P.y center in
  for_each (Py.range points_count) (λ index,
    let angle := (IZR index * delta_angle)%R in
    let x := (center_x + radius * cos angle)%R in
    let y := (center_y + radius * sin angle)%R in
    let point := P.mk2 x y in
    list_append points point).

(** The body of the loop of [indices_scad_lines_append]: the point indices
    that slice [slice_index] prints. *)
Definition indices_slice (start_index points_size slice_index : Z) : list Z :=
  let slice_size := 25 in
  let start_slice_index := slice_index * slice_size in
  let end_slice_index := Z.min ((slice_index + 1) * slice_size) points_size in
  let indices := Py.range2 start_slice_index end_slice_index in
  map (λ index, start_index + index) indices.

(** The line that slice [slice_index] appends. *)
Definition indices_line (indent : string)
    (start_index points_size slice_index : Z) : string :=
  let slice_size := 25 in
  let end_slice_index := Z.min ((slice_index + 1) * slice_size) points_size in
  let line_text :=
    Py.join ", " (map Py.str (indices_slice start_index points_size slice_index)) in
  let front_text := if slice_index =? 0 then "  [" else "  " in
  let end_text := if end_slice_index =? points_size then "]," else "," in
  indent +:+ front_text +:+ line_text +:+ end_text.

Definition indices_scad_lines_append (polygon : t) (scad_lines : list string)
    (indent : string) (start_index : Z) : M (list string * Z) :=
  let name := name polygon in
  points ← list_get (points polygon);
  let points_size := Py.len points in
  let end_index := start_index + points_size in
  let slice_size := 25 in
  let slices_count := Py.ceil (IZR points_size / IZR slice_size) in
  let scad_lines :=
    scad_lines ++ [indent +:+ " // Polygon '" +:+ name +:+ "' " +:+
                   Py.str start_index +:+ ":" +:+ Py.str (end_index - 1)] in
  let scad_lines :=
    foldl (λ scad_lines slice_index,
             scad_lines ++ [indices_line indent start_index points_size slice_index])
          scad_lines (Py.range slices_count) in
  mret (scad_lines, end_index).

Definition point_append (polygon : t) (point : P.t) : M () :=
  let points := points polygon in
  list_append points point.

(** The body of the loop of [points_scad_lines_append]: the points that slice
    [slice_index] prints. *)
Definition points_slice (points : list P.t) (slice_index : Z) : list P.t :=
  let slice_size := 4 in
  let slice_start := slice_index * slice_size in
  let slice_end := Z.min ((slice_index + 1) * slice_size) (Py.len points) in
  Py.slice points slice_start slice_end.

(** The text of one point of a slice. *)
Definition point_text (slice_point : P.t) : string :=
  let x_text := Py.format_3f (P.x slice_point) in
  let y_text := Py.format_3f (P.y slice_point) in
  let x_text := if String.eqb x_text "-0.000" then "0.000" else x_text in
  let y_text := if String.eqb y_text "-0.000" then "0.000" else y_text in
  "[" +:+ x_text +:+ ", " +:+ y_text +:+ "]".

(** The line that a non-empty slice appends. *)
Definition points_line (indent : string) (start_index : Z)
    (points : list P.t) (slice_index : Z) : string :=
  let slice_size := 4 in
  let slice_start := slice_index * slice_size in
  let slice_end := Z.min ((slice_index + 1) * slice_size) (Py.len points) in
  let point_texts := map point_text (points_slice points slice_index) in
  let slice_text := Py.join ", " point_texts in
  indent +:+ "  " +:+ slice_text +:+ ", " +:+
  "// " +:+ Py.str (start_index + slice_start) +:+ ":" +:+
  Py.str (start_index + slice_end - 1).

Definition points_scad_lines_append (polygon : t) (scad_lines : list string)
    (indent : string) (start_index : Z) : M (list string * Z) :=
  let name := name polygon in
  points ← list_get (points polygon);
  let points_size := Py.len points in
  let end_index := start_index + points_size in
  let slice_size := 4 in
  let slices_count := Py.ceil (IZR points_size / IZR slice_size) in
  let scad_lines :=
    scad_lines ++ [indent +:+ " // Polygon '" +:+ name +:+ "' " +:+
                   Py.str start_index +:+ ":" +:+ Py.str (end_index - 1)] in
  let scad_lines :=
    foldl (λ scad_lines slice_index,
             match points_slice points slice_index with
             | [] => scad_lines
             | _ :: _ => scad_lines ++ [points_line indent start_index points slice_index]
             end)
          scad_lines (Py.range slices_count) in
  mret (scad_lines, end_index).

Definition rotated_rectangle_append (polygon : t) (center : P.t)
    (dx dy angle : float) : M () :=
  let points := points polygon in
  let half_dx := (dx / 2)%R in
  let half_dy := (dy / 2)%R in
  let upper_right_corner := P.mk2 half_dx half_dy in
  let lower_right_corner := P.mk2 half_dx (- half_dy) in
  let upper_left_corner := P.mk2 (- half_dx) half_dy in
  let lower_left_corner := P.mk2 (- half_dx) (- half_dy) in
  let rotated_upper_right_corner := P.rotate2d upper_right_corner angle in
  let rotated_lower_right_corner := P.rotate2d lower_right_corner angle in
  let rotated_upper_left_corner := P.rotate2d upper_left_corner angle in
  let rotated_lower_left_corner := P.rotate2d lower_left_corner angle in
  list_append points (P.__add__ center rotated_upper_right_corner) ;;
  list_append points (P.__add__ center rotated_lower_right_corner) ;;
  list_append points (P.__add__ center rotated_lower_left_corner) ;;
  list_append points (P.__add__ center rotated_upper_left_corner).

Definition slot_append (polygon : t) (end_point1 end_point2 : P.t)
    (slot_length slot_width : float) (points_count : Z) : M () :=
  center ← lift_option Py.ZeroDivisionError
             (P.__truediv__ (P.__add__ end_point1 end_point2) 2);
  let slot_angle := Py.atan2 (P.y end_point1 - P.y end_point2)
                             (P.x end_point1 - P.x end_point2) in
  let slot_radius := (slot_width / 2)%R in
  let half_slot_length := (slot_length / 2)%R in
  let degrees180 := PI in
  let center1 := P.mk2 (P.x center + half_slot_length * cos slot_angle)
                       (P.y center + half_slot_length * sin slot_angle) in
  let center2 :=
    P.mk2 (P.x center + half_slot_length * cos (slot_angle + degrees180))
          (P.y center + half_slot_length * sin (slot_angle + degrees180)) in
  let degrees90 := (PI / 2)%R in
  arc_append polygon center1 slot_radius
             (slot_angle - degrees90)
             (slot_angle + degrees90) points_count ;;
  arc_append polygon center2 slot_radius
             (slot_angle + degrees180 - degrees90)
             (slot_angle + degrees180 + degrees90) points_count.

End Polygon.

(** ** [class ScadPolygon]: an OpenSCAD [polygon] command

    The [polygons] list of a [ScadPolygon] is private to it ([__init__] copies
    its argument), so the object is a value here and [append] and [extend]
    return the updated object.  The polygons in the list are shared with the
    caller: each is the [Polygon.t] that names the caller's point list. *)

Module ScadPolygon.

Record t : Type := mk { name : string; convexity : Z; polygons : list Polygon.t }.

(** [ScadPolygon(name, polygons, convexity)]; [None] is an omitted
    [convexity], which defaults to [-1]. *)
Definition __init__ (name : string) (polygons : list Polygon.t)
    (convexity : option Z) : t :=
  mk name (default (-1) convexity) polygons.

Definition __getitem__ (scad_polygon : t) (index : Z) : M Polygon.t :=
  let polygons := polygons scad_polygon in
  let polygons_size := Py.len polygons in
  assert ((0 <=? index) && (index <? polygons_size)) ;;
  lift_option Py.IndexError (polygons !! Z.to_nat index).

Definition __len__ (scad_polygon : t) : Z :=
  Py.len (polygons scad_polygon).

Definition append (scad_polygon : t) (polygon : Polygon.t) : t :=
  mk (name scad_polygon) (convexity scad_polygon)
     (polygons scad_polygon ++ [polygon]).

Definition extend (scad_polygon : t) (new_polygons : list Polygon.t) : t :=
  mk (name scad_polygon) (convexity scad_polygon)
     (polygons scad_polygon ++ new_polygons).

Definition scad_lines_append (scad_polygon : t) (scad_lines : list string)
    (indent : string) : M (list string) :=
  let convexity := convexity scad_polygon in
  let name := name scad_polygon in
  let polygons := polygons scad_polygon in
  let polygons_size := Py.len polygons in
  let scad_lines :=
    scad_lines ++ [indent +:+ "// ScadPolygon '" +:+ name +:+ " [0-" +:+
                   Py.str (polygons_size - 1) +:+ "]'"] in
  let scad_lines := scad_lines ++ [indent +:+ "polygon(points = ["] in
  let next_indent := indent +:+ " " in
  let index := 0 in
  '(scad_lines, index) ←
    fold_m polygons
      (λ '(scad_lines, index) polygon,
         Polygon.points_scad_lines_append polygon scad_lines next_indent index)
      (scad_lines, index);
  let scad_lines := scad_lines ++ [indent +:+ " ], paths = ["] in
  let index := 0 in
  '(scad_lines, index) ←
    fold_m polygons
      (λ '(scad_lines, index) polygon,
         Polygon.indices_scad_lines_append polygon scad_lines next_indent index)
      (scad_lines, index);
  let convexity_text :=
    if convexity <? 0 then "" else ", convexity=" +:+ Py.str convexity in
  mret (scad_lines ++
        [indent +:+ " ]" +:+ convexity_text +:+ "); " +:+
         "// End ScadPolygon '" +:+ name +:+ "' [0-" +:+
         Py.str (polygons_size - 1) +:+ "]"]).

End ScadPolygon.

(** ** [class Scad]: [file_write], with [scad_lines_append] dispatched to
    [ScadPolygon], the only subclass *)

Module Scad.

Definition newline : string := String (ascii_of_nat 10) "".

(** [scad.file_write(scad_file)]: the result is the text handed to
    [scad_file.write]. *)
Definition file_write (scad : ScadPolygon.t) (writable : bool) : M string :=
  let name := ScadPolygon.name scad in
  let scad_lines := [] in
  let scad_lines := scad_lines ++ ["// '" +:+ name +:+ "' File"] in
  scad_lines ← ScadPolygon.scad_lines_append scad scad_lines "";
  let scad_lines := scad_lines ++ [""] in
  let scad_text := Py.join newline scad_lines in
  assert writable ;;
  mret scad_text.

End Scad.

(** ** Derived views used in the statements

    The point sequences that the tessellation loops append, as closed forms
    of the loops above. *)

Module View.

(** The point of an arc at [angle]. *)
Definition on_circle (center : P.t) (radius angle : float) : P.t :=
  P.mk (P.x center + radius * cos angle) (P.y center + radius * sin angle) 0.

(** The points appended by the loop of [Polygon.arc_append] once
    [delta_angle] is known. *)
Definition arc_points (center : P.t) (radius start_angle delta_angle : float)
    (points_count : Z) : list P.t :=
  map (λ index, on_circle center radius (start_angle + IZR index * delta_angle))
      (Py.range points_count).

(** The points appended by [Polygon.circle_append]. *)
Definition circle_points (center : P.t) (diameter : float) (points_count : Z)
    : list P.t :=
  map (λ index, on_circle center (diameter / 2)
                  (IZR index * (2 * PI / IZR points_count)))
      (Py.range points_count).

(** The corner [(corner_x, corner_y)] of a rectangle centred at the origin,
    rotated by [angle] and moved by [center]. *)
Definition corner (center : P.t) (angle : float) (corner_x corner_y : float) : P.t :=
  P.__add__ center (P.rotate2d (P.mk corner_x corner_y 0) angle).

(** The points appended by [Polygon.rotated_rectangle_append]: upper right,
    lower right, lower left, upper left. *)
Definition rectangle_points (center : P.t) (dx dy angle : float) : list P.t :=
  [ corner center angle (dx / 2) (dy / 2);
    corner center angle (dx / 2) (- (dy / 2));
    corner center angle (- (dx / 2)) (- (dy / 2));
    corner center angle (- (dx / 2)) (dy / 2) ].

(** The angle of a slot and the centres of its two end caps. *)
Definition slot_angle (end_point1 end_point2 : P.t) : float :=
  Py.atan2 (P.y end_point1 - P.y end_point2) (P.x end_point1 - P.x end_point2).

Definition midpoint (end_point1 end_point2 : P.t) : P.t :=
  P.mk ((P.x end_point1 + P.x end_point2) / 2)
       ((P.y end_point1 + P.y end_point2) / 2)
       ((P.z end_point1 + P.z end_point2) / 2).

(** The point at distance [d] from [center] in direction [angle], in the
    plane [z = 0]. *)
Definition along (center : P.t) (d angle : float) : P.t :=
  P.mk (P.x center + d * cos angle) (P.y center + d * sin angle) 0.

(** The points appended by [Polygon.slot_append]. *)
Definition slot_points (end_point1 end_point2 : P.t)
    (slot_length slot_width : float) (points_count : Z) : list P.t :=
  let center := midpoint end_point1 end_point2 in
  let angle := slot_angle end_point1 end_point2 in
  let delta := ((angle + PI / 2 - (angle - PI / 2)) / IZR (points_count - 1))%R in
  let delta' :=
    ((angle + PI + PI / 2 - (angle + PI - PI / 2)) / IZR (points_count - 1))%R in
  arc_points (along center (slot_length / 2) angle) (slot_width / 2)
             (angle - PI / 2) delta points_count ++
  arc_points (along center (slot_length / 2) (angle + PI)) (slot_width / 2)
             (angle + PI - PI / 2) delta' points_count.

(** The tessellation appenders of a polygon, as data. *)
Inductive append_op : Type :=
| PointAppend (point : P.t)
| ArcAppend (center : P.t) (radius start_angle end_angle : float) (points_count : Z)
| CircleAppend (center : P.t) (diameter : float) (points_count : Z)
| RotatedRectangleAppend (center : P.t) (dx dy angle : float)
| SlotAppend (end_point1 end_point2 : P.t) (slot_length slot_width : float)
             (points_count : Z).

Definition run_append (polygon : Polygon.t) (op : append_op) : M () :=
  match op with
  | PointAppend point => Polygon.point_append polygon point
  | ArcAppend center radius start_angle end_angle points_count =>
      Polygon.arc_append polygon center radius start_angle end_angle points_count
  | CircleAppend center diameter points_count =>
      Polygon.circle_append polygon center diameter points_count
  | RotatedRectangleAppend center dx dy angle =>
      Polygon.rotated_rectangle_append polygon center dx dy angle
  | SlotAppend end_point1 end_point2 slot_length slot_width points_count =>
      Polygon.slot_append polygon end_point1 end_point2 slot_length slot_width
                          points_count
  end.

(** The calls that divide by zero. *)
Definition divides_by_zero (op : append_op) : bool :=
  match op with
  | PointAppend _ | RotatedRectangleAppend _ _ _ _ => false
  | ArcAppend _ _ _ _ points_count => points_count =? 1
  | CircleAppend _ _ points_count => points_count =? 0
  | SlotAppend _ _ _ _ points_count => points_count =? 1
  end.

(** The points that a call appends when it does not divide by zero. *)
Definition appended (op : append_op) : list P.t :=
  match op with
  | PointAppend point => [point]
  | ArcAppend center radius start_angle end_angle points_count =>
      arc_points center radius start_angle
                 ((end_angle - start_angle) / IZR (points_count - 1)) points_count
  | CircleAppend center diameter points_count =>
      circle_points center diameter points_count
  | RotatedRectangleAppend center dx dy angle =>
      rectangle_points center dx dy angle
  | SlotAppend end_point1 end_point2 slot_length slot_width points_count =>
      slot_points end_point1 end_point2 slot_length slot_width points_count
  end.

(** The contents of the list object of a polygon, [[]] when it is dangling. *)
Definition contents (h : heap) (polygon : Polygon.t) : list P.t :=
  default [] (h !! Polygon.points polygon).

(** The sum of the lengths of the point lists of [polygons]. *)
Definition total_size (h : heap) (polygons : list Polygon.t) : Z :=
  foldr (λ polygon n, Py.len (contents h polygon) + n) 0 polygons.

(** *** The text of a rendered [ScadPolygon] *)

(** The number of slices of [slice_size] items that the rendering loops of a
    polygon with [points_size] points go through. *)
Definition slices_count (points_size slice_size : Z) : Z :=
  Py.ceil (IZR points_size / IZR slice_size).



Definition polygon_comment (h : heap) (indent : string) (polygon : Polygon.t)
    (start_index : Z) : string :=
  indent +:+ " // Polygon '" +:+ Polygon.name polygon +:+ "' " +:+
  Py.str start_index +:+ ":" +:+
  Py.str (start_index + Py.len (contents h polygon) - 1).

(** The lines of [Polygon.points_scad_lines_append]. *)
Definition points_block (h : heap) (indent : string) (polygon : Polygon.t)
    (start_index : Z) : list string :=
  let points := contents h polygon in
  polygon_comment h indent polygon start_index ::
  map (Polygon.points_line indent start_index points)
      (Py.range (slices_count (Py.len points) 4)).

(** The lines of [Polygon.indices_scad_lines_append]. *)
Definition indices_block (h : heap) (indent : string) (polygon : Polygon.t)
    (start_index : Z) : list string :=
  let points_size := Py.len (contents h polygon) in
  polygon_comment h indent polygon start_index ::
  map (Polygon.indices_line indent start_index points_size)
      (Py.range (slices_count points_size 25)).

(** The index of the first point of polygon [i]: the number of points of the
    polygons before it. *)
Definition offset (h : heap) (polygons : list Polygon.t) (i : nat) : Z :=
  total_size h (take i polygons).

Definition convexity_text (convexity : Z) : string :=
  if convexity <? 0 then "" else ", convexity=" +:+ Py.str convexity.

Definition first_lines (indent : string) (scad_polygon : ScadPolygon.t)
    : list string :=
  [ indent +:+ "// ScadPolygon '" +:+ ScadPolygon.name scad_polygon +:+ " [0-" +:+
    Py.str (Py.len (ScadPolygon.polygons scad_polygon) - 1) +:+ "]'";
    indent +:+ "polygon(points = [" ].

Definition paths_line (indent : string) : string := indent +:+ " ], paths = [".

Definition end_comment (scad_polygon : ScadPolygon.t) : string :=
  "); // End ScadPolygon '" +:+ ScadPolygon.name scad_polygon +:+ "' [0-" +:+
  Py.str (Py.len (ScadPolygon.polygons scad_polygon) - 1) +:+ "]".

Definition last_line (indent : string) (scad_polygon : ScadPolygon.t) : string :=
  indent +:+ " ]" +:+ convexity_text (ScadPolygon.convexity scad_polygon) +:+
  end_comment scad_polygon.

(** The lines that [ScadPolygon.scad_lines_append] appends. *)
Definition render (h : heap) (scad_polygon : ScadPolygon.t) (indent : string)
    : list string :=
  let polygons := ScadPolygon.polygons scad_polygon in
  first_lines indent scad_polygon ++
  concat (imap (λ i polygon,
                  points_block h (indent +:+ " ") polygon (offset h polygons i))
               polygons) ++
  [paths_line indent] ++
  concat (imap (λ i polygon,
                  indices_block h (indent +:+ " ") polygon (offset h polygons i))
               polygons) ++
  [last_line indent scad_polygon].

(** Every polygon of the list has a live point list. *)
Definition live (h : heap) (polygons : list Polygon.t) : Prop :=
  Forall (λ polygon, is_Some (h !! Polygon.points polygon)) polygons.

(** A computation that leaves every heap as it found it. *)
Definition read_only {A} (m : M A) : Prop := ∀ h : heap, (m h).1 = h.

(** *** The shape of a formatted number *)




End View.

(** ** Programs over the module

    A client of the module creates list objects of its own, appends to them,
    constructs polygons (from one of its lists, from the [points] list of an
    existing polygon, or with the default argument) and calls the appenders,
    in any order.  A state records the heap, the polygons constructed so far
    (the most recent first) and the lists that the client created. *)

Module Program.

Record state : Type :=
  mk { heap_of : heap; polygons : list Polygon.t; lists : list loc }.

(** The state once the module is loaded. *)
Definition init : state := mk Polygon.heap_init [] [].

(** The list objects a client can pass to [Polygon(name, points)]. *)
Definition reachable_list (s : state) (points : option loc) : Prop :=
  match points with
  | None => True
  | Some l => l ∈ lists s ∨ l ∈ Polygon.points <$> polygons s
  end.

Inductive step : state → state → Prop :=
| step_list_new (s : state) (xs : list P.t) (h' : heap) (l : loc) :
    list_new xs (heap_of s) = (h', inr l) →
    step s (mk h' (polygons s) (l :: lists s))
| step_list_append (s : state) (l : loc) (p : P.t) :
    l ∈ lists s →
    step s (mk (list_append l p (heap_of s)).1 (polygons s) (lists s))
| step_polygon_new (s : state) (name : string) (points : option loc)
    (h' : heap) (polygon : Polygon.t) :
    reachable_list s points →
    Polygon.__init__ name points (heap_of s) = (h', inr polygon) →
    step s (mk h' (polygon :: polygons s) (lists s))
| step_append (s : state) (polygon : Polygon.t) (op : View.append_op) :
    polygon ∈ polygons s →
    step s (mk (View.run_append polygon op (heap_of s)).1 (polygons s) (lists s)).

Definition reachable (s : state) : Prop := rtc step init s.

(** Every polygon has a live point list of its own, which is neither the
    default list nor a list of the client; the default list stays empty. *)
Definition inv (s : state) : Prop :=
  heap_of s !! Polygon.default_points = Some [] ∧
  NoDup (Polygon.points <$> polygons s) ∧
  (∀ polygon, polygon ∈ polygons s →
     is_Some (heap_of s !! Polygon.points polygon) ∧
     Polygon.points polygon ≠ Polygon.default_points ∧
     Polygon.points polygon ∉ lists s) ∧
  (∀ l, l ∈ lists s →
     is_Some (heap_of s !! l) ∧ l ≠ Polygon.default_points).

(** A reachable state: the client makes the list [[(1, 2)]], builds polygon
    [a] from it and polygons [b] and [c] with the default argument, and
    appends the point [(5, 5)] to [b] before it builds [c]. *)
Definition example_point : P.t := P.mk 1 2 0.
Definition example_polygons : list Polygon.t :=
  [Polygon.mk "c" 5; Polygon.mk "b" 4; Polygon.mk "a" 3].
Definition example : state :=
  mk (<[5%positive := []]>
        (<[4%positive := [P.mk 5 5 0]]>
           (<[3%positive := [example_point]]>
              (<[2%positive := [example_point]]> Polygon.heap_init))))
     example_polygons [2%positive].

(** The scenario of a square in a set: the polygon [square] gets a rectangle
    of 10 by 10 around the origin, and the set [demo] that holds it is
    rendered. *)
Definition demo : M (list string) :=
  square ← Polygon.__init__ "square" None;
  Polygon.rotated_rectangle_append square (P.mk 0 0 0) 10 10 0 ;;
  ScadPolygon.scad_lines_append (ScadPolygon.__init__ "demo" [square] None) [] "".

End Program.

(** ** Further views: counts and sequences of appenders *)

Module Derived.

(** The number of points that an appender adds when it does not fail. *)
Definition appended_count (op : View.append_op) : Z :=
  match op with
  | View.PointAppend _ => 1
  | View.ArcAppend _ _ _ _ points_count => Z.max 0 points_count
  | View.CircleAppend _ _ points_count => Z.max 0 points_count
  | View.RotatedRectangleAppend _ _ _ _ => 4
  | View.SlotAppend _ _ _ _ points_count => 2 * Z.max 0 points_count
  end.




End Derived.

(** ** Strings, dictionaries and the exceptions of a client of the module *)

Module Str.

(** The one-character string of a character. *)
Definition char (c : ascii) : string := String c EmptyString.

(** The characters of a string, as iterating over it yields them. *)
Definition chars (text : string) : list ascii := list_ascii_of_string text.

(** [text.find(c)] for a character [c]: the index of its first occurrence,
    [-1] when there is none. *)
Fixpoint find (text : string) (c : ascii) : Z :=
  match text with
  | EmptyString => -1
  | String first rest =>
      if Ascii.eqb first c then 0
      else let index := find rest c in
           if index <? 0 then -1 else index + 1
  end.

(** [c.isupper()] for an ASCII character. *)
Definition isupper (c : ascii) : bool :=
  ((65 <=? nat_of_ascii c) && (nat_of_ascii c <=? 90))%nat.

(** [enumerate(xs, start)]. *)
Fixpoint enumerate_from {A} (start : Z) (xs : list A) : list (Z * A) :=
  match xs with
  | [] => []
  | a :: rest => (start, a) :: enumerate_from (start + 1) rest
  end.

(** [enumerate(xs)]. *)
Definition enumerate {A} (xs : list A) : list (Z * A) := enumerate_from 0 xs.

End Str.

Module Client.

(** What a caller of the module can raise: an exception of the module, or the
    [KeyError] of a dictionary. *)
Inductive exn : Type :=
| Raised (e : Py.exn)
| KeyError (key : string).

Definition C (A : Type) : Type := heap → heap * (exn + A).

Definition ret {A} (a : A) : C A := λ h, (h, inr a).

Definition bind {A B} (m : C A) (k : A → C B) : C B :=
  λ h, match m h with
       | (h', inr a) => k a h'
       | (h', inl e) => (h', inl e)
       end.

Definition raise {A} (e : exn) : C A := λ h, (h, inl e).

(** A call of a method of the module. *)
Definition call {A} (m : M A) : C A :=
  λ h, match m h with
       | (h', inr a) => (h', inr a)
       | (h', inl e) => (h', inl (Raised e))
       end.

(** [table[key]]. *)
Definition dict_get (table : gmap string P.t) (key : string) : C P.t :=
  match table !! key with
  | Some point => ret point
  | None => raise (KeyError key)
  end.

(** [text[index]], a one-character string. *)
Definition str_get (text : string) (index : nat) : C string :=
  match String.get index text with
  | Some c => ret (Str.char c)
  | None => raise (Raised Py.IndexError)
  end.

(** [for a in xs: s = body(s, a)]. *)
Fixpoint fold_c {A S} (xs : list A) (body : S → A → C S) (s : S) : C S :=
  match xs with
  | [] => ret s
  | a :: rest => bind (body s a) (fold_c rest body)
  end.

End Client.

(** ** [class Romi]: the Pololu Romi platform (romi_model.py)

    The messages that the methods print when [debugging] is set are not
    modelled; the pattern strings are ASCII. *)

Module Romi.

#[local] Instance C_ret : MRet Client.C := @Client.ret.
#[local] Instance C_bind : MBind Client.C := λ A B k m, Client.bind m k.

Record t : Type :=
  mk { debugging : bool; inches2mm : float; origin_offset : P.t }.

Definition __init__ : t :=
  let debugging := true in
  let inches2mm := 25.4%R in
  let axel_y_above := (2.967165 * inches2mm)%R in
  let axel_y_below := (2.908110 * inches2mm)%R in
  let y_origin_offset := ((axel_y_above + axel_y_below) / 2)%R in
  let upper_castor_x_left := (-3.930756 * inches2mm)%R in
  let upper_castor_x_right := (-3.805256 * inches2mm)%R in
  let x_origin_offset := ((upper_castor_x_left + upper_castor_x_right) / 2)%R in
  let origin_offset := P.mk2 x_origin_offset y_origin_offset in
  mk debugging inches2mm origin_offset.

Definition hole_locate (romi : t) (left_x right_x above_y below_y : float)
    : float * P.t :=
  let origin_offset := origin_offset romi in
  let inches2mm := inches2mm romi in
  let left_x := (left_x * inches2mm)%R in
  let right_x := (right_x * inches2mm)%R in
  let above_y := (above_y * inches2mm)%R in
  let below_y := (below_y * inches2mm)%R in
  let dx := (right_x - left_x)%R in
  let dy := (above_y - below_y)%R in
  let x := ((left_x + right_x) / 2)%R in
  let y := ((above_y + below_y) / 2)%R in
  let diameter := ((dx + dy) / 2)%R in
  let center := P.__sub__ (P.mk2 x y) origin_offset in
  (diameter, center).

Definition hex_dy_pitch : float := 7.5%R.
Definition half_hex_dx_pitch : float := (hex_dy_pitch / sqrt 3)%R.

(** The [for ... else] loop of [hex_pattern_get] that looks for the row with
    an ['O']: the upper left corner of the pattern, [None] when the loop ends
    without a [break]. *)
Fixpoint origin_find (hex_origin : P.t) (rows : list (Z * string))
    : option (float * float) :=
  match rows with
  | [] => None
  | (y_offset, pattern_row) :: rest =>
      let x_offset := Str.find pattern_row "O" in
      if 0 <=? x_offset then
        let upper_left_origin_x :=
          (P.x hex_origin - IZR x_offset * half_hex_dx_pitch)%R in
        let upper_left_origin_y :=
          (P.y hex_origin + IZR y_offset * hex_dy_pitch)%R in
        Some (upper_left_origin_x, upper_left_origin_y)
      else origin_find hex_origin rest
  end.

(** The body of the loop of [hex_pattern_get] over the characters of a row. *)
Definition hex_pattern_cell (upper_left_origin_x y hole_diameter : float)
    (y_index : Z) (state : list Polygon.t * gmap string P.t)
    (cell : Z * ascii) : Client.C (list Polygon.t * gmap string P.t) :=
  let '(polygons, locations) := state in
  let '(x_index, pattern_character) := cell in
  let points_count := 8 in
  if negb (Ascii.eqb pattern_character "-") then
    let x := (upper_left_origin_x + IZR x_index * half_hex_dx_pitch)%R in
    let hole_center := P.mk2 x y in
    let locations := <[Str.char pattern_character := hole_center]> locations in
    if Str.isupper pattern_character then
      hole_polygon ← Client.call
        (Polygon.__init__ ("Hex Hole (" +:+ Py.str x_index +:+ ", " +:+
                           Py.str y_index +:+ ")") None);
      Client.call (Polygon.circle_append hole_polygon hole_center hole_diameter
                                         points_count) ;;
      mret (polygons ++ [hole_polygon], locations)
    else mret (polygons, locations)
  else mret (polygons, locations).

(** The body of the loop of [hex_pattern_get] over the rows. *)
Definition hex_pattern_row (upper_left_origin_x upper_left_origin_y
                            hole_diameter : float)
    (state : list Polygon.t * gmap string P.t) (row : Z * string)
    : Client.C (list Polygon.t * gmap string P.t) :=
  let '(y_index, pattern_row) := row in
  let y := (upper_left_origin_y - IZR y_index * hex_dy_pitch)%R in
  Client.fold_c (Str.enumerate (Str.chars pattern_row))
                (hex_pattern_cell upper_left_origin_x y hole_diameter y_index)
                state.

(** The body of the loop of [hex_pattern_get] over the slot pairs. *)
Definition hex_pattern_slot (locations : gmap string P.t)
    (slot_length slot_width : float) (polygons : list Polygon.t)
    (slot_pair : string) : Client.C (list Polygon.t) :=
  let points_count := 8 in
  key1 ← Client.str_get slot_pair 0;
  hole1 ← Client.dict_get locations key1;
  key2 ← Client.str_get slot_pair 1;
  hole2 ← Client.dict_get locations key2;
  slot_polygon ← Client.call
    (Polygon.__init__ ("Slot '" +:+ slot_pair +:+ "'") None);
  Client.call (Polygon.slot_append slot_polygon hole1 hole2
                                   slot_length slot_width points_count) ;;
  mret (polygons ++ [slot_polygon]).

Definition slot_dx (romi : t) : float :=
  let inches2mm := inches2mm romi in
  let slot_left_x := (-2.437146 * inches2mm)%R in
  let slot_right_x := (-2.346591 * inches2mm)%R in
  (slot_right_x - slot_left_x)%R.

Definition slot_dy (romi : t) : float :=
  let inches2mm := inches2mm romi in
  let slot_top_y := (1.339205 * inches2mm)%R in
  let slot_bottom_y := (1.051803 * inches2mm)%R in
  (slot_top_y - slot_bottom_y)%R.

Definition hex_pattern_get (romi : t) (pattern_rows : list string)
    (slot_pairs : list string) (hex_origin : P.t) (hole_diameter : float)
    : Client.C (list Polygon.t * gmap string P.t) :=
  let slot_length := (slot_dy romi - slot_dx romi)%R in
  let slot_width := slot_dx romi in
  match origin_find hex_origin (Str.enumerate pattern_rows) with
  | None => Client.raise (Client.Raised Py.AssertionError)
  | Some (upper_left_origin_x, upper_left_origin_y) =>
      '(polygons, locations) ←
        Client.fold_c (Str.enumerate pattern_rows)
          (hex_pattern_row upper_left_origin_x upper_left_origin_y hole_diameter)
          ([], ∅);
      polygons ←
        Client.fold_c slot_pairs
          (hex_pattern_slot locations slot_length slot_width) polygons;
      mret (polygons, locations)
  end.

(** The body of the loop of [line_hole_polygons_get]. *)
Definition line_hole (s_center hole_vector : P.t) (small_hole_diameter : float)
    (line_hole_polygons : list Polygon.t) (vector_hole_index : Z)
    : Client.C (list Polygon.t) :=
  if negb (vector_hole_index mod 3 =? 1) then
    offset ← Client.call
      (lift_option Py.ZeroDivisionError
         (P.__truediv__
            (P.__rmul__ hole_vector (IZR (vector_hole_index - 1))) 3));
    let hole_center := P.__add__ s_center offset in
    hole_polygon ← Client.call
      (Polygon.__init__ ("Vector Hole " +:+ Py.str vector_hole_index) None);
    Client.call (Polygon.circle_append hole_polygon hole_center
                                       small_hole_diameter 8) ;;
    mret (line_hole_polygons ++ [hole_polygon])
  else mret line_hole_polygons.

Definition line_hole_polygons_get (romi : t) (lower_hex_table : gmap string P.t)
    : Client.C (list Polygon.t) :=
  let '(small_hole_diameter, small_hole_center) :=
    hole_locate romi (-3.289535) (-3.198980) 0.256524 0.165984 in
  s_center ← Client.dict_get lower_hex_table "S";
  q_center ← Client.dict_get lower_hex_table "Q";
  let hole_vector := P.__sub__ q_center s_center in
  Client.fold_c (Py.range 9)
                (line_hole s_center hole_vector small_hole_diameter) [].

End Romi.

(** ** Views of the polygons that a caller builds *)

Module Hex.

(** The polygons [polygons] were built between the heaps [h] and [h']: each
    has the name and the points that [specs] gives at its place, in a list
    object of its own that did not exist in [h], and the lists of [h] are as
    they were. *)
Definition built (h h' : heap) (polygons : list Polygon.t)
    (specs : list (string * list P.t)) : Prop :=
  Forall2 (λ polygon spec,
             Polygon.name polygon = spec.1 ∧
             h !! Polygon.points polygon = None ∧
             h' !! Polygon.points polygon = Some spec.2)
          polygons specs ∧
  NoDup (Polygon.points <$> polygons) ∧
  ∀ l, is_Some (h !! l) → h' !! l = h !! l.

(** A cell of a pattern: its column, its row and its character. *)
Definition cell : Type := Z * Z * ascii.

Definition letter (c : cell) : ascii := c.2.

(** The cells of a row that are not ['-'], from left to right. *)
Definition row_cells (y_index : Z) (columns : list (Z * ascii)) : list cell :=
  columns ≫= λ '(x_index, c),
    if Ascii.eqb c "-" then [] else [(x_index, y_index, c)].

(** The cells of the rows that are not ['-'], in reading order. *)
Definition cells_of (rows : list (Z * string)) : list cell :=
  rows ≫= λ '(y_index, pattern_row),
    row_cells y_index (Str.enumerate (Str.chars pattern_row)).

Definition cells (pattern_rows : list string) : list cell :=
  cells_of (Str.enumerate pattern_rows).

(** The place of a cell in a pattern whose upper left corner is at
    [(upper_left_x, upper_left_y)]. *)
Definition center (upper_left_x upper_left_y : float) (c : cell) : P.t :=
  P.mk2 (upper_left_x + IZR c.1.1 * Romi.half_hex_dx_pitch)
        (upper_left_y - IZR c.1.2 * Romi.hex_dy_pitch).

(** The table of the places of the cells, a later cell replacing an earlier
    one with the same letter. *)
Definition locate (upper_left_x upper_left_y : float)
    (table : gmap string P.t) (cs : list cell) : gmap string P.t :=
  foldl (λ table c,
           <[Str.char (letter c) := center upper_left_x upper_left_y c]> table)
        table cs.

Definition hole_name (c : cell) : string :=
  "Hex Hole (" +:+ Py.str c.1.1 +:+ ", " +:+ Py.str c.1.2 +:+ ")".

(** The holes of the cells with an upper case letter. *)
Definition holes (upper_left_x upper_left_y hole_diameter : float)
    (cs : list cell) : list (string * list P.t) :=
  map (λ c, (hole_name c,
             View.circle_points (center upper_left_x upper_left_y c)
                                hole_diameter 8))
      (filter (λ c, Str.isupper (letter c) = true) cs).

(** The slot of a pair of letters, when the pair has two characters and the
    table has both. *)
Definition slot (locations : gmap string P.t) (slot_length slot_width : float)
    (slot_pair : string) : option (string * list P.t) :=
  c1 ← String.get 0 slot_pair;
  hole1 ← locations !! Str.char c1;
  c2 ← String.get 1 slot_pair;
  hole2 ← locations !! Str.char c2;
  Some ("Slot '" +:+ slot_pair +:+ "'",
        View.slot_points hole1 hole2 slot_length slot_width 8).

(** What the body of the loop over the slot pairs raises at a pair that has
    no slot in the table. *)
Definition lookup_error (locations : gmap string P.t) (slot_pair : string)
    : Client.exn :=
  match String.get 0 slot_pair with
  | None => Client.Raised Py.IndexError
  | Some c1 =>
      match locations !! Str.char c1 with
      | None => Client.KeyError (Str.char c1)
      | Some _ =>
          match String.get 1 slot_pair with
          | None => Client.Raised Py.IndexError
          | Some c2 => Client.KeyError (Str.char c2)
          end
      end
  end.

(** The letters of a pattern. *)
Definition letters (pattern_rows : list string) : list ascii :=
  letter <$> cells pattern_rows.

(** A slot pair whose first two characters are letters of the pattern. *)
Definition slot_ok (pattern_rows : list string) (slot_pair : string) : Prop :=
  ∃ c1 c2,
    String.get 0 slot_pair = Some c1 ∧ String.get 1 slot_pair = Some c2 ∧
    c1 ∈ letters pattern_rows ∧ c2 ∈ letters pattern_rows.

(** The character [c] is in column [x] of row [y] of the pattern, and nowhere
    else. *)
Definition at_cell (pattern_rows : list string) (x y : nat) (c : ascii) : Prop :=
  ∃ pattern_row,
    pattern_rows !! y = Some pattern_row ∧ Str.chars pattern_row !! x = Some c.

Definition only_at (pattern_rows : list string) (x y : nat) (c : ascii) : Prop :=
  at_cell pattern_rows x y c ∧
  ∀ x' y', at_cell pattern_rows x' y' c → x' = x ∧ y' = y.

(** The first ['O'] of a pattern in reading order is in column [x_offset] of
    row [y_offset]. *)
Definition origin_at (pattern_rows : list string) (x_offset y_offset : Z)
    : Prop :=
  ∃ pattern_row,
    pattern_rows !! Z.to_nat y_offset = Some pattern_row ∧
    0 ≤ y_offset ∧ 0 ≤ x_offset ∧
    Str.find pattern_row "O" = x_offset ∧
    ∀ (y : nat) row, (Z.of_nat y < y_offset) →
      pattern_rows !! y = Some row → Str.find row "O" = -1.

(** What the loop over the slot pairs raises at a pair that is not
    [slot_ok]. *)
Definition slot_error (pattern_rows : list string) (slot_pair : string)
    : Client.exn :=
  match String.get 0 slot_pair with
  | None => Client.Raised Py.IndexError
  | Some c1 =>
      if decide (c1 ∈ letters pattern_rows) then
        match String.get 1 slot_pair with
        | None => Client.Raised Py.IndexError
        | Some c2 => Client.KeyError (Str.char c2)
        end
      else Client.KeyError (Str.char c1)
  end.

(** The place of a hole of [line_hole_polygons_get]: [s_center] moved by
    [thirds] thirds of the vector from [s_center] to [q_center]. *)
Definition line_center (s_center q_center : P.t) (thirds : Z) : P.t :=
  P.mk (P.x s_center + (P.x q_center - P.x s_center) * IZR thirds / 3)
       (P.y s_center + (P.y q_center - P.y s_center) * IZR thirds / 3)
       (P.z s_center + (P.z q_center - P.z s_center) * IZR thirds / 3).

(** The holes of [line_hole_polygons_get] for the indices [indices]. *)
Definition line_holes (s_center q_center : P.t) (diameter : float)
    (indices : list Z) : list (string * list P.t) :=
  map (λ index, ("Vector Hole " +:+ Py.str index,
                 View.circle_points (line_center s_center q_center (index - 1))
                                    diameter 8))
      (filter (λ index, index mod 3 ≠ 1) indices).

End Hex.

(** ** The monad and the heap *)

Section monad_lemmas.

Lemma bind_ok {A B} (m : M A) (k : A → M B) (h h' : heap) (a : A) :
  m h = (h', inr a) → (m ≫= k) h = k a h'.
Proof. intros Hm. unfold mbind, M_bind, bind. by rewrite Hm. Qed.

Lemma bind_raise {A B} (m : M A) (k : A → M B) (h h' : heap) (e : Py.exn) :
  m h = (h', inl e) → (m ≫= k) h = (h', inl e).
Proof. intros Hm. unfold mbind, M_bind, bind. by rewrite Hm. Qed.

Lemma list_append_ok (l : loc) (p : P.t) (h : heap) (ps : list P.t) :
  h !! l = Some ps → list_append l p h = (<[l := ps ++ [p]]> h, inr ()).
Proof. intros Hl. unfold list_append. by rewrite Hl. Qed.

Lemma list_append_dangling (l : loc) (p : P.t) (h : heap) :
  h !! l = None → list_append l p h = (h, inl Py.DanglingReference).
Proof. intros Hl. unfold list_append. by rewrite Hl. Qed.

Lemma list_get_ok (l : loc) (h : heap) (ps : list P.t) :
  h !! l = Some ps → list_get l h = (h, inr ps).
Proof. intros Hl. unfold list_get. by rewrite Hl. Qed.

Lemma for_each_append {A} (l : loc) (f : A → P.t) (xs : list A) :
  ∀ (h : heap) (ps : list P.t),
    h !! l = Some ps →
    for_each xs (λ a, list_append l (f a)) h = (<[l := ps ++ map f xs]> h, inr ()).
Proof.
  induction xs as [|a xs IH]; intros h ps Hl; simpl.
  - rewrite app_nil_r, insert_id by done. done.
  - erewrite bind_ok by (by apply list_append_ok).
    erewrite IH by (by rewrite lookup_insert_eq).
    by rewrite insert_insert_eq, <- app_assoc.
Qed.

Lemma for_each_dangling {A} (l : loc) (f : A → P.t) (xs : list A) (h : heap) :
  h !! l = None →
  for_each xs (λ a, list_append l (f a)) h =
  (h, match xs with [] => inr () | _ :: _ => inl Py.DanglingReference end).
Proof.
  intros Hl. destruct xs as [|a xs]; simpl; [done|].
  by erewrite bind_raise by (by apply list_append_dangling).
Qed.

Lemma float_div_ok (a b : float) (h : heap) :
  b ≠ 0%R → float_div a b h = (h, inr (a / b)%R).
Proof. intros Hb. unfold float_div. by destruct (Req_dec_T b 0). Qed.

Lemma float_div_zero (a : float) (h : heap) :
  float_div a 0 h = (h, inl Py.ZeroDivisionError).
Proof. unfold float_div. by destruct (Req_dec_T 0 0). Qed.

End monad_lemmas.

(** ** The tessellation appenders *)

Section appenders.

Context (polygon : Polygon.t).

Lemma IZR_pred_neq_0 (n : Z) : n ≠ 1 → IZR (n - 1) ≠ 0%R.
Proof. intros Hn H0. apply eq_IZR_R0 in H0. lia. Qed.

Lemma arc_append_ok (h : heap) (ps : list P.t) (center : P.t)
    (radius start_angle end_angle : float) (points_count : Z) :
  points_count ≠ 1 →
  h !! Polygon.points polygon = Some ps →
  Polygon.arc_append polygon center radius start_angle end_angle points_count h =
  (<[Polygon.points polygon :=
       ps ++ View.arc_points center radius start_angle
               ((end_angle - start_angle) / IZR (points_count - 1)) points_count]> h,
   inr ()).
Proof.
  intros Hn Hl. unfold Polygon.arc_append.
  erewrite bind_ok by (apply float_div_ok, IZR_pred_neq_0, Hn).
  by erewrite for_each_append.
Qed.

Lemma arc_append_one (h : heap) (center : P.t) (radius start_angle end_angle : float) :
  Polygon.arc_append polygon center radius start_angle end_angle 1 h =
  (h, inl Py.ZeroDivisionError).
Proof.
  unfold Polygon.arc_append.
  by erewrite bind_raise by (apply float_div_zero).
Qed.

Lemma arc_append_dangling (h : heap) (center : P.t)
    (radius start_angle end_angle : float) (points_count : Z) :
  h !! Polygon.points polygon = None →
  (Polygon.arc_append polygon center radius start_angle end_angle points_count h).1 = h.
Proof.
  intros Hl. destruct (decide (points_count = 1)) as [->|Hn].
  - by rewrite arc_append_one.
  - unfold Polygon.arc_append.
    erewrite bind_ok by (apply float_div_ok, IZR_pred_neq_0, Hn).
    by erewrite for_each_dangling.
Qed.

Lemma circle_append_ok (h : heap) (ps : list P.t) (center : P.t) (diameter : float)
    (points_count : Z) :
  points_count ≠ 0 →
  h !! Polygon.points polygon = Some ps →
  Polygon.circle_append polygon center diameter points_count h =
  (<[Polygon.points polygon :=
       ps ++ View.circle_points center diameter points_count]> h, inr ()).
Proof.
  intros Hn Hl. unfold Polygon.circle_append.
  erewrite bind_ok by (apply float_div_ok; intros H0; apply eq_IZR_R0 in H0; lia).
  by erewrite for_each_append.
Qed.

Lemma circle_append_zero (h : heap) (center : P.t) (diameter : float) :
  Polygon.circle_append polygon center diameter 0 h = (h, inl Py.ZeroDivisionError).
Proof.
  unfold Polygon.circle_append.
  by erewrite bind_raise by (apply float_div_zero).
Qed.

Lemma circle_append_dangling (h : heap) (center : P.t) (diameter : float)
    (points_count : Z) :
  h !! Polygon.points polygon = None →
  (Polygon.circle_append polygon center diameter points_count h).1 = h.
Proof.
  intros Hl. destruct (decide (points_count = 0)) as [->|Hn].
  - by rewrite circle_append_zero.
  - unfold Polygon.circle_append.
    erewrite bind_ok by (apply float_div_ok; intros H0; apply eq_IZR_R0 in H0; lia).
    by erewrite for_each_dangling.
Qed.

Lemma rotated_rectangle_append_ok (h : heap) (ps : list P.t) (center : P.t)
    (dx dy angle : float) :
  h !! Polygon.points polygon = Some ps →
  Polygon.rotated_rectangle_append polygon center dx dy angle h =
  (<[Polygon.points polygon := ps ++ View.rectangle_points center dx dy angle]> h,
   inr ()).
Proof.
  intros Hl. unfold Polygon.rotated_rectangle_append.
  erewrite bind_ok by (by apply list_append_ok).
  erewrite bind_ok by (apply list_append_ok; by rewrite lookup_insert_eq).
  erewrite bind_ok by (apply list_append_ok; by rewrite lookup_insert_eq).
  erewrite list_append_ok by (by rewrite lookup_insert_eq).
  rewrite !insert_insert_eq, <- !app_assoc. done.
Qed.

Lemma rotated_rectangle_append_dangling (h : heap) (center : P.t) (dx dy angle : float) :
  h !! Polygon.points polygon = None →
  (Polygon.rotated_rectangle_append polygon center dx dy angle h).1 = h.
Proof.
  intros Hl. unfold Polygon.rotated_rectangle_append.
  by erewrite bind_raise by (by apply list_append_dangling).
Qed.

Lemma truediv_2 (point : P.t) :
  P.__truediv__ point 2 = Some (P.mk (P.x point / 2) (P.y point / 2) (P.z point / 2)).
Proof. unfold P.__truediv__. destruct (Req_dec_T 2 0); [lra|done]. Qed.

Lemma slot_append_unfold (h : heap) (end_point1 end_point2 : P.t)
    (slot_length slot_width : float) (points_count : Z) :
  Polygon.slot_append polygon end_point1 end_point2 slot_length slot_width
                      points_count h =
  (let center := View.midpoint end_point1 end_point2 in
   let angle := View.slot_angle end_point1 end_point2 in
   Polygon.arc_append polygon (View.along center (slot_length / 2) angle)
     (slot_width / 2) (angle - PI / 2) (angle + PI / 2) points_count ;;
   Polygon.arc_append polygon (View.along center (slot_length / 2) (angle + PI))
     (slot_width / 2) (angle + PI - PI / 2) (angle + PI + PI / 2) points_count) h.
Proof.
  unfold Polygon.slot_append. rewrite truediv_2. done.
Qed.

Lemma slot_append_ok (h : heap) (ps : list P.t) (end_point1 end_point2 : P.t)
    (slot_length slot_width : float) (points_count : Z) :
  points_count ≠ 1 →
  h !! Polygon.points polygon = Some ps →
  Polygon.slot_append polygon end_point1 end_point2 slot_length slot_width
                      points_count h =
  (<[Polygon.points polygon :=
       ps ++ View.slot_points end_point1 end_point2 slot_length slot_width
               points_count]> h, inr ()).
Proof.
  intros Hn Hl. rewrite slot_append_unfold. cbv zeta.
  erewrite bind_ok by (by apply arc_append_ok).
  erewrite arc_append_ok; [|done|by rewrite lookup_insert_eq].
  rewrite insert_insert_eq, <- app_assoc. done.
Qed.

Lemma slot_append_one (h : heap) (end_point1 end_point2 : P.t)
    (slot_length slot_width : float) :
  Polygon.slot_append polygon end_point1 end_point2 slot_length slot_width 1 h =
  (h, inl Py.ZeroDivisionError).
Proof.
  rewrite slot_append_unfold. cbv zeta.
  by erewrite bind_raise by (apply arc_append_one).
Qed.

Lemma run_append_ok (h : heap) (ps : list P.t) (op : View.append_op) :
  h !! Polygon.points polygon = Some ps →
  View.run_append polygon op h =
  if View.divides_by_zero op then (h, inl Py.ZeroDivisionError)
  else (<[Polygon.points polygon := ps ++ View.appended op]> h, inr ()).
Proof.
  intros Hl. destruct op as [point|c r a0 a1 n|c d n|c dx dy a|e1 e2 sl sw n]; simpl.
  - by apply list_append_ok.
  - destruct (Z.eqb_spec n 1) as [->|Hn];
      [apply arc_append_one | by apply arc_append_ok].
  - destruct (Z.eqb_spec n 0) as [->|Hn];
      [apply circle_append_zero | by apply circle_append_ok].
  - by apply rotated_rectangle_append_ok.
  - destruct (Z.eqb_spec n 1) as [->|Hn];
      [apply slot_append_one | by apply slot_append_ok].
Qed.

Lemma run_append_dangling (h : heap) (op : View.append_op) :
  h !! Polygon.points polygon = None → (View.run_append polygon op h).1 = h.
Proof.
  intros Hl. destruct op as [point|c r a0 a1 n|c d n|c dx dy a|e1 e2 sl sw n]; simpl.
  - unfold Polygon.point_append. by rewrite list_append_dangling.
  - by apply arc_append_dangling.
  - by apply circle_append_dangling.
  - by apply rotated_rectangle_append_dangling.
  - rewrite slot_append_unfold. cbv zeta.
    unfold mbind, M_bind, bind.
    match goal with
    | |- context [Polygon.arc_append polygon ?c ?r ?a ?b n h] =>
        pose proof (arc_append_dangling h c r a b n Hl) as H1;
        destruct (Polygon.arc_append polygon c r a b n h) as [h1 [e|[]]]
    end; simpl in H1; subst h1; [done|].
    by apply arc_append_dangling.
Qed.

End appenders.

(** ** Arcs *)

Lemma arc_points_length (center : P.t) (radius start_angle delta_angle : float)
    (points_count : Z) :
  0 ≤ points_count →
  Py.len (View.arc_points center radius start_angle delta_angle points_count)
  = points_count.
Proof.
  intros Hn. unfold Py.len, View.arc_points, Py.range.
  rewrite length_map, length_seqZ. lia.
Qed.

Lemma arc_points_lookup (center : P.t) (radius start_angle delta_angle : float)
    (points_count i : Z) :
  0 ≤ i < points_count →
  View.arc_points center radius start_angle delta_angle points_count !! Z.to_nat i
  = Some (View.on_circle center radius (start_angle + IZR i * delta_angle)).
Proof.
  intros Hi. unfold View.arc_points, Py.range.
  rewrite list_lookup_fmap, lookup_seqZ_lt by lia. simpl.
  by rewrite Z2Nat.id by lia.
Qed.

(** C2.  For every [count >= 2], [arc_append] returns normally and appends
    exactly [count] points to the polygon; the point of index [i] is
    [(center.x + r cos t, center.y + r sin t)] at the angle
    [t = a0 + i * (a1 - a0) / (count - 1)], so that the first point is at the
    angle [a0] and the last one at the angle [a1]. *)
Theorem arc_append_points (polygon : Polygon.t) (h : heap) (ps : list P.t)
    (center : P.t) (radius a0 a1 : float) (count : Z) :
  2 ≤ count →
  h !! Polygon.points polygon = Some ps →
  ∃ new : list P.t,
    Polygon.arc_append polygon center radius a0 a1 count h
    = (<[Polygon.points polygon := ps ++ new]> h, inr ()) ∧
    Py.len new = count ∧
    (∀ i : Z, 0 ≤ i < count →
       new !! Z.to_nat i =
       Some (P.mk (P.x center + radius * cos (a0 + IZR i * ((a1 - a0) / IZR (count - 1))))
                  (P.y center + radius * sin (a0 + IZR i * ((a1 - a0) / IZR (count - 1))))
                  0)) ∧
    new !! Z.to_nat 0 =
      Some (P.mk (P.x center + radius * cos a0) (P.y center + radius * sin a0) 0) ∧
    new !! Z.to_nat (count - 1) =
      Some (P.mk (P.x center + radius * cos a1) (P.y center + radius * sin a1) 0).
Proof.
  intros Hn Hl.
  exists (View.arc_points center radius a0 ((a1 - a0) / IZR (count - 1)) count).
  split; [apply arc_append_ok; [lia|done]|].
  split; [apply arc_points_length; lia|].
  assert (Hd : IZR (count - 1) ≠ 0%R) by (apply IZR_pred_neq_0; lia).
  split; [intros i Hi; by rewrite arc_points_lookup|].
  split.
  - rewrite arc_points_lookup by lia. unfold View.on_circle.
    replace (a0 + 0 * ((a1 - a0) / IZR (count - 1)))%R with a0 by ring. done.
  - rewrite arc_points_lookup by lia. unfold View.on_circle.
    replace (a0 + IZR (count - 1) * ((a1 - a0) / IZR (count - 1)))%R with a1
      by (field; done).
    done.
Qed.

Lemma arc_append_points_witness :
  ∃ new : list P.t,
    Polygon.arc_append (Polygon.mk "arc" 1) (P.mk 0 0 0) 1 0 1 2 Polygon.heap_init
    = (<[1%positive := [] ++ new]> Polygon.heap_init, inr ()) ∧
    Py.len new = 2 ∧
    (∀ i : Z, 0 ≤ i < 2 →
       new !! Z.to_nat i =
       Some (P.mk (0 + 1 * cos (0 + IZR i * ((1 - 0) / IZR (2 - 1))))
                  (0 + 1 * sin (0 + IZR i * ((1 - 0) / IZR (2 - 1)))) 0)) ∧
    new !! Z.to_nat 0 = Some (P.mk (0 + 1 * cos 0) (0 + 1 * sin 0) 0) ∧
    new !! Z.to_nat (2 - 1) = Some (P.mk (0 + 1 * cos 1) (0 + 1 * sin 1) 0).
Proof.
  apply (arc_append_points (Polygon.mk "arc" 1) Polygon.heap_init []
           (P.mk 0 0 0) 1 0 1 2); [lia | reflexivity].
Defined.

(** ** Slots *)

Lemma slot_center2 (center : P.t) (d angle : float) :
  View.along center d (angle + PI) = View.along center (- d) angle.
Proof.
  unfold View.along. rewrite neg_cos, neg_sin. f_equal; ring.
Qed.



(** ** Failures of the appenders *)

Lemma insert_same_contents (h : heap) (l : loc) (ps : list P.t) :
  h !! l = Some ps → <[l := ps ++ []]> h = h.
Proof. intros Hl. by rewrite app_nil_r, insert_id. Qed.




(** ** The third coordinate of the appended points *)

Lemma arc_points_z (center : P.t) (radius start_angle delta_angle : float)
    (points_count : Z) :
  Forall (λ p, P.z p = 0%R)
         (View.arc_points center radius start_angle delta_angle points_count).
Proof. unfold View.arc_points. apply Forall_fmap, Forall_true. done. Qed.

(** C10.  From a live polygon, the points that [arc_append],
    [circle_append] and [slot_append] append all have [z = 0], whatever the
    [z] of the centre or of the end points; [rotated_rectangle_append]
    appends four points whose [z] is that of [center]. *)
Theorem appended_points_z (polygon : Polygon.t) (h : heap) (ps : list P.t) :
  h !! Polygon.points polygon = Some ps →
  (∀ center radius a0 a1 count, ∃ new,
     (Polygon.arc_append polygon center radius a0 a1 count h).1
     = <[Polygon.points polygon := ps ++ new]> h ∧
     Forall (λ p, P.z p = 0%R) new) ∧
  (∀ center diameter count, ∃ new,
     (Polygon.circle_append polygon center diameter count h).1
     = <[Polygon.points polygon := ps ++ new]> h ∧
     Forall (λ p, P.z p = 0%R) new) ∧
  (∀ e1 e2 L W count, ∃ new,
     (Polygon.slot_append polygon e1 e2 L W count h).1
     = <[Polygon.points polygon := ps ++ new]> h ∧
     Forall (λ p, P.z p = 0%R) new) ∧
  (∀ center dx dy angle, ∃ new,
     Polygon.rotated_rectangle_append polygon center dx dy angle h
     = (<[Polygon.points polygon := ps ++ new]> h, inr ()) ∧
     length new = 4%nat ∧
     Forall (λ p, P.z p = P.z center) new).
Proof.
  intros Hl. split; [|split; [|split]].
  - intros center radius a0 a1 count.
    destruct (decide (count = 1)) as [->|Hn].
    + exists []. rewrite arc_append_one. simpl.
      by rewrite insert_same_contents.
    + eexists. rewrite (arc_append_ok polygon h ps) by done.
      split; [done|apply arc_points_z].
  - intros center diameter count.
    destruct (decide (count = 0)) as [->|Hn].
    + exists []. rewrite circle_append_zero. simpl.
      by rewrite insert_same_contents.
    + eexists. rewrite (circle_append_ok polygon h ps) by done.
      split; [done|]. unfold View.circle_points.
      apply Forall_fmap, Forall_true. done.
  - intros e1 e2 L W count.
    destruct (decide (count = 1)) as [->|Hn].
    + exists []. rewrite slot_append_one. simpl.
      by rewrite insert_same_contents.
    + eexists. rewrite (slot_append_ok polygon h ps) by done.
      split; [done|]. unfold View.slot_points.
      apply Forall_app; split; apply arc_points_z.
  - intros center dx dy angle. eexists.
    rewrite (rotated_rectangle_append_ok polygon h ps) by done.
    split; [done|]. split; [done|].
    unfold View.rectangle_points, View.corner.
    repeat constructor; simpl; ring.
Qed.

Lemma appended_points_z_witness :
  let polygon := Polygon.mk "shape" 1 in
  let h := Polygon.heap_init in
  (∀ center radius a0 a1 count, ∃ new,
     (Polygon.arc_append polygon center radius a0 a1 count h).1
     = <[Polygon.points polygon := [] ++ new]> h ∧
     Forall (λ p, P.z p = 0%R) new) ∧
  (∀ center diameter count, ∃ new,
     (Polygon.circle_append polygon center diameter count h).1
     = <[Polygon.points polygon := [] ++ new]> h ∧
     Forall (λ p, P.z p = 0%R) new) ∧
  (∀ e1 e2 L W count, ∃ new,
     (Polygon.slot_append polygon e1 e2 L W count h).1
     = <[Polygon.points polygon := [] ++ new]> h ∧
     Forall (λ p, P.z p = 0%R) new) ∧
  (∀ center dx dy angle, ∃ new,
     Polygon.rotated_rectangle_append polygon center dx dy angle h
     = (<[Polygon.points polygon := [] ++ new]> h, inr ()) ∧
     length new = 4%nat ∧
     Forall (λ p, P.z p = P.z center) new).
Proof.
  apply (appended_points_z (Polygon.mk "shape" 1) Polygon.heap_init []).
  reflexivity.
Defined.

(** ** Ownership of the point lists *)

Section ownership.

Import Program.

Lemma polygon_init_ok (name : string) (points : option loc) (h : heap)
    (xs : list P.t) :
  h !! default Polygon.default_points points = Some xs →
  Polygon.__init__ name points h =
  (<[fresh (dom h) := xs]> h, inr (Polygon.mk name (fresh (dom h)))).
Proof.
  intros Hl. unfold Polygon.__init__.
  erewrite bind_ok by (by apply list_get_ok). done.
Qed.

Lemma polygon_init_inv (name : string) (points : option loc) (h h' : heap)
    (polygon : Polygon.t) :
  Polygon.__init__ name points h = (h', inr polygon) →
  ∃ xs, h !! default Polygon.default_points points = Some xs ∧
        Polygon.points polygon = fresh (dom h) ∧
        h' = <[fresh (dom h) := xs]> h.
Proof.
  intros Hinit.
  destruct (h !! default Polygon.default_points points) as [xs|] eqn:Hl.
  - rewrite (polygon_init_ok _ _ _ xs) in Hinit by done.
    injection Hinit as <- <-. by exists xs.
  - unfold Polygon.__init__, mbind, M_bind, bind, list_get in Hinit.
    rewrite Hl in Hinit. done.
Qed.

Lemma fresh_not_live (h : heap) (l : loc) :
  is_Some (h !! l) → l ≠ fresh (dom h).
Proof.
  intros Hl ->. apply (is_fresh (dom h)). by apply elem_of_dom.
Qed.

Lemma run_append_frame (polygon : Polygon.t) (op : View.append_op) (h : heap)
    (l : loc) :
  l ≠ Polygon.points polygon →
  (View.run_append polygon op h).1 !! l = h !! l.
Proof.
  intros Hne. destruct (h !! Polygon.points polygon) as [ps|] eqn:Hl.
  - rewrite (run_append_ok polygon h ps) by done.
    destruct (View.divides_by_zero op); simpl; [done|].
    by rewrite lookup_insert_ne.
  - by rewrite run_append_dangling.
Qed.

Lemma run_append_live (polygon : Polygon.t) (op : View.append_op) (h : heap)
    (l : loc) :
  is_Some (h !! l) → is_Some ((View.run_append polygon op h).1 !! l).
Proof.
  intros Hl. destruct (decide (l = Polygon.points polygon)) as [->|Hne].
  - destruct Hl as [ps Hl]. rewrite (run_append_ok polygon h ps) by done.
    destruct (View.divides_by_zero op); simpl; [by eexists|].
    rewrite lookup_insert_eq. by eexists.
  - by rewrite run_append_frame.
Qed.

Lemma list_append_frame (l l' : loc) (p : P.t) (h : heap) :
  l' ≠ l → (list_append l p h).1 !! l' = h !! l'.
Proof.
  intros Hne. unfold list_append. destruct (h !! l); simpl; [|done].
  by rewrite lookup_insert_ne.
Qed.

Lemma list_append_live (l l' : loc) (p : P.t) (h : heap) :
  is_Some (h !! l') → is_Some ((list_append l p h).1 !! l').
Proof.
  intros Hl. unfold list_append. destruct (h !! l) eqn:E; simpl; [|done].
  destruct (decide (l' = l)) as [->|Hne].
  - rewrite lookup_insert_eq. by eexists.
  - by rewrite lookup_insert_ne.
Qed.

Lemma inv_init : inv init.
Proof.
  split; [done|]. split; [constructor|].
  split; intros ? Hin; by apply elem_of_nil in Hin.
Qed.

Lemma inv_step (s s' : state) : step s s' → inv s → inv s'.
Proof.
  intros Hstep (Hdef & Hnodup & Hpoly & Hlists).
  destruct Hstep as [s xs h' l Hnew|s l p Hl|s name points h' polygon Hsrc Hinit
                    |s polygon op Hin]; simpl.
  - (* a new list of the client *)
    unfold list_new in Hnew. injection Hnew as <- <-.
    set (l := fresh (dom (heap_of s))).
    assert (Hfresh : ∀ l', is_Some (heap_of s !! l') → l' ≠ l)
      by (intros l'; apply fresh_not_live).
    split; [|split; [done|split]]; simpl.
    + rewrite lookup_insert_ne; [done|]. intros Heq.
      by apply (Hfresh Polygon.default_points); [eexists|].
    + intros polygon Hin. destruct (Hpoly polygon Hin) as (Hlive & Hnd & Hnl).
      split; [|split; [done|]].
      * rewrite lookup_insert_ne; [done|]. intros Heq. by apply (Hfresh _ Hlive).
      * intros [Heq|Hin']%elem_of_cons; [by apply (Hfresh _ Hlive)|done].
    + intros l' [->|Hin]%elem_of_cons.
      * rewrite lookup_insert_eq. split; [by eexists|].
        intros Heq. apply (Hfresh Polygon.default_points); [by eexists|done].
      * destruct (Hlists l' Hin) as [Hlive Hnd]. split; [|done].
        rewrite lookup_insert_ne; [done|]. intros Heq. by apply (Hfresh _ Hlive).
  - (* the client appends to one of its lists *)
    destruct (Hlists l Hl) as [_ Hnd].
    split; [|split; [done|split]]; simpl.
    + by rewrite list_append_frame.
    + intros polygon Hin. destruct (Hpoly polygon Hin) as (Hlive & Hnd' & Hnl).
      split; [by apply list_append_live|done].
    + intros l' Hin. destruct (Hlists l' Hin) as [Hlive Hnd'].
      split; [by apply list_append_live|done].
  - (* a new polygon *)
    apply polygon_init_inv in Hinit as (xs & Hxs & Hloc & ->).
    set (l := fresh (dom (heap_of s))) in *.
    assert (Hfresh : ∀ l', is_Some (heap_of s !! l') → l' ≠ l)
      by (intros l'; apply fresh_not_live).
    split; [|split; [|split]]; simpl.
    + rewrite lookup_insert_ne; [done|]. intros Heq.
      by apply (Hfresh Polygon.default_points); [eexists|].
    + apply NoDup_cons. split; [|done].
      rewrite Hloc. intros (q & Hq & Hin)%list_elem_of_fmap.
      destruct (Hpoly q Hin) as (Hlive & _). by apply (Hfresh _ Hlive).
    + intros q [->|Hin]%elem_of_cons.
      * rewrite Hloc, lookup_insert_eq. split; [by eexists|]. split.
        -- intros Heq. apply (Hfresh Polygon.default_points); [by eexists|done].
        -- intros Hin. destruct (Hlists _ Hin) as [Hlive _].
           by apply (Hfresh _ Hlive).
      * destruct (Hpoly q Hin) as (Hlive & Hnd & Hnl). split; [|done].
        rewrite lookup_insert_ne; [done|]. intros Heq. by apply (Hfresh _ Hlive).
    + intros l' Hin. destruct (Hlists l' Hin) as [Hlive Hnd]. split; [|done].
      rewrite lookup_insert_ne; [done|]. intros Heq. by apply (Hfresh _ Hlive).
  - (* an appender *)
    destruct (Hpoly polygon Hin) as (_ & Hnd & Hnl).
    split; [|split; [done|split]]; simpl.
    + by rewrite run_append_frame.
    + intros q Hq. destruct (Hpoly q Hq) as (Hlive & Hnd' & Hnl').
      split; [by apply run_append_live|done].
    + intros l' Hl'. destruct (Hlists l' Hl') as [Hlive Hnd'].
      split; [by apply run_append_live|done].
Qed.

Lemma reachable_inv (s : state) : reachable s → inv s.
Proof.
  unfold reachable. revert s.
  apply rtc_ind_r; [apply inv_init|].
  intros s s' _ Hstep IH. by apply (inv_step s).
Qed.

End ownership.

(** C8.  In every state a program can reach: [Polygon(name, points)] puts a
    copy of the contents of its argument (of the empty default list when the
    argument is omitted) into a list object that did not exist before, so
    the new polygon shares its points with nothing; an appender applied to a
    polygon changes neither the points of another polygon, nor a list of the
    client, nor the default list, which is empty for ever; and the client
    appending to one of its lists changes the points of no polygon. *)
Theorem polygons_own_their_points (s : Program.state) :
  Program.reachable s →
  (∀ name points, Program.reachable_list s points →
     ∃ xs polygon,
       Program.heap_of s !! default Polygon.default_points points = Some xs ∧
       Program.heap_of s !! Polygon.points polygon = None ∧
       Polygon.__init__ name points (Program.heap_of s) =
       (<[Polygon.points polygon := xs]> (Program.heap_of s), inr polygon)) ∧
  (∀ (i j : nat) polygon1 polygon2 op,
     Program.polygons s !! i = Some polygon1 →
     Program.polygons s !! j = Some polygon2 →
     i ≠ j →
     (View.run_append polygon1 op (Program.heap_of s)).1 !! Polygon.points polygon2
     = Program.heap_of s !! Polygon.points polygon2) ∧
  (∀ polygon l op,
     polygon ∈ Program.polygons s →
     l ∈ Program.lists s ∨ l = Polygon.default_points →
     (View.run_append polygon op (Program.heap_of s)).1 !! l
     = Program.heap_of s !! l) ∧
  (∀ polygon l p,
     polygon ∈ Program.polygons s →
     l ∈ Program.lists s →
     (list_append l p (Program.heap_of s)).1 !! Polygon.points polygon
     = Program.heap_of s !! Polygon.points polygon) ∧
  Program.heap_of s !! Polygon.default_points = Some [].
Proof.
  intros (Hdef & Hnodup & Hpoly & Hlists)%reachable_inv.
  split; [|split; [|split; [|split; [|done]]]].
  - intros name points Hsrc.
    assert (Hlive : is_Some (Program.heap_of s !!
                               default Polygon.default_points points)).
    { destruct points as [l|]; simpl in *; [|by eexists].
      destruct Hsrc as [Hin|(q & -> & Hin)%list_elem_of_fmap].
      - by apply Hlists.
      - by apply Hpoly. }
    destruct Hlive as [xs Hxs].
    exists xs, (Polygon.mk name (fresh (dom (Program.heap_of s)))).
    split; [done|]. split; [|by apply polygon_init_ok].
    apply not_elem_of_dom, is_fresh.
  - intros i j polygon1 polygon2 op Hi Hj Hij.
    apply run_append_frame. intros Heq. apply Hij.
    eapply NoDup_lookup; [exact Hnodup| |].
    + rewrite list_lookup_fmap, Hi. done.
    + rewrite list_lookup_fmap, Hj. simpl. by rewrite Heq.
  - intros polygon l op Hin Hl.
    destruct (Hpoly polygon Hin) as (_ & Hnd & Hnl).
    apply run_append_frame. destruct Hl as [Hl| ->]; [|done].
    intros ->. done.
  - intros polygon l p Hin Hl.
    destruct (Hpoly polygon Hin) as (_ & _ & Hnl).
    apply list_append_frame. intros Heq. by rewrite Heq in Hnl.
Qed.

Lemma example_reachable : Program.reachable Program.example.
Proof.
  unfold Program.reachable.
  eapply rtc_l.
  { apply (Program.step_list_new Program.init [Program.example_point]).
    reflexivity. }
  eapply rtc_l.
  { eapply (Program.step_polygon_new _ "a" (Some 2%positive)).
    - left. simpl. apply list_elem_of_here.
    - reflexivity. }
  eapply rtc_l.
  { eapply (Program.step_polygon_new _ "b" None); [done|reflexivity]. }
  eapply rtc_l.
  { eapply (Program.step_append _ (Polygon.mk "b" 4) (View.PointAppend (P.mk 5 5 0))).
    simpl. apply list_elem_of_here. }
  eapply rtc_l.
  { eapply (Program.step_polygon_new _ "c" None); [done|reflexivity]. }
  match goal with
  | |- rtc _ ?s _ => replace s with Program.example by (vm_compute; reflexivity)
  end.
  apply rtc_refl.
Qed.

Lemma polygons_own_their_points_witness :
  let s := Program.example in
  (∀ name points, Program.reachable_list s points →
     ∃ xs polygon,
       Program.heap_of s !! default Polygon.default_points points = Some xs ∧
       Program.heap_of s !! Polygon.points polygon = None ∧
       Polygon.__init__ name points (Program.heap_of s) =
       (<[Polygon.points polygon := xs]> (Program.heap_of s), inr polygon)) ∧
  (∀ (i j : nat) polygon1 polygon2 op,
     Program.polygons s !! i = Some polygon1 →
     Program.polygons s !! j = Some polygon2 →
     i ≠ j →
     (View.run_append polygon1 op (Program.heap_of s)).1 !! Polygon.points polygon2
     = Program.heap_of s !! Polygon.points polygon2) ∧
  (∀ polygon l op,
     polygon ∈ Program.polygons s →
     l ∈ Program.lists s ∨ l = Polygon.default_points →
     (View.run_append polygon op (Program.heap_of s)).1 !! l
     = Program.heap_of s !! l) ∧
  (∀ polygon l p,
     polygon ∈ Program.polygons s →
     l ∈ Program.lists s →
     (list_append l p (Program.heap_of s)).1 !! Polygon.points polygon
     = Program.heap_of s !! Polygon.points polygon) ∧
  Program.heap_of s !! Polygon.default_points = Some [].
Proof.
  exact (polygons_own_their_points Program.example example_reachable).
Defined.

(** ** Slices *)

Section slices.

Lemma ceil_div (n d : Z) :
  0 < d → Py.ceil (IZR n / IZR d) = (n + d - 1) / d.
Proof.
  intros Hd. unfold Py.ceil. apply Zceil_eq.
  assert (Hd' : (0 < IZR d)%R) by (by apply IZR_lt).
  pose proof (Z.div_mod (n + d - 1) d ltac:(lia)) as Hdiv.
  pose proof (Z.mod_pos_bound (n + d - 1) d Hd) as Hmod.
  set (q := (n + d - 1) / d) in *. set (r := (n + d - 1) mod d) in *.
  split.
  - apply (Rmult_lt_reg_r (IZR d)); [done|].
    replace (IZR n / IZR d * IZR d)%R with (IZR n) by (field; lra).
    rewrite <- minus_IZR, <- mult_IZR. apply IZR_lt. nia.
  - apply (Rmult_le_reg_r (IZR d)); [done|].
    replace (IZR n / IZR d * IZR d)%R with (IZR n) by (field; lra).
    rewrite <- mult_IZR. apply IZR_le. nia.
Qed.

Lemma slices_count_bounds (n d k : Z) :
  0 < d → 0 ≤ n →
  (0 ≤ View.slices_count n d) ∧ n ≤ View.slices_count n d * d ∧
  (k < View.slices_count n d → k * d < n).
Proof.
  intros Hd Hn. unfold View.slices_count. rewrite ceil_div by done.
  pose proof (Z.div_mod (n + d - 1) d ltac:(lia)) as Hdiv.
  pose proof (Z.mod_pos_bound (n + d - 1) d Hd) as Hmod.
  set (q := (n + d - 1) / d) in *. set (r := (n + d - 1) mod d) in *.
  split; [nia|]. split; nia.
Qed.

Lemma slice_take_drop {A} (xs : list A) (k c : Z) :
  0 ≤ k → 0 < c →
  Py.slice xs (k * c) (Z.min ((k + 1) * c) (Py.len xs))
  = take (Z.to_nat c) (drop (Z.to_nat (k * c)) xs).
Proof.
  intros Hk Hc. unfold Py.slice, Py.len.
  destruct (Z.le_gt_cases ((k + 1) * c) (Z.of_nat (length xs))) as [Hle|Hgt].
  - rewrite Z.min_l by done. f_equal. lia.
  - rewrite Z.min_r by lia.
    rewrite !take_ge; [done| |]; rewrite length_drop; lia.
Qed.





End slices.

(** ** Rendering *)

Section rendering.

Lemma foldl_snoc {A B} (f : B → A) (ks : list B) :
  ∀ acc : list A, foldl (λ acc k, acc ++ [f k]) acc ks = acc ++ map f ks.
Proof.
  induction ks as [|k ks IH]; intros acc; simpl.
  - by rewrite app_nil_r.
  - by rewrite IH, <- app_assoc.
Qed.

Lemma foldl_snoc_nonempty {A B C} (f : B → A) (g : B → list C) (ks : list B) :
  Forall (λ k, g k ≠ []) ks →
  ∀ acc : list A,
    foldl (λ acc k, match g k with [] => acc | _ :: _ => acc ++ [f k] end) acc ks
    = acc ++ map f ks.
Proof.
  induction 1 as [|k ks Hk _ IH]; intros acc; simpl.
  - by rewrite app_nil_r.
  - destruct (g k); [done|]. by rewrite IH, <- app_assoc.
Qed.

Lemma contents_live (h : heap) (polygon : Polygon.t) (ps : list P.t) :
  h !! Polygon.points polygon = Some ps → View.contents h polygon = ps.
Proof. intros Hl. unfold View.contents. by rewrite Hl. Qed.

Lemma points_slice_nonempty (points : list P.t) (k : Z) :
  0 ≤ k < View.slices_count (Py.len points) 4 →
  Polygon.points_slice points k ≠ [].
Proof.
  intros [Hk Hlt].
  destruct (slices_count_bounds (Py.len points) 4 k) as (_ & _ & Hin);
    [lia|unfold Py.len; lia|].
  specialize (Hin Hlt). unfold Polygon.points_slice.
  rewrite slice_take_drop by lia.
  intros Hnil. apply (f_equal length) in Hnil.
  rewrite length_take, length_drop in Hnil. unfold Py.len in Hin.
  change (length (@nil P.t)) with 0%nat in Hnil. lia.
Qed.

Lemma points_scad_lines_append_ok (polygon : Polygon.t) (scad_lines : list string)
    (indent : string) (start_index : Z) (h : heap) :
  is_Some (h !! Polygon.points polygon) →
  Polygon.points_scad_lines_append polygon scad_lines indent start_index h =
  (h, inr (scad_lines ++ View.points_block h indent polygon start_index,
           start_index + Py.len (View.contents h polygon))).
Proof.
  intros [ps Hl]. unfold Polygon.points_scad_lines_append.
  erewrite bind_ok by (by apply list_get_ok).
  unfold View.points_block, View.polygon_comment.
  rewrite (contents_live h polygon ps Hl).
  rewrite foldl_snoc_nonempty.
  - by rewrite <- app_assoc.
  - apply Forall_forall. intros k Hk%elem_of_seqZ.
    apply points_slice_nonempty. unfold View.slices_count. lia.
Qed.

Lemma indices_scad_lines_append_ok (polygon : Polygon.t) (scad_lines : list string)
    (indent : string) (start_index : Z) (h : heap) :
  is_Some (h !! Polygon.points polygon) →
  Polygon.indices_scad_lines_append polygon scad_lines indent start_index h =
  (h, inr (scad_lines ++ View.indices_block h indent polygon start_index,
           start_index + Py.len (View.contents h polygon))).
Proof.
  intros [ps Hl]. unfold Polygon.indices_scad_lines_append.
  erewrite bind_ok by (by apply list_get_ok).
  unfold View.indices_block, View.polygon_comment.
  rewrite (contents_live h polygon ps Hl).
  by rewrite foldl_snoc, <- app_assoc.
Qed.

(** The loop of [ScadPolygon.scad_lines_append] over the polygons, for a body
    that appends the block [block polygon index] and advances [index] by the
    size of the polygon. *)
Lemma fold_m_blocks (h : heap)
    (body : list string * Z → Polygon.t → M (list string * Z))
    (block : Polygon.t → Z → list string) (polygons : list Polygon.t) :
  (∀ polygon scad_lines index,
     polygon ∈ polygons →
     body (scad_lines, index) polygon h =
     (h, inr (scad_lines ++ block polygon index,
              index + Py.len (View.contents h polygon)))) →
  ∀ scad_lines,
    fold_m polygons body (scad_lines, 0) h =
    (h, inr (scad_lines ++
             concat (imap (λ i polygon, block polygon (View.offset h polygons i))
                          polygons),
             View.total_size h polygons)).
Proof.
  intros Hbody.
  assert (Hgen : ∀ (rest done : list Polygon.t) scad_lines,
            polygons = done ++ rest →
            fold_m rest body (scad_lines, View.total_size h done) h =
            (h, inr (scad_lines ++
                     concat (imap (λ i polygon,
                                     block polygon
                                       (View.offset h polygons (length done + i)))
                                  rest),
                     View.total_size h polygons))).
  { induction rest as [|polygon rest IH]; intros done scad_lines Heq; simpl.
    - rewrite app_nil_r in *. by subst.
    - erewrite bind_ok; last first.
      { apply Hbody. subst. apply elem_of_app. right. apply list_elem_of_here. }
      assert (Hsize : View.total_size h done + Py.len (View.contents h polygon)
                      = View.total_size h (done ++ [polygon])).
      { unfold View.total_size. rewrite foldr_app. simpl.
        generalize (Py.len (View.contents h polygon)).
        clear. induction done as [|q done IH]; intros n; simpl; [lia|].
        rewrite <- IH. lia. }
      rewrite Hsize, (IH (done ++ [polygon])) by (by rewrite <- app_assoc).
      rewrite <- app_assoc.
      assert (Hoff : View.offset h polygons (length done + 0)
                     = View.total_size h done).
      { unfold View.offset. by rewrite Nat.add_0_r, Heq, take_app_length. }
      rewrite Hoff.
      assert (Hext : ∀ (i : nat) (q : Polygon.t),
                block q (View.offset h polygons (length (done ++ [polygon]) + i))
                = block q (View.offset h polygons (length done + S i))).
      { intros i q. rewrite length_app. simpl. do 2 f_equal. lia. }
      rewrite (imap_ext
                 (λ i q, block q (View.offset h polygons
                                    (length (done ++ [polygon]) + i)))
                 ((λ i q, block q (View.offset h polygons (length done + i))) ∘ S)
                 rest); [done|].
      intros i q _. apply Hext. }
  intros scad_lines. exact (Hgen polygons [] scad_lines eq_refl).
Qed.

Lemma scad_lines_append_ok (scad_polygon : ScadPolygon.t)
    (scad_lines : list string) (indent : string) (h : heap) :
  View.live h (ScadPolygon.polygons scad_polygon) →
  ScadPolygon.scad_lines_append scad_polygon scad_lines indent h =
  (h, inr (scad_lines ++ View.render h scad_polygon indent)).
Proof.
  intros Hlive. unfold ScadPolygon.scad_lines_append.
  pose proof (proj1 (Forall_forall _ _) Hlive) as Hall.
  erewrite bind_ok; last first.
  { apply (fold_m_blocks h _ (View.points_block h (indent +:+ " "))).
    intros polygon lines index Hin.
    by apply points_scad_lines_append_ok, Hall. }
  simpl.
  erewrite bind_ok; last first.
  { apply (fold_m_blocks h _ (View.indices_block h (indent +:+ " "))).
    intros polygon lines index Hin.
    by apply indices_scad_lines_append_ok, Hall. }
  simpl. unfold View.render, View.first_lines, View.paths_line, View.last_line,
    View.convexity_text, View.end_comment.
  unfold mret, M_ret, ret. do 2 f_equal.
  rewrite <- !app_assoc. reflexivity.
Qed.

End rendering.

(** ** Offsets and paths *)

Section paths.

Context (h : heap).






End paths.


Lemma example_live :
  View.live (Program.heap_of Program.example) Program.example_polygons.
Proof. repeat (constructor; [by eexists|]). constructor. Qed.


(** ** The convexity parameter *)

Lemma app_last_assoc {A} (a b c d e : list A) :
  a ++ b ++ c ++ d ++ e = (a ++ b ++ c ++ d) ++ e.
Proof. by rewrite <- !app_assoc. Qed.

(** C4, as the code has it.  The last line of the rendering is [indent],
    [" ]"], the convexity text and the closing comment; the convexity text is
    [", convexity=N"] exactly when the set holds a convexity [N >= 0], zero
    included, and is empty exactly when the convexity is negative, as the
    default [-1] is. *)
Theorem convexity_parameter (h : heap) (scad_polygon : ScadPolygon.t)
    (scad_lines : list string) (indent : string) :
  let convexity := ScadPolygon.convexity scad_polygon in
  View.live h (ScadPolygon.polygons scad_polygon) →
  (∃ lines,
     ScadPolygon.scad_lines_append scad_polygon scad_lines indent h
     = (h, inr (scad_lines ++ lines ++
                [indent +:+ " ]" +:+ View.convexity_text convexity +:+
                 View.end_comment scad_polygon]))) ∧
  (0 ≤ convexity →
     View.convexity_text convexity = ", convexity=" +:+ Py.str convexity) ∧
  (convexity < 0 → View.convexity_text convexity = "") ∧
  (View.convexity_text convexity = "" ↔ convexity < 0) ∧
  (∀ name polygons,
     ScadPolygon.convexity (ScadPolygon.__init__ name polygons None) = -1).
Proof.
  intros convexity Hlive. split; [|split; [|split; [|split; [|done]]]].
  - eexists. rewrite scad_lines_append_ok by done. unfold View.render.
    do 3 f_equal. apply app_last_assoc.
  - intros Hc. unfold View.convexity_text.
    by destruct (Z.ltb_spec convexity 0); [lia|].
  - intros Hc. unfold View.convexity_text.
    by destruct (Z.ltb_spec convexity 0); [|lia].
  - unfold View.convexity_text.
    destruct (Z.ltb_spec convexity 0); [done|]. split; [done|lia].
Qed.

Lemma convexity_parameter_witness :
  let h := Program.heap_of Program.example in
  let scad_polygon :=
    ScadPolygon.__init__ "demo" Program.example_polygons (Some 3) in
  let convexity := ScadPolygon.convexity scad_polygon in
  (∃ lines,
     ScadPolygon.scad_lines_append scad_polygon [] "" h
     = (h, inr ([] ++ lines ++
                ["" +:+ " ]" +:+ View.convexity_text convexity +:+
                 View.end_comment scad_polygon]))) ∧
  (0 ≤ convexity →
     View.convexity_text convexity = ", convexity=" +:+ Py.str convexity) ∧
  (convexity < 0 → View.convexity_text convexity = "") ∧
  (View.convexity_text convexity = "" ↔ convexity < 0) ∧
  (∀ name polygons,
     ScadPolygon.convexity (ScadPolygon.__init__ name polygons None) = -1).
Proof.
  exact (convexity_parameter (Program.heap_of Program.example)
           (ScadPolygon.__init__ "demo" Program.example_polygons (Some 3)) [] ""
           example_live).
Defined.

(** With the convexity [0], which is not positive, the rendering carries the
    parameter [convexity=0]. *)
Lemma convexity_zero_is_rendered :
  ScadPolygon.scad_lines_append (ScadPolygon.__init__ "demo" [] (Some 0)) [] ""
                                Polygon.heap_init
  = (Polygon.heap_init,
     inr [ "// ScadPolygon 'demo [0--1]'";
           "polygon(points = [";
           " ], paths = [";
           " ], convexity=0); // End ScadPolygon 'demo' [0--1]" ]).
Proof. vm_compute. reflexivity. Qed.

(** ** Rendering reads the heap and changes nothing *)

Section read_only.

Lemma read_only_ret {A} (a : A) : View.read_only (mret a : M A).
Proof. by intros h. Qed.

Lemma read_only_bind {A B} (m : M A) (k : A → M B) :
  View.read_only m → (∀ a, View.read_only (k a)) → View.read_only (m ≫= k).
Proof.
  intros Hm Hk h. unfold mbind, M_bind, bind.
  specialize (Hm h). destruct (m h) as [h' [e|a]]; simpl in *; subst h'; [done|].
  apply Hk.
Qed.

Lemma read_only_list_get (l : loc) : View.read_only (list_get l).
Proof. intros h. unfold list_get. by destruct (h !! l). Qed.

Lemma read_only_assert (c : bool) : View.read_only (assert c).
Proof. intros h. by destruct c. Qed.

Lemma read_only_fold_m {A S} (xs : list A) (body : S → A → M S) :
  (∀ s a, View.read_only (body s a)) → ∀ s, View.read_only (fold_m xs body s).
Proof.
  intros Hbody. induction xs as [|a xs IH]; intros s; simpl.
  - by intros h.
  - apply (read_only_bind (body s a)); [apply Hbody|apply IH].
Qed.

Lemma read_only_points (polygon : Polygon.t) (scad_lines : list string)
    (indent : string) (start_index : Z) :
  View.read_only
    (Polygon.points_scad_lines_append polygon scad_lines indent start_index).
Proof.
  apply (read_only_bind (list_get _)); [apply read_only_list_get|].
  intros points. apply read_only_ret.
Qed.

Lemma read_only_indices (polygon : Polygon.t) (scad_lines : list string)
    (indent : string) (start_index : Z) :
  View.read_only
    (Polygon.indices_scad_lines_append polygon scad_lines indent start_index).
Proof.
  apply (read_only_bind (list_get _)); [apply read_only_list_get|].
  intros points. apply read_only_ret.
Qed.

Lemma read_only_scad_lines_append (scad_polygon : ScadPolygon.t)
    (scad_lines : list string) (indent : string) :
  View.read_only (ScadPolygon.scad_lines_append scad_polygon scad_lines indent).
Proof.
  unfold ScadPolygon.scad_lines_append.
  apply (read_only_bind (fold_m _ _ _)).
  { apply read_only_fold_m. intros [lines index] polygon. apply read_only_points. }
  intros [lines index].
  apply (read_only_bind (fold_m _ _ _)).
  { apply read_only_fold_m. intros [lines' index'] polygon. apply read_only_indices. }
  intros [lines' index']. apply read_only_ret.
Qed.

Lemma read_only_file_write (scad : ScadPolygon.t) (writable : bool) :
  View.read_only (Scad.file_write scad writable).
Proof.
  unfold Scad.file_write.
  apply (read_only_bind (ScadPolygon.scad_lines_append _ _ _));
    [apply read_only_scad_lines_append|].
  intros lines. apply (read_only_bind (assert _)); [apply read_only_assert|].
  intros []. apply read_only_ret.
Qed.

Lemma file_write_ok (scad : ScadPolygon.t) (h : heap) :
  View.live h (ScadPolygon.polygons scad) →
  Scad.file_write scad true h =
  (h, inr (Py.join Scad.newline
             (["// '" +:+ ScadPolygon.name scad +:+ "' File"] ++
              View.render h scad "" ++ [""]))).
Proof.
  intros Hlive. unfold Scad.file_write.
  erewrite bind_ok by (by apply scad_lines_append_ok).
  simpl. by rewrite <- app_assoc.
Qed.

End read_only.

(** C6.  A rendering leaves the heap, and so the set and its polygons, as it
    found them; a second rendering of the same set therefore ends as the
    first one did.  When the polygons are live the first rendering appends
    lines that the second one appends again, and [file_write] produces the
    same text twice. *)
Theorem render_twice (h : heap) (scad_polygon : ScadPolygon.t)
    (scad_lines1 scad_lines2 : list string) (indent : string) (writable : bool) :
  let h1 := (ScadPolygon.scad_lines_append scad_polygon scad_lines1 indent h).1 in
  let h2 := (Scad.file_write scad_polygon writable h).1 in
  h1 = h ∧ h2 = h ∧
  Scad.file_write scad_polygon writable h2
  = Scad.file_write scad_polygon writable h ∧
  (View.live h (ScadPolygon.polygons scad_polygon) →
   ∃ (lines : list string) (text : string),
     ScadPolygon.scad_lines_append scad_polygon scad_lines1 indent h
     = (h, inr (scad_lines1 ++ lines)) ∧
     ScadPolygon.scad_lines_append scad_polygon scad_lines2 indent h1
     = (h, inr (scad_lines2 ++ lines)) ∧
     Scad.file_write scad_polygon true h = (h, inr text) ∧
     Scad.file_write scad_polygon true (Scad.file_write scad_polygon true h).1
     = (h, inr text)).
Proof.
  intros h1 h2.
  assert (H1 : h1 = h) by apply read_only_scad_lines_append.
  assert (H2 : h2 = h) by apply read_only_file_write.
  split; [done|]. split; [done|]. split; [by rewrite H2|].
  intros Hlive. eexists _, _. rewrite H1.
  rewrite !scad_lines_append_ok, !file_write_ok by done. simpl.
  rewrite ?file_write_ok by done. done.
Qed.

Lemma render_twice_witness :
  let h := Program.heap_of Program.example in
  let scad_polygon := ScadPolygon.__init__ "demo" Program.example_polygons None in
  ∃ (lines : list string) (text : string),
    ScadPolygon.scad_lines_append scad_polygon [] "" h = (h, inr ([] ++ lines)) ∧
    ScadPolygon.scad_lines_append scad_polygon [""] ""
      (ScadPolygon.scad_lines_append scad_polygon [] "" h).1
    = (h, inr ([""] ++ lines)) ∧
    Scad.file_write scad_polygon true h = (h, inr text) ∧
    Scad.file_write scad_polygon true (Scad.file_write scad_polygon true h).1
    = (h, inr text).
Proof.
  exact (proj2 (proj2 (proj2
           (render_twice (Program.heap_of Program.example)
              (ScadPolygon.__init__ "demo" Program.example_polygons None)
              [] [""] "" true))) example_live).
Defined.

(** ** Polygons are rendered as they are when the rendering runs *)



(** ** Formatting of the coordinates *)

Section formatting.












End formatting.


(** ** Further properties of the tessellation and of the rendering *)

Lemma round_half_even_IZR (m : Z) : Py.round_half_even (IZR m) = m.
Proof.
  unfold Py.round_half_even. rewrite ZfloorZ.
  destruct (Rlt_dec _ _) as [|Hn]; [done|]. lra.
Qed.

Lemma format_3f_milli (k : Z) :
  Py.format_3f (IZR k / 1000)
  = (if k <? 0 then "-" else "") +:+ Py.str (Z.abs k / 1000) +:+ "." +:+
    Py.frac3 (Z.abs k mod 1000).
Proof.
  unfold Py.format_3f.
  replace (Rabs (IZR k / 1000) * 1000)%R with (IZR (Z.abs k)).
  2:{ rewrite abs_IZR. unfold Rdiv. rewrite Rabs_mult.
      rewrite (Rabs_right (/ 1000)) by lra. field. }
  rewrite round_half_even_IZR.
  destruct (Z.ltb_spec k 0) as [Hk|Hk]; destruct (Rlt_dec _ _) as [Hr|Hr];
    try reflexivity; exfalso.
  - apply Hr. apply IZR_lt in Hk. lra.
  - apply IZR_le in Hk. lra.
Qed.

Lemma format_3f_5 : Py.format_3f 5 = "5.000".
Proof.
  replace 5%R with (IZR 5000 / 1000)%R by lra.
  rewrite format_3f_milli. vm_compute. reflexivity.
Qed.

Lemma format_3f_minus_5 : Py.format_3f (-5) = "-5.000".
Proof.
  replace (-5)%R with (IZR (-5000) / 1000)%R by lra.
  rewrite format_3f_milli. vm_compute. reflexivity.
Qed.

Lemma square_points :
  View.rectangle_points (P.mk 0 0 0) 10 10 0
  = [P.mk 5 5 0; P.mk 5 (-5) 0; P.mk (-5) (-5) 0; P.mk (-5) 5 0].
Proof.
  unfold View.rectangle_points, View.corner, P.__add__, P.rotate2d.
  cbn [P.x P.y P.z]. rewrite cos_0, sin_0.
  repeat (f_equal; try lra).
Qed.

Lemma point_text_5 (sx sy : bool) :
  Polygon.point_text (P.mk (if sx then 5 else -5) (if sy then 5 else -5) 0)
  = "[" +:+ (if sx then "5.000" else "-5.000") +:+ ", " +:+
    (if sy then "5.000" else "-5.000") +:+ "]".
Proof.
  unfold Polygon.point_text. cbn [P.x P.y].
  destruct sx, sy; rewrite ?format_3f_5, ?format_3f_minus_5; reflexivity.
Qed.

(** Example.  The scenario of the square: the rendering of the set [demo] prints
    the four corners [5.000, 5.000], [5.000, -5.000], [-5.000, -5.000],
    [-5.000, 5.000] and the single path [0, 1, 2, 3]. *)
Theorem demo_renders :
  (Program.demo Polygon.heap_init).2 =
  inr [ "// ScadPolygon 'demo [0-0]'";
        "polygon(points = [";
        "  // Polygon 'square' 0:3";
        "   [5.000, 5.000], [5.000, -5.000], [-5.000, -5.000], [-5.000, 5.000], // 0:3";
        " ], paths = [";
        "  // Polygon 'square' 0:3";
        "   [0, 1, 2, 3],";
        " ]); // End ScadPolygon 'demo' [0-0]" ].
Proof.
  unfold Program.demo.
  erewrite bind_ok by (by apply (polygon_init_ok "square" None _ [])).
  change (fresh (dom Polygon.heap_init)) with 2%positive.
  set (square := Polygon.mk "square" 2).
  erewrite bind_ok; last first.
  { apply (rotated_rectangle_append_ok square _ []). reflexivity. }
  rewrite square_points. simpl app.
  set (h := <[Polygon.points square := _]> _).
  assert (Hl : h !! Polygon.points square
               = Some [P.mk 5 5 0; P.mk 5 (-5) 0; P.mk (-5) (-5) 0; P.mk (-5) 5 0])
    by apply lookup_insert_eq.
  rewrite scad_lines_append_ok by (constructor; [by eexists|constructor]).
  unfold View.render, View.points_block, View.indices_block, View.polygon_comment,
    View.offset.
  cbn [ScadPolygon.polygons ScadPolygon.__init__ imap concat take].
  rewrite (contents_live h square _ Hl).
  unfold View.slices_count. rewrite !ceil_div by lia.
  unfold Polygon.points_line.
  change (Py.range ((Py.len [P.mk 5 5 0; P.mk 5 (-5) 0; P.mk (-5) (-5) 0;
                             P.mk (-5) 5 0] + 4 - 1) / 4)) with [0].
  cbn [map].
  change (Polygon.points_slice _ 0)
    with [P.mk 5 5 0; P.mk 5 (-5) 0; P.mk (-5) (-5) 0; P.mk (-5) 5 0].
  cbn [map].
  rewrite (point_text_5 true true), (point_text_5 true false),
    (point_text_5 false false), (point_text_5 false true).
  vm_compute. reflexivity.
Qed.

(** X1.  For every [count >= 1], [circle_append] returns normally and appends
    exactly [count] points; the point of index [i] is at the angle
    [i * 2 PI / count] on the circle of radius [diameter / 2] around
    [(center.x, center.y)], the first one is [(center.x + diameter / 2,
    center.y)], and nothing closes the loop. *)
Theorem circle_append_points (polygon : Polygon.t) (h : heap) (ps : list P.t)
    (center : P.t) (diameter : float) (count : Z) :
  1 ≤ count →
  h !! Polygon.points polygon = Some ps →
  ∃ new : list P.t,
    Polygon.circle_append polygon center diameter count h
    = (<[Polygon.points polygon := ps ++ new]> h, inr ()) ∧
    Py.len new = count ∧
    (∀ i : Z, 0 ≤ i < count →
       new !! Z.to_nat i =
       Some (P.mk (P.x center + diameter / 2 * cos (IZR i * (2 * PI / IZR count)))
                  (P.y center + diameter / 2 * sin (IZR i * (2 * PI / IZR count)))
                  0)) ∧
    new !! 0%nat = Some (P.mk (P.x center + diameter / 2) (P.y center) 0) ∧
    Forall (λ p, ((P.x p - P.x center) * (P.x p - P.x center) +
                  (P.y p - P.y center) * (P.y p - P.y center)
                  = diameter / 2 * (diameter / 2))%R) new.
Proof.
  intros Hn Hl. exists (View.circle_points center diameter count).
  assert (Hlookup : ∀ i : Z, 0 ≤ i < count →
            View.circle_points center diameter count !! Z.to_nat i =
            Some (View.on_circle center (diameter / 2)
                    (IZR i * (2 * PI / IZR count)))).
  { intros i Hi. unfold View.circle_points, Py.range.
    rewrite list_lookup_fmap, lookup_seqZ_lt by lia. simpl.
    by rewrite Z2Nat.id by lia. }
  split; [apply circle_append_ok; [lia|done]|].
  split.
  { unfold Py.len, View.circle_points, Py.range.
    rewrite length_map, length_seqZ. lia. }
  split; [exact Hlookup|]. split.
  - rewrite (Hlookup 0 ltac:(lia) : _ !! 0%nat = _). unfold View.on_circle.
    rewrite Rmult_0_l, cos_0, sin_0. do 2 f_equal; ring.
  - unfold View.circle_points. apply Forall_fmap, Forall_true. intros i.
    unfold View.on_circle. cbn [P.x P.y compose].
    set (a := (IZR i * (2 * PI / IZR count))%R).
    pose proof (sin2_cos2 a) as Hsc. unfold Rsqr in Hsc.
    replace (P.x center + diameter / 2 * cos a - P.x center)%R
      with (diameter / 2 * cos a)%R by ring.
    replace (P.y center + diameter / 2 * sin a - P.y center)%R
      with (diameter / 2 * sin a)%R by ring.
    transitivity (diameter / 2 * (diameter / 2)
                  * (sin a * sin a + cos a * cos a))%R; [ring|].
    rewrite Hsc. ring.
Qed.

Lemma circle_append_points_witness :
  ∃ new : list P.t,
    Polygon.circle_append (Polygon.mk "hole" 1) (P.mk 1 2 3) 4 8 Polygon.heap_init
    = (<[1%positive := [] ++ new]> Polygon.heap_init, inr ()) ∧
    Py.len new = 8 ∧
    (∀ i : Z, 0 ≤ i < 8 →
       new !! Z.to_nat i =
       Some (P.mk (1 + 4 / 2 * cos (IZR i * (2 * PI / IZR 8)))
                  (2 + 4 / 2 * sin (IZR i * (2 * PI / IZR 8))) 0)) ∧
    new !! 0%nat = Some (P.mk (1 + 4 / 2) 2 0) ∧
    Forall (λ p, ((P.x p - 1) * (P.x p - 1) + (P.y p - 2) * (P.y p - 2)
                  = 4 / 2 * (4 / 2))%R) new.
Proof.
  refine (circle_append_points (Polygon.mk "hole" 1) Polygon.heap_init []
            (P.mk 1 2 3) 4 8 _ eq_refl).
  lia.
Defined.

(** X2.  From a live polygon [rotated_rectangle_append] returns normally and
    appends exactly four points: the corners [(dx/2, dy/2)], [(dx/2, -dy/2)],
    [(-dx/2, -dy/2)], [(-dx/2, dy/2)] of the rectangle around the origin,
    each rotated by [angle] and moved by [center].  With the angle [0] they
    are the corners of the rectangle around [center], and two opposite
    corners are [sqrt (dx^2 + dy^2)] apart. *)
Theorem rotated_rectangle_append_points (polygon : Polygon.t) (h : heap)
    (ps : list P.t) (center : P.t) (dx dy angle : float) :
  let corner (cx cy : float) :=
    P.mk (P.x center + (cx * cos angle - cy * sin angle))
         (P.y center + (cy * cos angle + cx * sin angle))
         (P.z center + 0) in
  let flat (cx cy : float) :=
    P.mk (P.x center + cx) (P.y center + cy) (P.z center) in
  h !! Polygon.points polygon = Some ps →
  Polygon.rotated_rectangle_append polygon center dx dy angle h
  = (<[Polygon.points polygon :=
         ps ++ [ corner (dx / 2)%R (dy / 2)%R;
                 corner (dx / 2)%R (- (dy / 2))%R;
                 corner (- (dx / 2))%R (- (dy / 2))%R;
                 corner (- (dx / 2))%R (dy / 2)%R ]]> h,
     inr ()) ∧
  (angle = 0%R →
   [ corner (dx / 2)%R (dy / 2)%R; corner (dx / 2)%R (- (dy / 2))%R;
     corner (- (dx / 2))%R (- (dy / 2))%R; corner (- (dx / 2))%R (dy / 2)%R ]
   = [ flat (dx / 2)%R (dy / 2)%R; flat (dx / 2)%R (- (dy / 2))%R;
       flat (- (dx / 2))%R (- (dy / 2))%R; flat (- (dx / 2))%R (dy / 2)%R ]) ∧
  P.distance (flat (dx / 2)%R (dy / 2)%R) (flat (- (dx / 2))%R (- (dy / 2))%R)
  = sqrt (dx * dx + dy * dy)%R.
Proof.
  intros corner flat Hl. split; [|split].
  - rewrite (rotated_rectangle_append_ok polygon h ps) by done. done.
  - intros ->. unfold corner, flat. rewrite cos_0, sin_0.
    repeat (f_equal; try ring).
  - unfold P.distance, flat. cbn [P.x P.y P.z]. f_equal. field.
Qed.

Lemma rotated_rectangle_append_points_witness :
  let center := P.mk 1 2 3 in
  let corner (cx cy : float) :=
    P.mk (P.x center + (cx * cos 0 - cy * sin 0))
         (P.y center + (cy * cos 0 + cx * sin 0))
         (P.z center + 0) in
  let flat (cx cy : float) :=
    P.mk (P.x center + cx) (P.y center + cy) (P.z center) in
  Polygon.rotated_rectangle_append (Polygon.mk "square" 1) center 10 6 0
                                   Polygon.heap_init
  = (<[1%positive :=
         [] ++ [ corner (10 / 2)%R (6 / 2)%R;
                 corner (10 / 2)%R (- (6 / 2))%R;
                 corner (- (10 / 2))%R (- (6 / 2))%R;
                 corner (- (10 / 2))%R (6 / 2)%R ]]>
       Polygon.heap_init,
     inr ()) ∧
  (0%R = 0%R →
   [ corner (10 / 2)%R (6 / 2)%R; corner (10 / 2)%R (- (6 / 2))%R;
     corner (- (10 / 2))%R (- (6 / 2))%R; corner (- (10 / 2))%R (6 / 2)%R ]
   = [ flat (10 / 2)%R (6 / 2)%R; flat (10 / 2)%R (- (6 / 2))%R;
       flat (- (10 / 2))%R (- (6 / 2))%R; flat (- (10 / 2))%R (6 / 2)%R ]) ∧
  P.distance (flat (10 / 2)%R (6 / 2)%R) (flat (- (10 / 2))%R (- (6 / 2))%R)
  = sqrt (10 * 10 + 6 * 6)%R.
Proof.
  exact (rotated_rectangle_append_points (Polygon.mk "square" 1)
           Polygon.heap_init [] (P.mk 1 2 3) 10 6 0 eq_refl).
Defined.

(** X3.  [polygon[index]] returns the point of that index when
    [0 <= index < len(polygon)] and fails on the [assert] otherwise; neither
    changes the heap. *)
Theorem polygon_getitem (polygon : Polygon.t) (h : heap) (ps : list P.t)
    (index : Z) :
  h !! Polygon.points polygon = Some ps →
  Polygon.__len__ polygon h = (h, inr (Py.len ps)) ∧
  (0 ≤ index < Py.len ps →
   ∃ point, ps !! Z.to_nat index = Some point ∧
            Polygon.__getitem__ polygon index h = (h, inr point)) ∧
  (¬ (0 ≤ index < Py.len ps) →
   Polygon.__getitem__ polygon index h = (h, inl Py.AssertionError)).
Proof.
  intros Hl. unfold Polygon.__len__, Polygon.__getitem__.
  erewrite !bind_ok by (by apply list_get_ok).
  split; [done|]. split.
  - intros Hi. destruct (lookup_lt_is_Some_2 ps (Z.to_nat index)) as [point Hp];
      [unfold Py.len in Hi; lia|].
    exists point. split; [done|].
    replace ((0 <=? index) && (index <? Py.len ps)) with true
      by (symmetry; apply andb_true_iff; split;
          [apply Z.leb_le|apply Z.ltb_lt]; lia).
    simpl. unfold mbind, M_bind, bind. simpl. by rewrite Hp.
  - intros Hi.
    replace ((0 <=? index) && (index <? Py.len ps)) with false; [done|].
    symmetry. apply andb_false_iff.
    destruct (Z.leb_spec 0 index); [|by left].
    right. apply Z.ltb_ge. lia.
Qed.

Lemma polygon_getitem_witness :
  let h := Program.heap_of Program.example in
  let polygon := Polygon.mk "b" 4 in
  Polygon.__len__ polygon h = (h, inr (Py.len [P.mk 5 5 0])) ∧
  (0 ≤ 0 < Py.len [P.mk 5 5 0] →
   ∃ point, [P.mk 5 5 0] !! Z.to_nat 0 = Some point ∧
            Polygon.__getitem__ polygon 0 h = (h, inr point)) ∧
  (¬ (0 ≤ 0 < Py.len [P.mk 5 5 0]) →
   Polygon.__getitem__ polygon 0 h = (h, inl Py.AssertionError)).
Proof.
  exact (polygon_getitem (Polygon.mk "b" 4) (Program.heap_of Program.example)
           [P.mk 5 5 0] 0 eq_refl).
Defined.

(** ** Points as vectors *)

Section points.

Implicit Types p q t : P.t.

Lemma P_eta p : P.mk (P.x p) (P.y p) (P.z p) = p.
Proof. by destruct p. Qed.

Lemma P_ext p q : P.x p = P.x q → P.y p = P.y q → P.z p = P.z q → p = q.
Proof. destruct p, q. simpl. by intros -> -> ->. Qed.

(** X4.  Points behave as vectors: subtraction undoes addition, addition
    commutes, [point * scale] computes what [scale * point] does, and the
    division by a non-zero scale undoes the multiplication by it, in both
    orders, while the division by zero fails and yields no point. *)
Theorem P_arithmetic p q (scale : float) :
  scale ≠ 0%R →
  P.__sub__ (P.__add__ p q) q = p ∧
  P.__add__ (P.__sub__ p q) q = p ∧
  P.__add__ p q = P.__add__ q p ∧
  P.__mul__ p scale = P.__rmul__ p scale ∧
  P.__truediv__ (P.__mul__ p scale) scale = Some p ∧
  (∃ t, P.__truediv__ p scale = Some t ∧ P.__mul__ t scale = p) ∧
  P.__truediv__ p 0 = None.
Proof.
  intros Hs. unfold P.__truediv__.
  destruct (Req_dec_T scale 0) as [|_]; [done|].
  destruct (Req_dec_T 0 0) as [_|Hn]; [|done].
  split; [apply P_ext; simpl; ring|].
  split; [apply P_ext; simpl; ring|].
  split; [apply P_ext; simpl; ring|].
  split; [done|].
  split; [|split; [eexists; split; [done|]|done]].
  - f_equal. apply P_ext; simpl; field; done.
  - apply P_ext; simpl; field; done.
Qed.

Lemma P_arithmetic_witness :
  let p := P.mk 1 2 3 in
  let q := P.mk 4 5 6 in
  P.__sub__ (P.__add__ p q) q = p ∧
  P.__add__ (P.__sub__ p q) q = p ∧
  P.__add__ p q = P.__add__ q p ∧
  P.__mul__ p 2 = P.__rmul__ p 2 ∧
  P.__truediv__ (P.__mul__ p 2) 2 = Some p ∧
  (∃ t, P.__truediv__ p 2 = Some t ∧ P.__mul__ t 2 = p) ∧
  P.__truediv__ p 0 = None.
Proof.
  refine (P_arithmetic (P.mk 1 2 3) (P.mk 4 5 6) 2 _). lra.
Defined.

(** X5.  [rotate2d] turns the [x] and [y] of a point about the origin: two
    rotations compose into the rotation by the sum of the angles, the planar
    distance to the origin is kept, and the rotation by [0] keeps [x] and
    [y].  The result always has [z = 0]: the [z] of the point is dropped, so
    that even the rotation by [0] changes a point whose [z] is not [0]. *)
Theorem rotate2d_rotation p (a b : float) :
  P.rotate2d (P.rotate2d p a) b = P.rotate2d p (a + b) ∧
  (P.x (P.rotate2d p a) * P.x (P.rotate2d p a) +
   P.y (P.rotate2d p a) * P.y (P.rotate2d p a)
   = P.x p * P.x p + P.y p * P.y p)%R ∧
  P.rotate2d p 0 = P.mk (P.x p) (P.y p) 0 ∧
  P.z (P.rotate2d p a) = 0%R ∧
  (P.rotate2d p 0 = p ↔ P.z p = 0%R).
Proof.
  split; [|split; [|split; [|split]]].
  - apply P_ext; simpl; rewrite ?cos_plus, ?sin_plus; ring.
  - simpl. pose proof (sin2_cos2 a) as Hsc. unfold Rsqr in Hsc.
    transitivity ((P.x p * P.x p + P.y p * P.y p)
                  * (sin a * sin a + cos a * cos a))%R; [ring|].
    rewrite Hsc. ring.
  - unfold P.rotate2d. rewrite cos_0, sin_0. f_equal; ring.
  - done.
  - unfold P.rotate2d. rewrite cos_0, sin_0. split.
    + intros Heq. apply (f_equal P.z) in Heq. simpl in Heq. done.
    + intros Hz. apply P_ext; simpl; [ring|ring|done].
Qed.

Lemma sum_squares_zero (a b c : float) :
  (a * a + b * b + c * c = 0 → a = 0 ∧ b = 0 ∧ c = 0)%R.
Proof.
  intros H. pose proof (Rle_0_sqr a) as Ha. pose proof (Rle_0_sqr b) as Hb.
  pose proof (Rle_0_sqr c) as Hc. unfold Rsqr in *.
  assert (Ha0 : (a * a = 0)%R) by lra.
  assert (Hb0 : (b * b = 0)%R) by lra.
  assert (Hc0 : (c * c = 0)%R) by lra.
  apply Rmult_integral in Ha0, Hb0, Hc0. lra.
Qed.

(** X6.  [distance] is the Euclidean distance in three dimensions: it is
    symmetric and never negative, it is [0] exactly between a point and
    itself, it does not change when both points are moved by the same vector
    or mirrored by [y_mirror], and scaling both points by [k] scales it by
    [|k|].  [y_mirror] negates [x] and [z], and mirroring twice gives the
    point back. *)
Theorem distance_metric p q t (k : float) :
  P.distance p q = P.distance q p ∧
  (0 <= P.distance p q)%R ∧
  (P.distance p q = 0%R ↔ p = q) ∧
  P.distance (P.__add__ p t) (P.__add__ q t) = P.distance p q ∧
  P.distance (P.__mul__ p k) (P.__mul__ q k) = (Rabs k * P.distance p q)%R ∧
  (P.distance p q * P.distance p q
   = (P.x p - P.x q) * (P.x p - P.x q) + (P.y p - P.y q) * (P.y p - P.y q)
     + (P.z p - P.z q) * (P.z p - P.z q))%R ∧
  P.distance (P.y_mirror p) (P.y_mirror q) = P.distance p q ∧
  P.y_mirror (P.y_mirror p) = p.
Proof.
  assert (Hpos : ∀ a b c : R, (0 <= a * a + b * b + c * c)%R).
  { intros a b c. pose proof (Rle_0_sqr a). pose proof (Rle_0_sqr b).
    pose proof (Rle_0_sqr c). unfold Rsqr in *. lra. }
  unfold P.distance.
  split; [|split; [|split; [|split; [|split; [|split; [|split]]]]]].
  - f_equal. ring.
  - apply sqrt_pos.
  - split.
    + intros H0. apply sqrt_eq_0 in H0; [|apply Hpos].
      apply sum_squares_zero in H0 as (Hx & Hy & Hz).
      apply P_ext; lra.
    + intros ->. replace (_ + _)%R with 0%R by ring. apply sqrt_0.
  - simpl. f_equal. ring.
  - simpl. rewrite <- sqrt_Rsqr_abs, <- sqrt_mult; [|apply Rle_0_sqr|apply Hpos].
    f_equal. unfold Rsqr. ring.
  - rewrite sqrt_sqrt; [done|apply Hpos].
  - simpl. f_equal. ring.
  - apply P_ext; simpl; ring.
Qed.

End points.

(** ** How the appenders grow a polygon *)

Section growth.

Context (polygon : Polygon.t).

Lemma range_length (n : Z) : Py.len (Py.range n) = Z.max 0 n.
Proof. unfold Py.len, Py.range. rewrite length_seqZ. lia. Qed.

Lemma appended_length (op : View.append_op) :
  Py.len (View.appended op) = Derived.appended_count op.
Proof.
  destruct op as [point|c r a0 a1 n|c d n|c dx dy a|e1 e2 sl sw n]; simpl.
  - done.
  - unfold View.arc_points, Py.len. rewrite length_map. apply range_length.
  - unfold View.circle_points, Py.len. rewrite length_map. apply range_length.
  - done.
  - unfold View.slot_points, View.arc_points, Py.len.
    rewrite length_app, !length_map.
    pose proof (range_length n) as Hr. unfold Py.len in Hr. lia.
Qed.

Lemma len_ok (h : heap) (ps : list P.t) :
  h !! Polygon.points polygon = Some ps →
  Polygon.__len__ polygon h = (h, inr (Py.len ps)).
Proof.
  intros Hl. unfold Polygon.__len__.
  by erewrite bind_ok by (by apply list_get_ok).
Qed.

Lemma getitem_ok (h : heap) (ps : list P.t) (i : nat) (point : P.t) :
  h !! Polygon.points polygon = Some ps →
  ps !! i = Some point →
  Polygon.__getitem__ polygon (Z.of_nat i) h = (h, inr point).
Proof.
  intros Hl Hi. unfold Polygon.__getitem__.
  erewrite bind_ok by (by apply list_get_ok).
  apply lookup_lt_Some in Hi as Hlt.
  replace ((0 <=? Z.of_nat i) && (Z.of_nat i <? Py.len ps)) with true
    by (symmetry; apply andb_true_iff; split;
        [apply Z.leb_le|apply Z.ltb_lt]; unfold Py.len; lia).
  simpl. unfold mbind, M_bind, bind. simpl. by rewrite Nat2Z.id, Hi.
Qed.

End growth.






Lemma getitem_out_of_range (polygon : Polygon.t) (h : heap) (ps : list P.t)
    (index : Z) :
  h !! Polygon.points polygon = Some ps →
  ¬ (0 ≤ index < Py.len ps) →
  Polygon.__getitem__ polygon index h = (h, inl Py.AssertionError).
Proof.
  intros Hl Hi. unfold Polygon.__getitem__.
  erewrite bind_ok by (by apply list_get_ok).
  replace ((0 <=? index) && (index <? Py.len ps)) with false; [done|].
  symmetry. apply andb_false_iff.
  destruct (Z.leb_spec 0 index); [|by left].
  right. apply Z.ltb_ge. lia.
Qed.

(** X9.  After [point_append(point)] on a polygon with [n] points, the
    polygon has [n + 1] points, [polygon[n]] is [point], and the index [n + 1]
    is out of range. *)
Theorem point_append_getitem (polygon : Polygon.t) (h : heap) (ps : list P.t)
    (point : P.t) :
  h !! Polygon.points polygon = Some ps →
  ∃ h',
    Polygon.point_append polygon point h = (h', inr ()) ∧
    Polygon.__len__ polygon h' = (h', inr (Py.len ps + 1)) ∧
    Polygon.__getitem__ polygon (Py.len ps) h' = (h', inr point) ∧
    Polygon.__getitem__ polygon (Py.len ps + 1) h' = (h', inl Py.AssertionError).
Proof.
  intros Hl. eexists. split; [by apply list_append_ok|].
  set (h' := <[_ := _]> h).
  assert (Hl' : h' !! Polygon.points polygon = Some (ps ++ [point]))
    by apply lookup_insert_eq.
  split; [|split].
  - rewrite (len_ok polygon h' _ Hl'). unfold Py.len. rewrite length_app.
    simpl. do 2 f_equal. lia.
  - apply (getitem_ok polygon h' _ (length ps) point Hl').
    by rewrite lookup_app_r, Nat.sub_diag.
  - apply (getitem_out_of_range polygon h' _ _ Hl').
    unfold Py.len. rewrite length_app. simpl. lia.
Qed.

Lemma point_append_getitem_witness :
  ∃ h',
    Polygon.point_append (Polygon.mk "b" 4) (P.mk 7 7 0)
                         (Program.heap_of Program.example) = (h', inr ()) ∧
    Polygon.__len__ (Polygon.mk "b" 4) h' = (h', inr (Py.len [P.mk 5 5 0] + 1)) ∧
    Polygon.__getitem__ (Polygon.mk "b" 4) (Py.len [P.mk 5 5 0]) h'
    = (h', inr (P.mk 7 7 0)) ∧
    Polygon.__getitem__ (Polygon.mk "b" 4) (Py.len [P.mk 5 5 0] + 1) h'
    = (h', inl Py.AssertionError).
Proof.
  exact (point_append_getitem (Polygon.mk "b" 4)
           (Program.heap_of Program.example) [P.mk 5 5 0] (P.mk 7 7 0) eq_refl).
Defined.

(** ** Arcs, circles and slots as shapes *)

Lemma arc_points_reversed (center : P.t) (radius a0 a1 : float) (n : Z) :
  2 ≤ n →
  View.arc_points center radius a1 ((a0 - a1) / IZR (n - 1)) n
  = reverse (View.arc_points center radius a0 ((a1 - a0) / IZR (n - 1)) n).
Proof.
  intros Hn.
  assert (Hd : IZR (n - 1) ≠ 0%R) by (apply IZR_pred_neq_0; lia).
  assert (Hlen : ∀ a d, length (View.arc_points center radius a d n) = Z.to_nat n).
  { intros a d. pose proof (arc_points_length center radius a d n) as H.
    unfold Py.len in H. lia. }
  apply list_eq. intros i.
  destruct (decide (i < Z.to_nat n)%nat) as [Hi|Hi].
  - rewrite reverse_lookup by (rewrite Hlen; lia). rewrite Hlen.
    rewrite <- (Nat2Z.id i) at 1.
    rewrite <- (Nat2Z.id (Z.to_nat n - S i)).
    rewrite !arc_points_lookup by lia. f_equal. unfold View.on_circle.
    replace (a0 + IZR (Z.of_nat (Z.to_nat n - S i)) * ((a1 - a0) / IZR (n - 1)))%R
      with (a1 + IZR (Z.of_nat i) * ((a0 - a1) / IZR (n - 1)))%R; [done|].
    replace (Z.of_nat (Z.to_nat n - S i)) with (n - 1 - Z.of_nat i) by lia.
    rewrite !minus_IZR. rewrite minus_IZR in Hd. field. done.
  - rewrite !lookup_ge_None_2; [done|rewrite length_reverse, Hlen; lia
                               |rewrite Hlen; lia].
Qed.

(** X10.  For [count >= 2], [arc_append] with the start and the end angle
    exchanged appends the same points in the opposite order. *)
Theorem arc_append_reversed (polygon : Polygon.t) (h : heap) (ps : list P.t)
    (center : P.t) (radius a0 a1 : float) (count : Z) :
  2 ≤ count →
  h !! Polygon.points polygon = Some ps →
  ∃ new : list P.t,
    Polygon.arc_append polygon center radius a0 a1 count h
    = (<[Polygon.points polygon := ps ++ new]> h, inr ()) ∧
    Polygon.arc_append polygon center radius a1 a0 count h
    = (<[Polygon.points polygon := ps ++ reverse new]> h, inr ()).
Proof.
  intros Hn Hl. eexists. split; [apply arc_append_ok; [lia|done]|].
  rewrite (arc_append_ok polygon h ps) by (lia || done).
  by rewrite arc_points_reversed.
Qed.

Lemma arc_append_reversed_witness :
  ∃ new : list P.t,
    Polygon.arc_append (Polygon.mk "arc" 1) (P.mk 0 0 0) 1 0 1 3 Polygon.heap_init
    = (<[1%positive := [] ++ new]> Polygon.heap_init, inr ()) ∧
    Polygon.arc_append (Polygon.mk "arc" 1) (P.mk 0 0 0) 1 1 0 3 Polygon.heap_init
    = (<[1%positive := [] ++ reverse new]> Polygon.heap_init, inr ()).
Proof.
  refine (arc_append_reversed (Polygon.mk "arc" 1) Polygon.heap_init []
            (P.mk 0 0 0) 1 0 1 3 _ eq_refl).
  lia.
Defined.

Lemma for_each_ext {A} (xs : list A) (body body' : A → M ()) :
  (∀ a, a ∈ xs → body a = body' a) → for_each xs body = for_each xs body'.
Proof.
  induction xs as [|a xs IH]; intros Hext; simpl; [done|].
  rewrite (Hext a) by apply list_elem_of_here.
  rewrite IH; [done|]. intros b Hb. apply Hext. by apply list_elem_of_further.
Qed.

(** X11.  For [count >= 2], [circle_append(center, diameter, count)] does
    what [arc_append] does with the radius [diameter / 2] from the angle [0]
    to the angle [2 pi (count - 1) / count]: a circle is the arc that stops
    one step short of the full turn. *)
Theorem circle_is_arc (polygon : Polygon.t) (h : heap) (center : P.t)
    (diameter : float) (count : Z) :
  2 ≤ count →
  Polygon.circle_append polygon center diameter count h
  = Polygon.arc_append polygon center (diameter / 2) 0
      (2 * PI * IZR (count - 1) / IZR count) count h.
Proof.
  intros Hn.
  assert (Hd : IZR (count - 1) ≠ 0%R) by (apply IZR_pred_neq_0; lia).
  assert (Hc : IZR count ≠ 0%R) by (intros H0; apply eq_IZR_R0 in H0; lia).
  unfold Polygon.circle_append, Polygon.arc_append.
  erewrite !bind_ok by (by apply float_div_ok).
  match goal with
  | |- for_each ?xs ?b1 h = for_each ?xs ?b2 h =>
      rewrite (for_each_ext xs b1 b2); [done|]
  end.
  intros index _. cbv beta.
  replace (0 + IZR index * ((2 * PI * IZR (count - 1) / IZR count - 0)
                            / IZR (count - 1)))%R
    with (IZR index * (2 * PI / IZR count))%R by (field; done).
  done.
Qed.

Lemma circle_is_arc_witness :
  Polygon.circle_append (Polygon.mk "hole" 1) (P.mk 1 2 3) 4 8 Polygon.heap_init
  = Polygon.arc_append (Polygon.mk "hole" 1) (P.mk 1 2 3) (4 / 2) 0
      (2 * PI * IZR (8 - 1) / IZR 8) 8 Polygon.heap_init.
Proof.
  refine (circle_is_arc (Polygon.mk "hole" 1) Polygon.heap_init (P.mk 1 2 3)
            4 8 _).
  lia.
Defined.



Lemma sqrt_circle (r t : float) :
  sqrt (r * cos t * (r * cos t) + r * sin t * (r * sin t) + 0 * 0) = Rabs r.
Proof.
  rewrite <- sqrt_Rsqr_abs. f_equal. unfold Rsqr.
  pose proof (sin2_cos2 t) as Hsc. unfold Rsqr in Hsc.
  transitivity (r * r * (sin t * sin t + cos t * cos t))%R; [ring|].
  rewrite Hsc. ring.
Qed.

Lemma on_circle_distance (center : P.t) (r t : float) :
  P.z center = 0%R →
  P.distance (View.on_circle center r t) center = Rabs r.
Proof.
  intros Hz. unfold P.distance, View.on_circle. cbn [P.x P.y P.z].
  rewrite <- (sqrt_circle r t). f_equal. rewrite Hz. ring.
Qed.

Lemma arc_points_distance (center : P.t) (r a d : float) (n : Z) :
  P.z center = 0%R →
  Forall (λ p, P.distance p center = Rabs r) (View.arc_points center r a d n).
Proof.
  intros Hz. unfold View.arc_points. apply Forall_fmap, Forall_true.
  intros i. by apply on_circle_distance.
Qed.

(** X13.  The shape of a slot, for [n >= 2]: the points of the first cap are
    all at the distance [|W / 2|] from [center1] and those of the second cap
    at that distance from [center2], the two cap centres being [|L|] apart
    along the slot angle; the step from the second cap back to the first and
    the step that closes the loop both equal [center1 - center2], so the two
    long sides of the slot are parallel to its axis and as long as the
    centres are apart. *)
Theorem slot_shape (polygon : Polygon.t) (h : heap) (ps : list P.t)
    (e1 e2 : P.t) (L W : float) (n : Z) :
  2 ≤ n →
  h !! Polygon.points polygon = Some ps →
  let center := View.midpoint e1 e2 in
  let angle := View.slot_angle e1 e2 in
  let center1 := View.along center (L / 2) angle in
  let center2 := View.along center (- (L / 2)) angle in
  let axis := P.mk (L * cos angle) (L * sin angle) 0 in
  ∃ arc1 arc2 : list P.t,
    Polygon.slot_append polygon e1 e2 L W n h
    = (<[Polygon.points polygon := ps ++ arc1 ++ arc2]> h, inr ()) ∧
    Forall (λ p, P.distance p center1 = Rabs (W / 2)) arc1 ∧
    Forall (λ p, P.distance p center2 = Rabs (W / 2)) arc2 ∧
    P.__sub__ center1 center2 = axis ∧
    P.distance center1 center2 = Rabs L ∧
    (∃ p1 p2, last arc1 = Some p1 ∧ head arc2 = Some p2 ∧
              P.__sub__ p1 p2 = axis) ∧
    (∃ q1 q2, head arc1 = Some q1 ∧ last arc2 = Some q2 ∧
              P.__sub__ q1 q2 = axis).
Proof.
  intros Hn Hl center angle center1 center2 axis.
  assert (Hd : IZR (n - 1) ≠ 0%R) by (apply IZR_pred_neq_0; lia).
  set (d1 := ((angle + PI / 2 - (angle - PI / 2)) / IZR (n - 1))%R).
  set (d2 := ((angle + PI + PI / 2 - (angle + PI - PI / 2)) / IZR (n - 1))%R).
  set (arc1 := View.arc_points center1 (W / 2) (angle - PI / 2) d1 n).
  set (arc2 := View.arc_points center2 (W / 2) (angle + PI - PI / 2) d2 n).
  assert (Hlen : ∀ c r a d, length (View.arc_points c r a d n) = Z.to_nat n).
  { intros c r a d. pose proof (arc_points_length c r a d n) as H.
    unfold Py.len in H. lia. }
  assert (Hfirst : ∀ c r a d, head (View.arc_points c r a d n)
                             = Some (View.on_circle c r (a + IZR 0 * d))).
  { intros c r a d. rewrite head_lookup.
    by rewrite <- (arc_points_lookup c r a d n 0) by lia. }
  assert (Hlast : ∀ c r a d, last (View.arc_points c r a d n)
                            = Some (View.on_circle c r (a + IZR (n - 1) * d))).
  { intros c r a d. rewrite last_lookup, Hlen.
    rewrite <- (arc_points_lookup c r a d n (n - 1)) by lia. f_equal. lia. }
  assert (Hsub : P.__sub__ center1 center2 = axis).
  { apply P_ext; simpl; field. }
  exists arc1, arc2. split; [|split; [|split; [|split; [|split; [|split]]]]].
  - rewrite (slot_append_ok polygon h ps) by (done || lia).
    unfold View.slot_points. fold center angle d1 d2 center1.
    by rewrite slot_center2.
  - by apply arc_points_distance.
  - by apply arc_points_distance.
  - exact Hsub.
  - unfold P.distance, center1, center2, View.along. cbn [P.x P.y P.z].
    rewrite <- (sqrt_circle L angle). f_equal. field.
  - eexists _, _. split; [apply Hlast|]. split; [apply Hfirst|].
    replace (angle - PI / 2 + IZR (n - 1) * d1)%R with (angle + PI / 2)%R
      by (unfold d1; field; done).
    replace (angle + PI - PI / 2 + IZR 0 * d2)%R with (angle + PI / 2)%R
      by field.
    apply P_ext; simpl; field.
  - eexists _, _. split; [apply Hfirst|]. split; [apply Hlast|].
    replace (angle + PI - PI / 2 + IZR (n - 1) * d2)%R
      with (angle - PI / 2 + PI + PI)%R by (unfold d2; field; done).
    replace (angle - PI / 2 + IZR 0 * d1)%R with (angle - PI / 2)%R
      by field.
    unfold View.on_circle. rewrite !neg_cos, !neg_sin.
    apply P_ext; simpl; field.
Qed.

Lemma slot_shape_witness :
  let polygon := Polygon.mk "slot" 1 in
  let h := Polygon.heap_init in
  let e1 := P.mk 1 0 0 in
  let e2 := P.mk (-1) 0 0 in
  let center := View.midpoint e1 e2 in
  let angle := View.slot_angle e1 e2 in
  let center1 := View.along center (2 / 2) angle in
  let center2 := View.along center (- (2 / 2)) angle in
  let axis := P.mk (2 * cos angle) (2 * sin angle) 0 in
  ∃ arc1 arc2 : list P.t,
    Polygon.slot_append polygon e1 e2 2 1 8 h
    = (<[Polygon.points polygon := [] ++ arc1 ++ arc2]> h, inr ()) ∧
    Forall (λ p, P.distance p center1 = Rabs (1 / 2)) arc1 ∧
    Forall (λ p, P.distance p center2 = Rabs (1 / 2)) arc2 ∧
    P.__sub__ center1 center2 = axis ∧
    P.distance center1 center2 = Rabs 2 ∧
    (∃ p1 p2, last arc1 = Some p1 ∧ head arc2 = Some p2 ∧
              P.__sub__ p1 p2 = axis) ∧
    (∃ q1 q2, head arc1 = Some q1 ∧ last arc2 = Some q2 ∧
              P.__sub__ q1 q2 = axis).
Proof.
  refine (slot_shape (Polygon.mk "slot" 1) Polygon.heap_init []
            (P.mk 1 0 0) (P.mk (-1) 0 0) 2 1 8 _ eq_refl).
  lia.
Defined.

(** ** The text of a rendering *)

Section text.

Lemma string_append_assoc (a b c : string) : (a +:+ b) +:+ c = a +:+ (b +:+ c).
Proof.
  induction a as [|x a IH]; [done|].
  change (String x ((a +:+ b) +:+ c) = String x (a +:+ (b +:+ c))).
  by rewrite IH.
Qed.

Lemma polygon_comment_indent (h : heap) (indent rest : string)
    (polygon : Polygon.t) (start : Z) :
  View.polygon_comment h (indent +:+ rest) polygon start
  = indent +:+ View.polygon_comment h rest polygon start.
Proof. unfold View.polygon_comment. by rewrite !string_append_assoc. Qed.

Lemma points_block_indent (h : heap) (indent rest : string)
    (polygon : Polygon.t) (start : Z) :
  View.points_block h (indent +:+ rest) polygon start
  = map (λ line, indent +:+ line) (View.points_block h rest polygon start).
Proof.
  unfold View.points_block. cbn [map]. rewrite polygon_comment_indent.
  f_equal. rewrite map_map. apply map_ext. intros k.
  unfold Polygon.points_line. by rewrite !string_append_assoc.
Qed.

Lemma indices_block_indent (h : heap) (indent rest : string)
    (polygon : Polygon.t) (start : Z) :
  View.indices_block h (indent +:+ rest) polygon start
  = map (λ line, indent +:+ line) (View.indices_block h rest polygon start).
Proof.
  unfold View.indices_block. cbn [map]. rewrite polygon_comment_indent.
  f_equal. rewrite map_map. apply map_ext. intros k.
  unfold Polygon.indices_line. by rewrite !string_append_assoc.
Qed.

Lemma concat_imap_map {A} (f : string → string) (g g' : nat → A → list string)
    (l : list A) :
  (∀ i a, g i a = map f (g' i a)) →
  concat (imap g l) = map f (concat (imap g' l)).
Proof.
  intros Hg. revert g g' Hg. induction l as [|a l IH]; intros g g' Hg; [done|].
  cbn [imap concat]. rewrite map_app, Hg. f_equal.
  apply IH. intros i b. apply Hg.
Qed.

Lemma render_indent (h : heap) (scad_polygon : ScadPolygon.t) (indent : string) :
  View.render h scad_polygon indent
  = map (λ line, indent +:+ line) (View.render h scad_polygon "").
Proof.
  set (f := λ line : string, indent +:+ line).
  set (polygons := ScadPolygon.polygons scad_polygon).
  assert (H1 : View.first_lines indent scad_polygon
               = map f (View.first_lines "" scad_polygon)) by done.
  assert (H2 : concat (imap (λ i q, View.points_block h (indent +:+ " ") q
                                      (View.offset h polygons i)) polygons)
               = map f (concat (imap (λ i q, View.points_block h ("" +:+ " ") q
                                               (View.offset h polygons i))
                                     polygons))).
  { apply concat_imap_map. intros i q. apply points_block_indent. }
  assert (H3 : concat (imap (λ i q, View.indices_block h (indent +:+ " ") q
                                      (View.offset h polygons i)) polygons)
               = map f (concat (imap (λ i q, View.indices_block h ("" +:+ " ") q
                                               (View.offset h polygons i))
                                     polygons))).
  { apply concat_imap_map. intros i q. apply indices_block_indent. }
  assert (H4 : View.last_line indent scad_polygon
               = f (View.last_line "" scad_polygon)).
  { done. }
  unfold View.render. fold polygons. rewrite H1, H2, H3, H4, !map_app. done.
Qed.

End text.

(** X14.  The indentation is a plain prefix: the lines of a rendering with
    the indentation [indent] are the lines of the rendering with the empty
    indentation, each with [indent] put in front; the lines that the list
    held before are kept. *)
Theorem rendering_indent (h : heap) (scad_polygon : ScadPolygon.t)
    (scad_lines : list string) (indent : string) :
  View.live h (ScadPolygon.polygons scad_polygon) →
  ∃ lines : list string,
    ScadPolygon.scad_lines_append scad_polygon [] "" h = (h, inr lines) ∧
    ScadPolygon.scad_lines_append scad_polygon scad_lines indent h
    = (h, inr (scad_lines ++ map (λ line, indent +:+ line) lines)).
Proof.
  intros Hlive. exists (View.render h scad_polygon "").
  rewrite !scad_lines_append_ok by done. by rewrite <- render_indent.
Qed.

Lemma rendering_indent_witness :
  let h := Program.heap_of Program.example in
  let scad_polygon := ScadPolygon.__init__ "demo" Program.example_polygons None in
  ∃ lines : list string,
    ScadPolygon.scad_lines_append scad_polygon [] "" h = (h, inr lines) ∧
    ScadPolygon.scad_lines_append scad_polygon ["first"] "    " h
    = (h, inr (["first"] ++ map (λ line, "    " +:+ line) lines)).
Proof.
  exact (rendering_indent (Program.heap_of Program.example)
           (ScadPolygon.__init__ "demo" Program.example_polygons None)
           ["first"] "    " example_live).
Defined.

Lemma string_append_nil_r (a : string) : a +:+ "" = a.
Proof.
  induction a as [|x a IH]; [done|].
  change (String x (a +:+ "") = String x a). by rewrite IH.
Qed.

Lemma join_snoc_empty (sep : string) (xs : list string) :
  xs ≠ [] → Py.join sep (xs ++ [""]) = Py.join sep xs +:+ sep.
Proof.
  intros Hne. induction xs as [|a xs IH]; [done|].
  destruct xs as [|b xs].
  - change (a +:+ sep +:+ "" = a +:+ sep). by rewrite string_append_nil_r.
  - change (a +:+ sep +:+ Py.join sep ((b :: xs) ++ [""])
            = (a +:+ sep +:+ Py.join sep (b :: xs)) +:+ sep).
    rewrite IH by done. by rewrite !string_append_assoc.
Qed.

(** X15.  When the polygons of a set are live, [file_write] to a writable
    file hands over one text: the line [// 'name' File], then the lines that
    [scad_lines_append] produces with an empty indentation, each followed by
    a line feed, the last one included.  To a file that is not writable it
    fails on its [assert], after the rendering; the heap is unchanged. *)
Theorem file_write_text (h : heap) (scad_polygon : ScadPolygon.t) :
  View.live h (ScadPolygon.polygons scad_polygon) →
  ∃ lines : list string,
    ScadPolygon.scad_lines_append scad_polygon [] "" h = (h, inr lines) ∧
    Scad.file_write scad_polygon true h
    = (h, inr ("// '" +:+ ScadPolygon.name scad_polygon +:+ "' File" +:+
               Scad.newline +:+ Py.join Scad.newline lines +:+ Scad.newline)) ∧
    Scad.file_write scad_polygon false h = (h, inl Py.AssertionError).
Proof.
  intros Hlive. exists (View.render h scad_polygon "").
  split; [by rewrite scad_lines_append_ok|]. split.
  - rewrite file_write_ok by done. do 2 f_equal.
    set (header := "// '" +:+ ScadPolygon.name scad_polygon +:+ "' File").
    assert (Hne : View.render h scad_polygon "" ≠ []) by done.
    rewrite <- join_snoc_empty by done.
    destruct (View.render h scad_polygon "") as [|line lines]; [done|].
    change (Py.join Scad.newline ([header] ++ (line :: lines) ++ [""]))
      with (header +:+ Scad.newline +:+
            Py.join Scad.newline ((line :: lines) ++ [""])).
    unfold header. by rewrite !string_append_assoc.
  - unfold Scad.file_write.
    erewrite bind_ok by (by apply scad_lines_append_ok). done.
Qed.

Lemma file_write_text_witness :
  let h := Program.heap_of Program.example in
  let scad_polygon := ScadPolygon.__init__ "demo" Program.example_polygons None in
  ∃ lines : list string,
    ScadPolygon.scad_lines_append scad_polygon [] "" h = (h, inr lines) ∧
    Scad.file_write scad_polygon true h
    = (h, inr ("// '" +:+ ScadPolygon.name scad_polygon +:+ "' File" +:+
               Scad.newline +:+ Py.join Scad.newline lines +:+ Scad.newline)) ∧
    Scad.file_write scad_polygon false h = (h, inl Py.AssertionError).
Proof.
  exact (file_write_text (Program.heap_of Program.example)
           (ScadPolygon.__init__ "demo" Program.example_polygons None)
           example_live).
Defined.

(** ** A [ScadPolygon] as a container *)

Lemma extend_is_appends (new_polygons : list Polygon.t) :
  ∀ scad_polygon,
    ScadPolygon.extend scad_polygon new_polygons
    = foldl ScadPolygon.append scad_polygon new_polygons.
Proof.
  induction new_polygons as [|q new_polygons IH]; intros [name convexity polygons].
  - unfold ScadPolygon.extend. simpl. by rewrite app_nil_r.
  - simpl. rewrite <- IH. unfold ScadPolygon.extend, ScadPolygon.append. simpl.
    by rewrite <- app_assoc.
Qed.

(** X16.  A [ScadPolygon] holds the polygons it was built from and those
    appended to it, in that order: [append] makes it one longer and puts the
    polygon at the last index without moving the others, [extend] is [append]
    for each polygon of its argument in turn, and an index outside
    [0 <= index < len] fails on the [assert]. *)
Theorem scad_polygon_container (scad_polygon : ScadPolygon.t)
    (polygon : Polygon.t) (new_polygons : list Polygon.t) (index : Z) (h : heap) :
  let appended := ScadPolygon.append scad_polygon polygon in
  let size := ScadPolygon.__len__ scad_polygon in
  ScadPolygon.__len__ appended = size + 1 ∧
  ScadPolygon.__getitem__ appended size h = (h, inr polygon) ∧
  (0 ≤ index < size →
   ScadPolygon.__getitem__ appended index h
   = ScadPolygon.__getitem__ scad_polygon index h ∧
   ∃ q, ScadPolygon.polygons scad_polygon !! Z.to_nat index = Some q ∧
        ScadPolygon.__getitem__ scad_polygon index h = (h, inr q)) ∧
  (¬ (0 ≤ index < size) →
   ScadPolygon.__getitem__ scad_polygon index h = (h, inl Py.AssertionError)) ∧
  ScadPolygon.extend scad_polygon new_polygons
  = foldl ScadPolygon.append scad_polygon new_polygons ∧
  ScadPolygon.__len__ (ScadPolygon.extend scad_polygon new_polygons)
  = size + Py.len new_polygons.
Proof.
  intros appended size. subst appended size.
  assert (Hextend := extend_is_appends new_polygons scad_polygon).
  destruct scad_polygon as [name convexity polygons].
  unfold ScadPolygon.__len__, ScadPolygon.__getitem__, ScadPolygon.append,
    ScadPolygon.extend, Py.len. cbn [ScadPolygon.polygons ScadPolygon.name
                                     ScadPolygon.convexity].
  assert (Hget : ∀ (l : list Polygon.t) (i : Z) q,
            0 ≤ i → l !! Z.to_nat i = Some q →
            (assert ((0 <=? i) && (i <? Z.of_nat (length l))) ;;
             lift_option Py.IndexError (l !! Z.to_nat i)) h = (h, inr q)).
  { intros l i q Hi Hq. apply lookup_lt_Some in Hq as Hlt.
    replace ((0 <=? i) && (i <? Z.of_nat (length l))) with true
      by (symmetry; apply andb_true_iff; split;
          [apply Z.leb_le|apply Z.ltb_lt]; lia).
    unfold mbind, M_bind, bind. simpl. by rewrite Hq. }
  split; [rewrite length_app; simpl; lia|].
  split; [apply Hget; [lia|]; by rewrite Nat2Z.id, lookup_app_r, Nat.sub_diag|].
  split; [|split; [|split]].
  - intros Hi.
    destruct (lookup_lt_is_Some_2 polygons (Z.to_nat index)) as [q Hq]; [lia|].
    rewrite (Hget polygons index q) by (lia || done).
    rewrite (Hget (polygons ++ [polygon]) index q)
      by (lia || by apply lookup_app_l_Some).
    split; [done|]. by exists q.
  - intros Hi.
    replace ((0 <=? index) && (index <? Z.of_nat (length polygons))) with false;
      [done|].
    symmetry. apply andb_false_iff.
    destruct (Z.leb_spec 0 index); [|by left]. right. apply Z.ltb_ge. lia.
  - exact Hextend.
  - rewrite length_app. lia.
Qed.

Lemma scad_polygon_container_witness :
  let scad_polygon := ScadPolygon.__init__ "demo" [Polygon.mk "a" 3] None in
  let polygon := Polygon.mk "b" 4 in
  let h := Program.heap_of Program.example in
  let appended := ScadPolygon.append scad_polygon polygon in
  let size := ScadPolygon.__len__ scad_polygon in
  ScadPolygon.__len__ appended = size + 1 ∧
  ScadPolygon.__getitem__ appended size h = (h, inr polygon) ∧
  (0 ≤ 0 < size →
   ScadPolygon.__getitem__ appended 0 h
   = ScadPolygon.__getitem__ scad_polygon 0 h ∧
   ∃ q, ScadPolygon.polygons scad_polygon !! Z.to_nat 0 = Some q ∧
        ScadPolygon.__getitem__ scad_polygon 0 h = (h, inr q)) ∧
  (¬ (0 ≤ 0 < size) →
   ScadPolygon.__getitem__ scad_polygon 0 h = (h, inl Py.AssertionError)) ∧
  ScadPolygon.extend scad_polygon [polygon]
  = foldl ScadPolygon.append scad_polygon [polygon] ∧
  ScadPolygon.__len__ (ScadPolygon.extend scad_polygon [polygon])
  = size + Py.len [polygon].
Proof.
  exact (scad_polygon_container
           (ScadPolygon.__init__ "demo" [Polygon.mk "a" 3] None)
           (Polygon.mk "b" 4) [Polygon.mk "b" 4] 0
           (Program.heap_of Program.example)).
Defined.

(** ** Indices under growth *)

Section indices.

Context (h : heap).

Lemma offset_app_l (l1 l2 : list Polygon.t) (i : nat) :
  (i ≤ length l1)%nat → View.offset h (l1 ++ l2) i = View.offset h l1 i.
Proof. intros Hi. unfold View.offset. by rewrite take_app_le. Qed.

Lemma blocks_app (block : Polygon.t → Z → list string)
    (polygons : list Polygon.t) (c : Polygon.t) :
  concat (imap (λ i q, block q (View.offset h (polygons ++ [c]) i))
               (polygons ++ [c]))
  = concat (imap (λ i q, block q (View.offset h polygons i)) polygons) ++
    block c (View.total_size h polygons).
Proof.
  rewrite imap_app, concat_app. f_equal.
  - f_equal. apply imap_ext. intros i q Hi. simpl.
    rewrite offset_app_l; [done|]. apply lookup_lt_Some in Hi. lia.
  - simpl. rewrite app_nil_r, Nat.add_0_r. unfold View.offset.
    by rewrite take_app_length.
Qed.

End indices.

(** X17.  Appending a polygon to a set changes no index that the rendering
    gave to the polygons the set already held: apart from the first and the
    last line, which print the number of polygons, the new rendering is the
    old one with the point lines of the new polygon put after the old point
    lines and its index lines after the old index lines, both numbered from
    the total number of points of the old polygons. *)
Theorem set_append_keeps_indices (h : heap) (scad_polygon : ScadPolygon.t)
    (c : Polygon.t) (scad_lines : list string) (indent : string) :
  let bigger := ScadPolygon.append scad_polygon c in
  let total := View.total_size h (ScadPolygon.polygons scad_polygon) in
  View.live h (ScadPolygon.polygons scad_polygon) →
  is_Some (h !! Polygon.points c) →
  ∃ point_lines index_lines : list string,
    ScadPolygon.scad_lines_append scad_polygon scad_lines indent h
    = (h, inr (scad_lines ++ View.first_lines indent scad_polygon ++
               point_lines ++ [View.paths_line indent] ++
               index_lines ++ [View.last_line indent scad_polygon])) ∧
    ScadPolygon.scad_lines_append bigger scad_lines indent h
    = (h, inr (scad_lines ++ View.first_lines indent bigger ++
               (point_lines ++ View.points_block h (indent +:+ " ") c total) ++
               [View.paths_line indent] ++
               (index_lines ++ View.indices_block h (indent +:+ " ") c total) ++
               [View.last_line indent bigger])).
Proof.
  intros bigger total Hlive Hc. eexists _, _.
  rewrite !scad_lines_append_ok;
    [|apply Forall_app; split; [done|by constructor]|done].
  split; [reflexivity|]. unfold View.render, bigger.
  cbn [ScadPolygon.append ScadPolygon.polygons].
  by rewrite !blocks_app.
Qed.

Lemma set_append_keeps_indices_witness :
  let h := Program.heap_of Program.example in
  let scad_polygon := ScadPolygon.__init__ "demo" [Polygon.mk "a" 3] None in
  let c := Polygon.mk "b" 4 in
  let bigger := ScadPolygon.append scad_polygon c in
  let total := View.total_size h (ScadPolygon.polygons scad_polygon) in
  ∃ point_lines index_lines : list string,
    ScadPolygon.scad_lines_append scad_polygon [] "" h
    = (h, inr ([] ++ View.first_lines "" scad_polygon ++
               point_lines ++ [View.paths_line ""] ++
               index_lines ++ [View.last_line "" scad_polygon])) ∧
    ScadPolygon.scad_lines_append bigger [] "" h
    = (h, inr ([] ++ View.first_lines "" bigger ++
               (point_lines ++ View.points_block h ("" +:+ " ") c total) ++
               [View.paths_line ""] ++
               (index_lines ++ View.indices_block h ("" +:+ " ") c total) ++
               [View.last_line "" bigger])).
Proof.
  refine (set_append_keeps_indices (Program.heap_of Program.example)
            (ScadPolygon.__init__ "demo" [Polygon.mk "a" 3] None)
            (Polygon.mk "b" 4) [] "" _ _).
  - constructor; [by eexists|constructor].
  - by eexists.
Defined.




(** ** The lines of one polygon *)

Lemma slices_count_div (n d : Z) : 0 < d → View.slices_count n d = (n + d - 1) / d.
Proof. intros Hd. unfold View.slices_count. by apply ceil_div. Qed.

Lemma last_slice (n d k : Z) :
  0 < d → 0 ≤ k < (n + d - 1) / d →
  k * d < n ∧ ((k + 1) * d <? n) = negb (k =? (n + d - 1) / d - 1).
Proof.
  intros Hd [Hk Hlt].
  pose proof (Z.div_mod (n + d - 1) d ltac:(lia)) as Hdiv.
  pose proof (Z.mod_pos_bound (n + d - 1) d Hd) as Hmod.
  set (q := (n + d - 1) / d) in *. set (r := (n + d - 1) mod d) in *.
  split; [nia|].
  destruct (Z.eqb_spec k (q - 1)) as [->|Hne]; simpl.
  - apply Z.ltb_ge. nia.
  - apply Z.ltb_lt. nia.
Qed.

(** X19.  The path of a live polygon with [n] points is printed, after its
    comment line, on [(n + 24) / 25] lines: line [k] holds the
    [min(25, n - 25 k)] consecutive indices from [start_index + 25 k]
    separated by commas, the first line alone opens the bracket and the last
    line alone closes it.  A polygon without points prints the comment line
    only, so no path at all. *)
Theorem path_lines_layout (polygon : Polygon.t) (scad_lines : list string)
    (indent : string) (start_index : Z) (h : heap) (ps : list P.t) :
  h !! Polygon.points polygon = Some ps →
  let n := Py.len ps in
  let count := (n + 24) / 25 in
  ∃ lines : list string,
    Polygon.indices_scad_lines_append polygon scad_lines indent start_index h
    = (h, inr (scad_lines ++
               View.polygon_comment h indent polygon start_index :: lines,
               start_index + n)) ∧
    Py.len lines = count ∧
    (n = 0 → lines = []) ∧
    ∀ k : Z, 0 ≤ k < count →
      0 < Z.min 25 (n - 25 * k) ∧
      lines !! Z.to_nat k
      = Some (indent +:+ (if k =? 0 then "  [" else "  ") +:+
              Py.join ", " (map Py.str (seqZ (start_index + 25 * k)
                                             (Z.min 25 (n - 25 * k)))) +:+
              (if k =? count - 1 then "]," else ",")).
Proof.
  intros Hl n count.
  assert (Hn : 0 ≤ n) by (unfold n, Py.len; lia).
  assert (Hcount : View.slices_count n 25 = count)
    by (rewrite slices_count_div by lia; unfold count; f_equal; lia).
  exists (map (Polygon.indices_line indent start_index n)
              (Py.range (View.slices_count n 25))).
  split; [|split; [|split]].
  - rewrite indices_scad_lines_append_ok by done.
    unfold View.indices_block. by rewrite (contents_live h polygon ps Hl).
  - pose proof (range_length (View.slices_count n 25)) as Hr.
    unfold Py.len in *. rewrite length_map, Hr, Hcount.
    apply Z.max_r. unfold count. apply Z.div_pos; lia.
  - intros Hn0. rewrite Hcount. unfold count. by rewrite Hn0.
  - intros k Hk.
    destruct (last_slice n 25 k) as [Hlt Hlast];
      [lia|by rewrite <- slices_count_div, Hcount by lia|].
    rewrite <- slices_count_div, Hcount in Hlast by lia.
    split; [lia|].
    rewrite Hcount.
    change (map ?f ?l) with (fmap (M:=list) f l).
    rewrite list_lookup_fmap. unfold Py.range.
    rewrite lookup_seqZ_lt by lia. simpl.
    rewrite Z2Nat.id by lia.
    unfold Polygon.indices_line, Polygon.indices_slice, Py.range2.
    cbv zeta. rewrite Z.add_0_l. do 3 f_equal.
    assert (Hslice : (λ index, start_index + index) <$>
                       seqZ (k * 25) (Z.min ((k + 1) * 25) n - k * 25)
                     = seqZ (start_index + 25 * k) (Z.min 25 (n - 25 * k))).
    { change (λ index, start_index + index) with (Z.add start_index).
      rewrite fmap_add_seqZ. f_equal; lia. }
    f_equal.
    + by rewrite <- Hslice.
    + destruct (Z.eqb_spec k (count - 1)) as [Heq|Hne];
        simpl in Hlast.
      * apply Z.ltb_ge in Hlast.
        replace (Z.min ((k + 1) * 25) n) with n by lia.
        by rewrite Z.eqb_refl.
      * apply Z.ltb_lt in Hlast.
        destruct (Z.eqb_spec (Z.min ((k + 1) * 25) n) n); [lia|done].
Qed.

Lemma path_lines_layout_witness :
  let polygon := Polygon.mk "b" 4 in
  let h := Program.heap_of Program.example in
  let ps := [P.mk 5 5 0] in
  let n := Py.len ps in
  let count := (n + 24) / 25 in
  ∃ lines : list string,
    Polygon.indices_scad_lines_append polygon [] "" 7 h
    = (h, inr ([] ++ View.polygon_comment h "" polygon 7 :: lines, 7 + n)) ∧
    Py.len lines = count ∧
    (n = 0 → lines = []) ∧
    ∀ k : Z, 0 ≤ k < count →
      0 < Z.min 25 (n - 25 * k) ∧
      lines !! Z.to_nat k
      = Some ("" +:+ (if k =? 0 then "  [" else "  ") +:+
              Py.join ", " (map Py.str (seqZ (7 + 25 * k)
                                             (Z.min 25 (n - 25 * k)))) +:+
              (if k =? count - 1 then "]," else ",")).
Proof.
  exact (path_lines_layout (Polygon.mk "b" 4) [] "" 7
           (Program.heap_of Program.example) [P.mk 5 5 0] eq_refl).
Defined.

(** X20.  The points of a live polygon with [n] points are printed, after its
    comment line, on [(n + 3) / 4] lines: line [k] holds the points
    [4 k] to [min(4 k + 4, n) - 1] of the polygon, at least one and at most
    four, each followed by a comma, and ends with a comment that gives the
    indices of its first and of its last point in the flattened list. *)
Theorem point_lines_layout (polygon : Polygon.t) (scad_lines : list string)
    (indent : string) (start_index : Z) (h : heap) (ps : list P.t) :
  h !! Polygon.points polygon = Some ps →
  let n := Py.len ps in
  let count := (n + 3) / 4 in
  ∃ lines : list string,
    Polygon.points_scad_lines_append polygon scad_lines indent start_index h
    = (h, inr (scad_lines ++
               View.polygon_comment h indent polygon start_index :: lines,
               start_index + n)) ∧
    Py.len lines = count ∧
    (n = 0 → lines = []) ∧
    ∀ k : Z, 0 ≤ k < count →
      let slice := take 4 (drop (Z.to_nat (4 * k)) ps) in
      Py.len slice = Z.min 4 (n - 4 * k) ∧ 0 < Py.len slice ∧
      lines !! Z.to_nat k
      = Some (indent +:+ "  " +:+
              Py.join ", " (map Polygon.point_text slice) +:+ ", " +:+
              "// " +:+ Py.str (start_index + 4 * k) +:+ ":" +:+
              Py.str (start_index + 4 * k + Py.len slice - 1)).
Proof.
  intros Hl n count.
  assert (Hn : 0 ≤ n) by (unfold n, Py.len; lia).
  assert (Hcount : View.slices_count n 4 = count)
    by (rewrite slices_count_div by lia; unfold count; f_equal; lia).
  exists (map (Polygon.points_line indent start_index ps)
              (Py.range (View.slices_count n 4))).
  split; [|split; [|split]].
  - rewrite points_scad_lines_append_ok by done.
    unfold View.points_block. by rewrite (contents_live h polygon ps Hl).
  - pose proof (range_length (View.slices_count n 4)) as Hr.
    unfold Py.len in *. rewrite length_map, Hr, Hcount.
    apply Z.max_r. unfold count. apply Z.div_pos; lia.
  - intros Hn0. rewrite Hcount. unfold count. by rewrite Hn0.
  - intros k Hk slice.
    destruct (last_slice n 4 k) as [Hlt _];
      [lia|by rewrite <- slices_count_div, Hcount by lia|].
    assert (Hlen : Py.len slice = Z.min 4 (n - 4 * k)).
    { unfold slice, Py.len. rewrite length_take, length_drop.
      unfold n, Py.len in *. lia. }
    split; [done|]. split; [lia|].
    rewrite Hcount.
    change (map ?f ?l) with (fmap (M:=list) f l).
    rewrite list_lookup_fmap. unfold Py.range.
    rewrite lookup_seqZ_lt by lia. simpl.
    rewrite Z2Nat.id by lia.
    unfold Polygon.points_line, Polygon.points_slice.
    cbv zeta. rewrite Z.add_0_l, slice_take_drop by lia.
    replace (Z.to_nat (k * 4)) with (Z.to_nat (4 * k)) by lia.
    change (Z.to_nat 4) with 4%nat. fold slice. fold n.
    do 7 f_equal.
    + f_equal. lia.
    + do 2 f_equal. lia.
Qed.

Lemma point_lines_layout_witness :
  let polygon := Polygon.mk "b" 4 in
  let h := Program.heap_of Program.example in
  let ps := [P.mk 5 5 0] in
  let n := Py.len ps in
  let count := (n + 3) / 4 in
  ∃ lines : list string,
    Polygon.points_scad_lines_append polygon [] "" 7 h
    = (h, inr ([] ++ View.polygon_comment h "" polygon 7 :: lines, 7 + n)) ∧
    Py.len lines = count ∧
    (n = 0 → lines = []) ∧
    ∀ k : Z, 0 ≤ k < count →
      let slice := take 4 (drop (Z.to_nat (4 * k)) ps) in
      Py.len slice = Z.min 4 (n - 4 * k) ∧ 0 < Py.len slice ∧
      lines !! Z.to_nat k
      = Some ("" +:+ "  " +:+
              Py.join ", " (map Polygon.point_text slice) +:+ ", " +:+
              "// " +:+ Py.str (7 + 4 * k) +:+ ":" +:+
              Py.str (7 + 4 * k + Py.len slice - 1)).
Proof.
  exact (point_lines_layout (Polygon.mk "b" 4) [] "" 7
           (Program.heap_of Program.example) [P.mk 5 5 0] eq_refl).
Defined.

(** ** Callers of the module *)

Section client.

Lemma call_ok {A} (m : M A) (h h' : heap) (a : A) :
  m h = (h', inr a) → Client.call m h = (h', inr a).
Proof. intros Hm. unfold Client.call. by rewrite Hm. Qed.

Lemma cbind_ok {A B} (m : Client.C A) (k : A → Client.C B) (h h' : heap) (a : A) :
  m h = (h', inr a) → Client.bind m k h = k a h'.
Proof. intros Hm. unfold Client.bind. by rewrite Hm. Qed.

Lemma cbind_raise {A B} (m : Client.C A) (k : A → Client.C B) (h h' : heap)
    (e : Client.exn) :
  m h = (h', inl e) → Client.bind m k h = (h', inl e).
Proof. intros Hm. unfold Client.bind. by rewrite Hm. Qed.

Lemma built_nil (h : heap) : Hex.built h h [] [].
Proof. split; [constructor|]. split; [constructor|done]. Qed.

Lemma built_one (h : heap) (name : string) (ps : list P.t) :
  Hex.built h (<[fresh (dom h) := ps]> h)
            [Polygon.mk name (fresh (dom h))] [(name, ps)].
Proof.
  assert (Hfresh : h !! fresh (dom h) = None)
    by (apply not_elem_of_dom, is_fresh).
  split; [|split].
  - constructor; [|constructor]. simpl. by rewrite lookup_insert_eq.
  - apply NoDup_singleton.
  - intros l Hl. apply lookup_insert_ne. intros <-.
    rewrite Hfresh in Hl. by destruct Hl.
Qed.

Lemma built_fresh (h h' : heap) (polygons : list Polygon.t)
    (specs : list (string * list P.t)) :
  Hex.built h h' polygons specs →
  Forall (λ polygon, h !! Polygon.points polygon = None ∧
                     is_Some (h' !! Polygon.points polygon)) polygons.
Proof.
  intros (Hf & _ & _). induction Hf as [|polygon spec ? ? (_ & Hh & Hh')];
    constructor; [|done]. split; [done|by eexists].
Qed.

Lemma built_app (h h1 h2 : heap) (polygons1 polygons2 : list Polygon.t)
    (specs1 specs2 : list (string * list P.t)) :
  Hex.built h h1 polygons1 specs1 →
  Hex.built h1 h2 polygons2 specs2 →
  Hex.built h h2 (polygons1 ++ polygons2) (specs1 ++ specs2).
Proof.
  intros H1 H2.
  pose proof (built_fresh _ _ _ _ H1) as Hfresh1.
  pose proof (built_fresh _ _ _ _ H2) as Hfresh2.
  destruct H1 as (Hf1 & Hd1 & Hk1). destruct H2 as (Hf2 & Hd2 & Hk2).
  split; [|split].
  - apply Forall2_app.
    + eapply Forall2_impl; [exact Hf1|]. intros polygon spec (Hn & Hh & Hh1).
      split; [done|]. split; [done|]. rewrite Hk2 by (by rewrite Hh1). done.
    + eapply Forall2_impl; [exact Hf2|]. intros polygon spec (Hn & Hh1 & Hh2).
      split; [done|]. split; [|done].
      destruct (h !! Polygon.points polygon) as [ps|] eqn:Hh; [|done].
      rewrite Hk1 in Hh1 by (by rewrite Hh). by rewrite Hh in Hh1.
  - rewrite fmap_app. apply NoDup_app. split; [done|]. split; [|done].
    intros l (p1 & -> & Hp1)%list_elem_of_fmap (p2 & Heq & Hp2)%list_elem_of_fmap.
    rewrite Forall_forall in Hfresh1, Hfresh2.
    destruct (Hfresh1 p1 Hp1) as [_ [ps Hlive]].
    destruct (Hfresh2 p2 Hp2) as [Hnone _].
    rewrite <- Heq, Hlive in Hnone. done.
  - intros l Hl. rewrite Hk2 by (by rewrite Hk1). by apply Hk1.
Qed.

Lemma built_default (h h' : heap) (polygons : list Polygon.t)
    (specs : list (string * list P.t)) :
  Hex.built h h' polygons specs →
  h !! Polygon.default_points = Some [] →
  h' !! Polygon.default_points = Some [].
Proof. intros (_ & _ & Hk) Hd. rewrite Hk by (by rewrite Hd). done. Qed.

(** A polygon made with the default argument and filled by one appender. *)
Lemma circle_made (name : string) (center : P.t) (diameter : float)
    (points_count : Z) (h : heap) :
  points_count ≠ 0 →
  h !! Polygon.default_points = Some [] →
  let polygon := Polygon.mk name (fresh (dom h)) in
  Client.call (Polygon.__init__ name None) h
  = (<[fresh (dom h) := []]> h, inr polygon) ∧
  Client.call (Polygon.circle_append polygon center diameter points_count)
              (<[fresh (dom h) := []]> h)
  = (<[fresh (dom h) := View.circle_points center diameter points_count]> h,
     inr ()).
Proof.
  intros Hn Hd polygon. split.
  - apply call_ok. by apply polygon_init_ok.
  - apply call_ok. rewrite (circle_append_ok polygon _ []);
      [|done|apply lookup_insert_eq].
    by rewrite insert_insert_eq.
Qed.

Lemma slot_made (name : string) (hole1 hole2 : P.t)
    (slot_length slot_width : float) (points_count : Z) (h : heap) :
  points_count ≠ 1 →
  h !! Polygon.default_points = Some [] →
  let polygon := Polygon.mk name (fresh (dom h)) in
  Client.call (Polygon.__init__ name None) h
  = (<[fresh (dom h) := []]> h, inr polygon) ∧
  Client.call (Polygon.slot_append polygon hole1 hole2 slot_length slot_width
                                   points_count)
              (<[fresh (dom h) := []]> h)
  = (<[fresh (dom h) := View.slot_points hole1 hole2 slot_length slot_width
                                         points_count]> h,
     inr ()).
Proof.
  intros Hn Hd polygon. split.
  - apply call_ok. by apply polygon_init_ok.
  - apply call_ok. rewrite (slot_append_ok polygon _ []);
      [|done|apply lookup_insert_eq].
    by rewrite insert_insert_eq.
Qed.

End client.

Section hex.

Context (upper_left_x upper_left_y hole_diameter : float).

Lemma row_cells_cons (y_index x_index : Z) (c : ascii)
    (columns : list (Z * ascii)) :
  Hex.row_cells y_index ((x_index, c) :: columns)
  = (if Ascii.eqb c "-" then [] else [(x_index, y_index, c)]) ++
    Hex.row_cells y_index columns.
Proof. done. Qed.

Lemma locate_app (table : gmap string P.t) (cs1 cs2 : list Hex.cell) :
  Hex.locate upper_left_x upper_left_y table (cs1 ++ cs2)
  = Hex.locate upper_left_x upper_left_y
               (Hex.locate upper_left_x upper_left_y table cs1) cs2.
Proof. apply foldl_app. Qed.

Lemma holes_app (cs1 cs2 : list Hex.cell) :
  Hex.holes upper_left_x upper_left_y hole_diameter (cs1 ++ cs2)
  = Hex.holes upper_left_x upper_left_y hole_diameter cs1 ++
    Hex.holes upper_left_x upper_left_y hole_diameter cs2.
Proof. unfold Hex.holes. by rewrite filter_app, map_app. Qed.

Lemma holes_upper (c : Hex.cell) :
  Str.isupper (Hex.letter c) = true →
  Hex.holes upper_left_x upper_left_y hole_diameter [c]
  = [(Hex.hole_name c,
      View.circle_points (Hex.center upper_left_x upper_left_y c)
                         hole_diameter 8)].
Proof. intros Hc. unfold Hex.holes. by rewrite filter_cons_True. Qed.

Lemma holes_lower (c : Hex.cell) :
  Str.isupper (Hex.letter c) = false →
  Hex.holes upper_left_x upper_left_y hole_diameter [c] = [].
Proof.
  intros Hc. unfold Hex.holes.
  by rewrite filter_cons_False by (by rewrite Hc).
Qed.

Lemma fresh_default (h : heap) (ps : list P.t) :
  h !! Polygon.default_points = Some [] →
  <[fresh (dom h) := ps]> h !! Polygon.default_points = Some [].
Proof.
  intros Hd. rewrite lookup_insert_ne; [done|].
  intros Heq. apply (fresh_not_live h Polygon.default_points); [by eexists|done].
Qed.

Lemma hex_cell_loop (y_index : Z) (columns : list (Z * ascii)) :
  ∀ (polygons : list Polygon.t) (locations : gmap string P.t) (h : heap),
    h !! Polygon.default_points = Some [] →
    ∃ h' made,
      Client.fold_c columns
        (Romi.hex_pattern_cell upper_left_x
           (upper_left_y - IZR y_index * Romi.hex_dy_pitch) hole_diameter
           y_index)
        (polygons, locations) h
      = (h', inr (polygons ++ made,
                  Hex.locate upper_left_x upper_left_y locations
                             (Hex.row_cells y_index columns))) ∧
      Hex.built h h' made
        (Hex.holes upper_left_x upper_left_y hole_diameter
                   (Hex.row_cells y_index columns)).
Proof.
  induction columns as [|[x_index c] columns IH]; intros polygons locations h Hd.
  - exists h, []. split; [by rewrite app_nil_r|apply built_nil].
  - rewrite row_cells_cons, locate_app, holes_app.
    cbn [Client.fold_c]. unfold Romi.hex_pattern_cell at 1.
    destruct (Ascii.eqb c "-") eqn:Hdash; cbn [negb].
    + destruct (IH polygons locations h Hd) as (h' & made & Hrun & Hbuilt).
      exists h', made. split; [|done].
      rewrite (cbind_ok _ _ h h (polygons, locations)) by done. exact Hrun.
    + set (name := "Hex Hole (" +:+ Py.str x_index +:+ ", " +:+
                   Py.str y_index +:+ ")").
      set (hole_center :=
             P.mk2 (upper_left_x + IZR x_index * Romi.half_hex_dx_pitch)
                   (upper_left_y - IZR y_index * Romi.hex_dy_pitch)).
      destruct (Str.isupper c) eqn:Hupper.
      * destruct (circle_made name hole_center hole_diameter 8 h) as [Hinit Hcircle];
          [done|done|].
        set (polygon := Polygon.mk name (fresh (dom h))) in *.
        set (h1 := <[fresh (dom h) := View.circle_points hole_center
                                        hole_diameter 8]> h) in *.
        destruct (IH (polygons ++ [polygon])
                     (<[Str.char c := hole_center]> locations) h1)
          as (h' & made & Hrun & Hbuilt); [by apply fresh_default|].
        exists h', (polygon :: made). split.
        -- unfold mbind, Romi.C_bind.
           rewrite (cbind_ok _ _ h h1 (polygons ++ [polygon],
                                       <[Str.char c := hole_center]> locations)).
           ++ rewrite Hrun. do 3 f_equal. by rewrite <- app_assoc.
           ++ rewrite (cbind_ok _ _ h _ polygon Hinit).
              by rewrite (cbind_ok _ _ _ h1 () Hcircle).
        -- rewrite holes_upper by done.
           apply (built_app h h1 h' [polygon] made [_] _); [|done].
           apply built_one.
      * destruct (IH polygons (<[Str.char c := hole_center]> locations) h Hd)
          as (h' & made & Hrun & Hbuilt).
        exists h', made. split.
        -- rewrite (cbind_ok _ _ h h (polygons,
                                      <[Str.char c := hole_center]> locations))
             by done.
           exact Hrun.
        -- by rewrite holes_lower.
Qed.

End hex.

Section hex_loops.

Context (upper_left_x upper_left_y hole_diameter : float).

Lemma hex_row_loop (rows : list (Z * string)) :
  ∀ (polygons : list Polygon.t) (locations : gmap string P.t) (h : heap),
    h !! Polygon.default_points = Some [] →
    ∃ h' made,
      Client.fold_c rows
        (Romi.hex_pattern_row upper_left_x upper_left_y hole_diameter)
        (polygons, locations) h
      = (h', inr (polygons ++ made,
                  Hex.locate upper_left_x upper_left_y locations
                             (Hex.cells_of rows))) ∧
      Hex.built h h' made
        (Hex.holes upper_left_x upper_left_y hole_diameter (Hex.cells_of rows)).
Proof.
  induction rows as [|[y_index pattern_row] rows IH];
    intros polygons locations h Hd.
  - exists h, []. split; [by rewrite app_nil_r|apply built_nil].
  - unfold Hex.cells_of. rewrite bind_cons. fold (Hex.cells_of rows).
    rewrite locate_app, holes_app. cbn [Client.fold_c].
    unfold Romi.hex_pattern_row at 1.
    destruct (hex_cell_loop upper_left_x upper_left_y hole_diameter y_index
                (Str.enumerate (Str.chars pattern_row)) polygons locations h Hd)
      as (h1 & made1 & Hrun1 & Hbuilt1).
    destruct (IH (polygons ++ made1)
                 (Hex.locate upper_left_x upper_left_y locations
                    (Hex.row_cells y_index
                       (Str.enumerate (Str.chars pattern_row)))) h1)
      as (h2 & made2 & Hrun2 & Hbuilt2); [by eapply built_default|].
    exists h2, (made1 ++ made2). split.
    + rewrite (cbind_ok _ _ h h1 _ Hrun1), Hrun2. by rewrite <- app_assoc.
    + by eapply built_app.
Qed.

Lemma hex_slot_ok (locations : gmap string P.t) (slot_length slot_width : float)
    (polygons : list Polygon.t) (slot_pair : string)
    (spec : string * list P.t) (h : heap) :
  h !! Polygon.default_points = Some [] →
  Hex.slot locations slot_length slot_width slot_pair = Some spec →
  ∃ h' polygon,
    Romi.hex_pattern_slot locations slot_length slot_width polygons slot_pair h
    = (h', inr (polygons ++ [polygon])) ∧
    Hex.built h h' [polygon] [spec].
Proof.
  intros Hd Hslot. unfold Hex.slot in Hslot.
  destruct (String.get 0 slot_pair) as [c1|] eqn:Hc1; [|done].
  simpl in Hslot.
  destruct (locations !! Str.char c1) as [hole1|] eqn:Hh1; [|done].
  simpl in Hslot.
  destruct (String.get 1 slot_pair) as [c2|] eqn:Hc2; [|done].
  simpl in Hslot.
  destruct (locations !! Str.char c2) as [hole2|] eqn:Hh2; [|done].
  simpl in Hslot. injection Hslot as <-.
  set (name := "Slot '" +:+ slot_pair +:+ "'").
  destruct (slot_made name hole1 hole2 slot_length slot_width 8 h)
    as [Hinit Hslot]; [done|done|].
  eexists _, _. split; [|apply built_one].
  unfold Romi.hex_pattern_slot, mbind, Romi.C_bind.
  rewrite (cbind_ok _ _ h h (Str.char c1))
    by (unfold Client.str_get; by rewrite Hc1).
  rewrite (cbind_ok _ _ h h hole1)
    by (unfold Client.dict_get; by rewrite Hh1).
  rewrite (cbind_ok _ _ h h (Str.char c2))
    by (unfold Client.str_get; by rewrite Hc2).
  rewrite (cbind_ok _ _ h h hole2)
    by (unfold Client.dict_get; by rewrite Hh2).
  rewrite (cbind_ok _ _ h _ _ Hinit).
  by rewrite (cbind_ok _ _ _ _ () Hslot).
Qed.

Lemma hex_slot_raises (locations : gmap string P.t)
    (slot_length slot_width : float) (polygons : list Polygon.t)
    (slot_pair : string) (h : heap) :
  Hex.slot locations slot_length slot_width slot_pair = None →
  Romi.hex_pattern_slot locations slot_length slot_width polygons slot_pair h
  = (h, inl (Hex.lookup_error locations slot_pair)).
Proof.
  intros Hslot. unfold Hex.slot in Hslot. unfold Hex.lookup_error.
  unfold Romi.hex_pattern_slot, mbind, Romi.C_bind.
  destruct (String.get 0 slot_pair) as [c1|] eqn:Hc1.
  2:{ apply cbind_raise. unfold Client.str_get. by rewrite Hc1. }
  rewrite (cbind_ok _ _ h h (Str.char c1))
    by (unfold Client.str_get; by rewrite Hc1).
  simpl in Hslot.
  destruct (locations !! Str.char c1) as [hole1|] eqn:Hh1.
  2:{ apply cbind_raise. unfold Client.dict_get. by rewrite Hh1. }
  rewrite (cbind_ok _ _ h h hole1)
    by (unfold Client.dict_get; by rewrite Hh1).
  simpl in Hslot.
  destruct (String.get 1 slot_pair) as [c2|] eqn:Hc2.
  2:{ apply cbind_raise. unfold Client.str_get. by rewrite Hc2. }
  rewrite (cbind_ok _ _ h h (Str.char c2))
    by (unfold Client.str_get; by rewrite Hc2).
  simpl in Hslot.
  destruct (locations !! Str.char c2) as [hole2|] eqn:Hh2; [done|].
  apply cbind_raise. unfold Client.dict_get. by rewrite Hh2.
Qed.

Lemma hex_slot_loop (locations : gmap string P.t)
    (slot_length slot_width : float) (slot_pairs : list string)
    (specs : list (string * list P.t)) :
  Forall2 (λ slot_pair spec,
             Hex.slot locations slot_length slot_width slot_pair = Some spec)
          slot_pairs specs →
  ∀ (polygons : list Polygon.t) (h : heap),
    h !! Polygon.default_points = Some [] →
    ∃ h' made,
      Client.fold_c slot_pairs
        (Romi.hex_pattern_slot locations slot_length slot_width) polygons h
      = (h', inr (polygons ++ made)) ∧
      Hex.built h h' made specs.
Proof.
  induction 1 as [|slot_pair spec slot_pairs specs Hslot _ IH];
    intros polygons h Hd.
  - exists h, []. split; [by rewrite app_nil_r|apply built_nil].
  - destruct (hex_slot_ok locations slot_length slot_width polygons slot_pair
                spec h Hd Hslot) as (h1 & polygon & Hrun1 & Hbuilt1).
    destruct (IH (polygons ++ [polygon]) h1)
      as (h2 & made & Hrun2 & Hbuilt2); [by eapply built_default|].
    exists h2, (polygon :: made). split.
    + cbn [Client.fold_c]. rewrite (cbind_ok _ _ h h1 _ Hrun1), Hrun2.
      by rewrite <- app_assoc.
    + by apply (built_app h h1 h2 [polygon] made [spec] specs).
Qed.

Lemma hex_slot_loop_raises (locations : gmap string P.t)
    (slot_length slot_width : float) (good : list string)
    (specs : list (string * list P.t)) (bad : string) (rest : list string) :
  Forall2 (λ slot_pair spec,
             Hex.slot locations slot_length slot_width slot_pair = Some spec)
          good specs →
  Hex.slot locations slot_length slot_width bad = None →
  ∀ (polygons : list Polygon.t) (h : heap),
    h !! Polygon.default_points = Some [] →
    ∃ h' made,
      Client.fold_c (good ++ bad :: rest)
        (Romi.hex_pattern_slot locations slot_length slot_width) polygons h
      = (h', inl (Hex.lookup_error locations bad)) ∧
      Hex.built h h' made specs.
Proof.
  intros Hgood Hbad.
  induction Hgood as [|slot_pair spec slot_pairs specs Hslot _ IH];
    intros polygons h Hd.
  - exists h, []. split; [|apply built_nil].
    cbn [app Client.fold_c]. apply cbind_raise. by apply hex_slot_raises.
  - destruct (hex_slot_ok locations slot_length slot_width polygons slot_pair
                spec h Hd Hslot) as (h1 & polygon & Hrun1 & Hbuilt1).
    destruct (IH (polygons ++ [polygon]) h1)
      as (h2 & made & Hrun2 & Hbuilt2); [by eapply built_default|].
    exists h2, (polygon :: made). split.
    + cbn [app Client.fold_c]. by rewrite (cbind_ok _ _ h h1 _ Hrun1).
    + by apply (built_app h h1 h2 [polygon] made [spec] specs).
Qed.

End hex_loops.

Section patterns.

Lemma find_lower (text : string) (c : ascii) : -1 ≤ Str.find text c.
Proof.
  induction text as [|first rest IH]; simpl; [lia|].
  destruct (Ascii.eqb first c); [lia|].
  destruct (Z.ltb_spec (Str.find rest c) 0); lia.
Qed.

Lemma find_none (text : string) (c : ascii) :
  Str.find text c = -1 ↔ c ∉ Str.chars text.
Proof.
  unfold Str.chars. induction text as [|first rest IH]; simpl.
  - split; [intros _; apply not_elem_of_nil|done].
  - rewrite not_elem_of_cons, <- IH.
    destruct (Ascii.eqb_spec first c) as [->|Hne].
    + split; [lia|intros [? _]; done].
    + pose proof (find_lower rest c).
      destruct (Z.ltb_spec (Str.find rest c) 0).
      * split; [|done]. intros _. split; [congruence|lia].
      * split; [lia|]. intros [_ ?]. lia.
Qed.

Lemma find_some (text : string) (c : ascii) :
  0 ≤ Str.find text c →
  Str.chars text !! Z.to_nat (Str.find text c) = Some c.
Proof.
  unfold Str.chars. induction text as [|first rest IH]; simpl; [lia|].
  destruct (Ascii.eqb_spec first c) as [->|Hne]; [done|].
  pose proof (find_lower rest c).
  destruct (Z.ltb_spec (Str.find rest c) 0); [lia|]. intros _.
  rewrite Z2Nat.inj_add, Nat.add_1_r by lia. simpl. apply IH. lia.
Qed.

Lemma lookup_enumerate_from {A} (xs : list A) :
  ∀ (start : Z) (j : nat),
    Str.enumerate_from start xs !! j = (λ a, (start + Z.of_nat j, a)) <$> xs !! j.
Proof.
  induction xs as [|a xs IH]; intros start j; [done|].
  destruct j as [|j]; simpl; [by rewrite Z.add_0_r|].
  rewrite IH. destruct (xs !! j); simpl; [|done]. do 2 f_equal. lia.
Qed.

Lemma elem_of_enumerate_from {A} (xs : list A) (start i : Z) (a : A) :
  (i, a) ∈ Str.enumerate_from start xs ↔
  ∃ j : nat, i = start + Z.of_nat j ∧ xs !! j = Some a.
Proof.
  rewrite list_elem_of_lookup. split.
  - intros [j Hj]. rewrite lookup_enumerate_from in Hj.
    destruct (xs !! j) as [a'|] eqn:Ha; [|done].
    injection Hj as <- <-. by exists j.
  - intros (j & -> & Hj). exists j. by rewrite lookup_enumerate_from, Hj.
Qed.

Lemma elem_of_row_cells (y_index : Z) (columns : list (Z * ascii))
    (c : Hex.cell) :
  c ∈ Hex.row_cells y_index columns ↔
  (c.1.1, Hex.letter c) ∈ columns ∧ c.1.2 = y_index ∧ Hex.letter c ≠ "-"%char.
Proof.
  unfold Hex.row_cells. rewrite list_elem_of_bind. split.
  - intros ([x_index a] & Hc & Hin).
    destruct (Ascii.eqb a "-") eqn:Hdash; [by apply elem_of_nil in Hc|].
    apply list_elem_of_singleton in Hc as ->. simpl.
    apply Ascii.eqb_neq in Hdash. done.
  - destruct c as [[x y] a]. simpl. intros (Hin & <- & Hne).
    exists (x, a). split; [|done].
    apply Ascii.eqb_neq in Hne. rewrite Hne. by apply list_elem_of_singleton.
Qed.

Lemma elem_of_cells (pattern_rows : list string) (c : Hex.cell) :
  c ∈ Hex.cells pattern_rows ↔
  ∃ (x y : nat) (pattern_row : string),
    c.1.1 = Z.of_nat x ∧ c.1.2 = Z.of_nat y ∧
    pattern_rows !! y = Some pattern_row ∧
    Str.chars pattern_row !! x = Some (Hex.letter c) ∧
    Hex.letter c ≠ "-"%char.
Proof.
  unfold Hex.cells, Hex.cells_of. rewrite list_elem_of_bind. split.
  - intros ([y_index pattern_row] & Hc & Hin).
    apply elem_of_row_cells in Hc as (Hcol & Hy & Hne).
    apply elem_of_enumerate_from in Hin as (y & -> & Hrow).
    apply elem_of_enumerate_from in Hcol as (x & Hx & Hcol).
    exists x, y, pattern_row. repeat split; [lia|lia|done|done|done].
  - intros (x & y & pattern_row & Hx & Hy & Hrow & Hcol & Hne).
    exists (Z.of_nat y, pattern_row). split.
    + apply elem_of_row_cells. split; [|done].
      apply elem_of_enumerate_from. exists x. split; [lia|done].
    + apply elem_of_enumerate_from. exists y. split; [lia|done].
Qed.

Lemma origin_find_none (hex_origin : P.t) (pattern_rows : list string) :
  ∀ start : Z,
    Forall (λ pattern_row, "O"%char ∉ Str.chars pattern_row) pattern_rows →
    Romi.origin_find hex_origin (Str.enumerate_from start pattern_rows) = None.
Proof.
  induction pattern_rows as [|pattern_row pattern_rows IH]; intros start Hall;
    [done|].
  apply Forall_cons in Hall as [Hrow Hall]. simpl.
  apply find_none in Hrow. rewrite Hrow. simpl. by apply IH.
Qed.

Lemma origin_find_some (hex_origin : P.t) (pattern_rows : list string) :
  ∀ (start : Z) (y : nat) (pattern_row : string),
    pattern_rows !! y = Some pattern_row →
    0 ≤ Str.find pattern_row "O" →
    (∀ (y' : nat) row, (y' < y)%nat → pattern_rows !! y' = Some row →
                       Str.find row "O" = -1) →
    Romi.origin_find hex_origin (Str.enumerate_from start pattern_rows)
    = Some ((P.x hex_origin -
             IZR (Str.find pattern_row "O") * Romi.half_hex_dx_pitch)%R,
            (P.y hex_origin + IZR (start + Z.of_nat y) * Romi.hex_dy_pitch)%R).
Proof.
  induction pattern_rows as [|first pattern_rows IH];
    intros start y pattern_row Hrow Hfound Hbefore; [done|].
  destruct y as [|y]; simpl in Hrow.
  - injection Hrow as ->. simpl.
    destruct (Z.leb_spec 0 (Str.find pattern_row "O")); [|lia].
    by rewrite Z.add_0_r.
  - replace (start + Z.of_nat (S y)) with (start + 1 + Z.of_nat y) by lia.
    cbn [Str.enumerate_from Romi.origin_find].
    rewrite (Hbefore 0%nat first) by (done || lia).
    change (0 <=? -1) with false. cbv iota.
    apply (IH (start + 1) y pattern_row Hrow Hfound).
    intros y' row Hlt. apply (Hbefore (S y') row). lia.
Qed.

Lemma origin_at_find (hex_origin : P.t) (pattern_rows : list string)
    (x_offset y_offset : Z) :
  Hex.origin_at pattern_rows x_offset y_offset →
  Romi.origin_find hex_origin (Str.enumerate pattern_rows)
  = Some ((P.x hex_origin - IZR x_offset * Romi.half_hex_dx_pitch)%R,
          (P.y hex_origin + IZR y_offset * Romi.hex_dy_pitch)%R).
Proof.
  intros (pattern_row & Hrow & Hy & Hx & Hfind & Hbefore).
  unfold Str.enumerate.
  rewrite (origin_find_some hex_origin pattern_rows 0 (Z.to_nat y_offset)
             pattern_row Hrow).
  - rewrite Hfind.
    by replace (0 + Z.of_nat (Z.to_nat y_offset)) with y_offset by lia.
  - lia.
  - intros y' row Hlt. apply Hbefore. lia.
Qed.

Context (upper_left_x upper_left_y : float).

Lemma char_inj (c1 c2 : ascii) : Str.char c1 = Str.char c2 → c1 = c2.
Proof. by intros [= ->]. Qed.

Lemma locate_skip (cs : list Hex.cell) (a : ascii) :
  ∀ table : gmap string P.t,
    a ∉ Hex.letter <$> cs →
    Hex.locate upper_left_x upper_left_y table cs !! Str.char a
    = table !! Str.char a.
Proof.
  induction cs as [|c cs IH]; intros table Hnot; [done|].
  rewrite fmap_cons in Hnot. apply not_elem_of_cons in Hnot as [Hne Hnot].
  cbn [Hex.locate foldl]. fold (Hex.locate upper_left_x upper_left_y).
  unfold Hex.locate in *. rewrite IH by done.
  apply lookup_insert_ne. intros Heq%char_inj. done.
Qed.

Lemma locate_last (table : gmap string P.t) (before after : list Hex.cell)
    (c : Hex.cell) :
  Hex.letter c ∉ Hex.letter <$> after →
  Hex.locate upper_left_x upper_left_y table (before ++ c :: after)
  !! Str.char (Hex.letter c)
  = Some (Hex.center upper_left_x upper_left_y c).
Proof.
  intros Hnot. rewrite locate_app.
  change (c :: after) with ([c] ++ after). rewrite locate_app.
  rewrite locate_skip by done. apply lookup_insert_eq.
Qed.

Lemma locate_live (cs : list Hex.cell) (a : ascii) :
  ∀ table : gmap string P.t,
    is_Some (table !! Str.char a) ∨ a ∈ Hex.letter <$> cs →
    is_Some (Hex.locate upper_left_x upper_left_y table cs !! Str.char a).
Proof.
  induction cs as [|c cs IH]; intros table Hin.
  - destruct Hin as [Hin|Hin]; [done|]. by apply elem_of_nil in Hin.
  - cbn [Hex.locate foldl]. apply IH.
    destruct Hin as [Hin|Hin].
    + left. apply lookup_insert_is_Some.
      destruct (decide (Str.char (Hex.letter c) = Str.char a)); [by left|].
      by right.
    + rewrite fmap_cons in Hin. apply elem_of_cons in Hin as [->|Hin].
      * left. rewrite lookup_insert_eq. by eexists.
      * by right.
Qed.

Lemma slot_ok_slot (pattern_rows : list string)
    (slot_length slot_width : float) (slot_pair : string) :
  Hex.slot_ok pattern_rows slot_pair →
  is_Some (Hex.slot (Hex.locate upper_left_x upper_left_y ∅
                                (Hex.cells pattern_rows))
                    slot_length slot_width slot_pair).
Proof.
  intros (c1 & c2 & Hc1 & Hc2 & Hin1 & Hin2).
  destruct (locate_live (Hex.cells pattern_rows) c1 ∅) as [hole1 Hh1];
    [by right|].
  destruct (locate_live (Hex.cells pattern_rows) c2 ∅) as [hole2 Hh2];
    [by right|].
  unfold Hex.slot. rewrite Hc1. simpl. rewrite Hh1. simpl.
  rewrite Hc2. simpl. rewrite Hh2. simpl. by eexists.
Qed.

Lemma slots_ok_slots (pattern_rows : list string)
    (slot_length slot_width : float) (slot_pairs : list string) :
  Forall (Hex.slot_ok pattern_rows) slot_pairs →
  ∃ specs,
    Forall2 (λ slot_pair spec,
               Hex.slot (Hex.locate upper_left_x upper_left_y ∅
                                    (Hex.cells pattern_rows))
                        slot_length slot_width slot_pair = Some spec)
            slot_pairs specs.
Proof.
  induction 1 as [|slot_pair slot_pairs Hok _ [specs IH]].
  - exists []. constructor.
  - destruct (slot_ok_slot pattern_rows slot_length slot_width slot_pair Hok)
      as [spec Hspec].
    exists (spec :: specs). by constructor.
Qed.

End patterns.

(** The run of [hex_pattern_get] on a pattern with an ['O']. *)
Lemma hex_pattern_get_run (romi : Romi.t) (pattern_rows slot_pairs : list string)
    (hex_origin : P.t) (hole_diameter : float) (x_offset y_offset : Z)
    (specs : list (string * list P.t)) (h : heap) :
  let upper_left_x := (P.x hex_origin - IZR x_offset * Romi.half_hex_dx_pitch)%R in
  let upper_left_y := (P.y hex_origin + IZR y_offset * Romi.hex_dy_pitch)%R in
  let locations :=
    Hex.locate upper_left_x upper_left_y ∅ (Hex.cells pattern_rows) in
  h !! Polygon.default_points = Some [] →
  Hex.origin_at pattern_rows x_offset y_offset →
  Forall2 (λ slot_pair spec,
             Hex.slot locations (Romi.slot_dy romi - Romi.slot_dx romi)
                      (Romi.slot_dx romi) slot_pair = Some spec)
          slot_pairs specs →
  ∃ h' polygons,
    Romi.hex_pattern_get romi pattern_rows slot_pairs hex_origin hole_diameter h
    = (h', inr (polygons, locations)) ∧
    Hex.built h h' polygons
      (Hex.holes upper_left_x upper_left_y hole_diameter
                 (Hex.cells pattern_rows) ++ specs).
Proof.
  intros upper_left_x upper_left_y locations Hd Horigin Hslots.
  unfold Romi.hex_pattern_get.
  rewrite (origin_at_find hex_origin pattern_rows x_offset y_offset Horigin).
  fold upper_left_x upper_left_y.
  destruct (hex_row_loop upper_left_x upper_left_y hole_diameter
              (Str.enumerate pattern_rows) [] ∅ h Hd)
    as (h1 & made1 & Hrun1 & Hbuilt1).
  fold (Hex.cells pattern_rows) in Hrun1, Hbuilt1. fold locations in Hrun1.
  destruct (hex_slot_loop locations _ _ slot_pairs specs Hslots made1 h1)
    as (h2 & made2 & Hrun2 & Hbuilt2); [by eapply built_default|].
  exists h2, (made1 ++ made2). split; [|by eapply built_app].
  unfold mbind, Romi.C_bind.
  rewrite (cbind_ok _ _ h h1 _ Hrun1).
  by rewrite (cbind_ok _ _ h1 h2 _ Hrun2).
Qed.

Section hex_results.

Context (upper_left_x upper_left_y : float).

Lemma locate_none (pattern_rows : list string) (a : ascii) :
  a ∉ Hex.letters pattern_rows →
  Hex.locate upper_left_x upper_left_y ∅ (Hex.cells pattern_rows) !! Str.char a
  = None.
Proof. intros Hnot. by rewrite locate_skip. Qed.

Lemma lookup_error_letters (pattern_rows : list string) (slot_pair : string) :
  Hex.lookup_error (Hex.locate upper_left_x upper_left_y ∅
                               (Hex.cells pattern_rows)) slot_pair
  = Hex.slot_error pattern_rows slot_pair.
Proof.
  unfold Hex.lookup_error, Hex.slot_error.
  destruct (String.get 0 slot_pair) as [c1|]; [|done].
  destruct (decide (c1 ∈ Hex.letters pattern_rows)) as [Hin|Hout].
  - destruct (locate_live upper_left_x upper_left_y (Hex.cells pattern_rows)
                c1 ∅) as [hole1 ->]; [by right|done].
  - by rewrite locate_none.
Qed.

Lemma slot_none (pattern_rows : list string) (slot_length slot_width : float)
    (slot_pair : string) :
  ¬ Hex.slot_ok pattern_rows slot_pair →
  Hex.slot (Hex.locate upper_left_x upper_left_y ∅ (Hex.cells pattern_rows))
           slot_length slot_width slot_pair = None.
Proof.
  intros Hnot. unfold Hex.slot.
  destruct (String.get 0 slot_pair) as [c1|] eqn:Hc1; [|done]. simpl.
  destruct (decide (c1 ∈ Hex.letters pattern_rows)) as [Hin1|Hout];
    [|by rewrite locate_none].
  destruct (_ !! Str.char c1) as [hole1|]; [|done]. simpl.
  destruct (String.get 1 slot_pair) as [c2|] eqn:Hc2; [|done]. simpl.
  destruct (decide (c2 ∈ Hex.letters pattern_rows)) as [Hin2|Hout];
    [|by rewrite locate_none].
  destruct Hnot. by exists c1, c2.
Qed.

End hex_results.

Lemma holes_length (upper_left_x upper_left_y hole_diameter : float)
    (cs : list Hex.cell) :
  Forall (λ spec : string * list P.t, Py.len spec.2 = 8)
         (Hex.holes upper_left_x upper_left_y hole_diameter cs).
Proof.
  unfold Hex.holes. apply Forall_fmap, Forall_forall. intros c _. simpl.
  pose proof (appended_length (View.CircleAppend
    (Hex.center upper_left_x upper_left_y c) hole_diameter 8)) as Hlen.
  exact Hlen.
Qed.

Lemma slots_length (locations : gmap string P.t) (slot_length slot_width : float)
    (slot_pairs : list string) (specs : list (string * list P.t)) :
  Forall2 (λ slot_pair spec,
             Hex.slot locations slot_length slot_width slot_pair = Some spec)
          slot_pairs specs →
  Forall (λ spec : string * list P.t, Py.len spec.2 = 16) specs.
Proof.
  induction 1 as [|slot_pair spec slot_pairs specs Hslot _ IH];
    constructor; [|done].
  unfold Hex.slot in Hslot.
  destruct (String.get 0 slot_pair) as [c1|]; [|done]. simpl in Hslot.
  destruct (locations !! Str.char c1) as [hole1|]; [|done]. simpl in Hslot.
  destruct (String.get 1 slot_pair) as [c2|]; [|done]. simpl in Hslot.
  destruct (locations !! Str.char c2) as [hole2|]; [|done]. simpl in Hslot.
  injection Hslot as <-. simpl.
  exact (appended_length (View.SlotAppend hole1 hole2 slot_length slot_width 8)).
Qed.

(** X21.  On a pattern with an ['O'] and slot pairs that name letters of the
    pattern, [hex_pattern_get] returns normally.  It returns one polygon of 8
    points for each upper case letter, in reading order, the circle of the
    given diameter around the place of the letter, and then one polygon of 16
    points for each slot pair, the slot between the places of its two
    letters.  Each polygon has a new point list of its own, and no list that
    existed before the call is changed. *)
Theorem hex_pattern_polygons (romi : Romi.t)
    (pattern_rows slot_pairs : list string) (hex_origin : P.t)
    (hole_diameter : float) (x_offset y_offset : Z) (h : heap) :
  let upper_left_x := (P.x hex_origin - IZR x_offset * Romi.half_hex_dx_pitch)%R in
  let upper_left_y := (P.y hex_origin + IZR y_offset * Romi.hex_dy_pitch)%R in
  let holes :=
    Hex.holes upper_left_x upper_left_y hole_diameter (Hex.cells pattern_rows) in
  h !! Polygon.default_points = Some [] →
  Hex.origin_at pattern_rows x_offset y_offset →
  Forall (Hex.slot_ok pattern_rows) slot_pairs →
  ∃ h' polygons locations slots,
    Romi.hex_pattern_get romi pattern_rows slot_pairs hex_origin hole_diameter h
    = (h', inr (polygons, locations)) ∧
    Forall2 (λ slot_pair spec,
               Hex.slot locations (Romi.slot_dy romi - Romi.slot_dx romi)
                        (Romi.slot_dx romi) slot_pair = Some spec)
            slot_pairs slots ∧
    Hex.built h h' polygons (holes ++ slots) ∧
    Py.len polygons = Py.len holes + Py.len slot_pairs ∧
    Forall (λ spec, Py.len spec.2 = 8) holes ∧
    Forall (λ spec, Py.len spec.2 = 16) slots.
Proof.
  intros upper_left_x upper_left_y holes Hd Horigin Hok.
  destruct (slots_ok_slots upper_left_x upper_left_y pattern_rows
              (Romi.slot_dy romi - Romi.slot_dx romi) (Romi.slot_dx romi)
              slot_pairs Hok) as [slots Hslots].
  destruct (hex_pattern_get_run romi pattern_rows slot_pairs hex_origin
              hole_diameter x_offset y_offset slots h Hd Horigin Hslots)
    as (h' & polygons & Hrun & Hbuilt).
  exists h', polygons,
    (Hex.locate upper_left_x upper_left_y ∅ (Hex.cells pattern_rows)), slots.
  split; [exact Hrun|]. split; [exact Hslots|].
  split; [exact Hbuilt|]. split; [|split].
  - destruct Hbuilt as (Hf & _ & _). apply Forall2_length in Hf.
    apply Forall2_length in Hslots.
    unfold Py.len, holes, upper_left_x, upper_left_y.
    rewrite Hf, length_app, Hslots. lia.
  - apply holes_length.
  - by eapply slots_length.
Qed.

(** X22.  On a pattern without an ['O'], [hex_pattern_get] raises
    [AssertionError] and neither makes a polygon nor changes the heap. *)
Theorem hex_pattern_no_origin (romi : Romi.t)
    (pattern_rows slot_pairs : list string) (hex_origin : P.t)
    (hole_diameter : float) (h : heap) :
  Forall (λ pattern_row, "O"%char ∉ Str.chars pattern_row) pattern_rows →
  Romi.hex_pattern_get romi pattern_rows slot_pairs hex_origin hole_diameter h
  = (h, inl (Client.Raised Py.AssertionError)).
Proof.
  intros Hnone. unfold Romi.hex_pattern_get, Str.enumerate.
  by rewrite origin_find_none.
Qed.

(** X23.  When the first slot pair that does not name two letters of the
    pattern is [bad], [hex_pattern_get] raises at that pair: [IndexError]
    when [bad] is empty, [KeyError] with the first character of [bad] when
    that is no letter of the pattern, [IndexError] when [bad] has one
    character only, and [KeyError] with its second character otherwise.  The
    lists that existed before the call are as they were. *)
Theorem hex_pattern_bad_slot (romi : Romi.t)
    (pattern_rows good rest : list string) (bad : string) (hex_origin : P.t)
    (hole_diameter : float) (x_offset y_offset : Z) (h : heap) :
  h !! Polygon.default_points = Some [] →
  Hex.origin_at pattern_rows x_offset y_offset →
  Forall (Hex.slot_ok pattern_rows) good →
  ¬ Hex.slot_ok pattern_rows bad →
  ∃ h',
    Romi.hex_pattern_get romi pattern_rows (good ++ bad :: rest) hex_origin
                         hole_diameter h
    = (h', inl (Hex.slot_error pattern_rows bad)) ∧
    ∀ l, is_Some (h !! l) → h' !! l = h !! l.
Proof.
  intros Hd Horigin Hgood Hbad.
  set (upper_left_x := (P.x hex_origin - IZR x_offset * Romi.half_hex_dx_pitch)%R).
  set (upper_left_y := (P.y hex_origin + IZR y_offset * Romi.hex_dy_pitch)%R).
  destruct (slots_ok_slots upper_left_x upper_left_y pattern_rows
              (Romi.slot_dy romi - Romi.slot_dx romi) (Romi.slot_dx romi)
              good Hgood) as [specs Hspecs].
  unfold Romi.hex_pattern_get.
  rewrite (origin_at_find hex_origin pattern_rows x_offset y_offset Horigin).
  fold upper_left_x upper_left_y.
  destruct (hex_row_loop upper_left_x upper_left_y hole_diameter
              (Str.enumerate pattern_rows) [] ∅ h Hd)
    as (h1 & made1 & Hrun1 & Hbuilt1).
  fold (Hex.cells pattern_rows) in Hrun1, Hbuilt1.
  destruct (hex_slot_loop_raises _ _ _ good specs bad rest Hspecs
              (slot_none upper_left_x upper_left_y pattern_rows _ _ bad Hbad)
              made1 h1)
    as (h2 & made2 & Hrun2 & Hbuilt2); [by eapply built_default|].
  exists h2. split.
  - unfold mbind, Romi.C_bind.
    rewrite (cbind_ok _ _ h h1 _ Hrun1).
    rewrite (cbind_raise _ _ h1 h2 _ Hrun2).
    by rewrite lookup_error_letters.
  - destruct (built_app _ _ _ _ _ _ _ Hbuilt1 Hbuilt2) as (_ & _ & Hframe).
    exact Hframe.
Qed.

Lemma hex_located (upper_left_x upper_left_y : float)
    (pattern_rows : list string) (x y : nat) (c : ascii) :
  Hex.only_at pattern_rows x y c → c ≠ "-"%char →
  Hex.locate upper_left_x upper_left_y ∅ (Hex.cells pattern_rows) !! Str.char c
  = Some (Hex.center upper_left_x upper_left_y (Z.of_nat x, Z.of_nat y, c)).
Proof.
  intros [(pattern_row & Hrow & Hcol) Honly] Hne.
  set (here := (Z.of_nat x, Z.of_nat y, c) : Hex.cell).
  assert (Hin : here ∈ Hex.cells pattern_rows).
  { apply elem_of_cells. by exists x, y, pattern_row. }
  apply list_elem_of_split_r in Hin as (before & after & Hcells & Hnot).
  rewrite Hcells.
  apply (locate_last upper_left_x upper_left_y ∅ before after here).
  intros (there & Heq & Hthere)%list_elem_of_fmap.
  assert (Hin : there ∈ Hex.cells pattern_rows).
  { rewrite Hcells. apply elem_of_app. right. by apply elem_of_cons; right. }
  apply elem_of_cells in Hin as (x' & y' & row' & Hx' & Hy' & Hrow' & Hcol' & _).
  rewrite <- Heq in Hcol'. change (Hex.letter here) with c in Hcol'.
  destruct (Honly x' y') as [-> ->]; [by exists row'|].
  apply Hnot. destruct there as [[tx ty] tc]. simpl in *. by subst.
Qed.

Lemma center_origin (hex_origin : P.t) (x_offset y_offset : Z) (x y : nat)
    (c : ascii) :
  Hex.center (P.x hex_origin - IZR x_offset * Romi.half_hex_dx_pitch)
             (P.y hex_origin + IZR y_offset * Romi.hex_dy_pitch)
             (Z.of_nat x, Z.of_nat y, c)
  = P.mk2 (P.x hex_origin + IZR (Z.of_nat x - x_offset) * Romi.half_hex_dx_pitch)
          (P.y hex_origin - IZR (Z.of_nat y - y_offset) * Romi.hex_dy_pitch).
Proof.
  unfold Hex.center, P.mk2. simpl. rewrite !minus_IZR. f_equal; ring.
Qed.

(** X24.  The table that [hex_pattern_get] returns gives every letter that
    occurs once in the pattern its place on the grid: the letter in column
    [x] of row [y] is [x - x_offset] half pitches to the right of
    [hex_origin] and [y - y_offset] pitches below it, where the first ['O'] is
    in column [x_offset] of row [y_offset], and has [z = 0].  When ['O']
    occurs once, its place is [hex_origin] but for the [z] coordinate. *)
Theorem hex_pattern_locations (romi : Romi.t)
    (pattern_rows slot_pairs : list string) (hex_origin : P.t)
    (hole_diameter : float) (x_offset y_offset : Z) (h : heap) :
  h !! Polygon.default_points = Some [] →
  Hex.origin_at pattern_rows x_offset y_offset →
  Forall (Hex.slot_ok pattern_rows) slot_pairs →
  ∃ h' polygons locations,
    Romi.hex_pattern_get romi pattern_rows slot_pairs hex_origin hole_diameter h
    = (h', inr (polygons, locations)) ∧
    (∀ (x y : nat) (c : ascii),
       Hex.only_at pattern_rows x y c → c ≠ "-"%char →
       locations !! Str.char c
       = Some (P.mk2 (P.x hex_origin +
                      IZR (Z.of_nat x - x_offset) * Romi.half_hex_dx_pitch)
                     (P.y hex_origin -
                      IZR (Z.of_nat y - y_offset) * Romi.hex_dy_pitch))) ∧
    ((∀ x y, Hex.at_cell pattern_rows x y "O" →
             Z.of_nat x = x_offset ∧ Z.of_nat y = y_offset) →
     locations !! "O" = Some (P.mk2 (P.x hex_origin) (P.y hex_origin))).
Proof.
  intros Hd Horigin Hok.
  set (upper_left_x := (P.x hex_origin - IZR x_offset * Romi.half_hex_dx_pitch)%R).
  set (upper_left_y := (P.y hex_origin + IZR y_offset * Romi.hex_dy_pitch)%R).
  destruct (slots_ok_slots upper_left_x upper_left_y pattern_rows
              (Romi.slot_dy romi - Romi.slot_dx romi) (Romi.slot_dx romi)
              slot_pairs Hok) as [slots Hslots].
  destruct (hex_pattern_get_run romi pattern_rows slot_pairs hex_origin
              hole_diameter x_offset y_offset slots h Hd Horigin Hslots)
    as (h' & polygons & Hrun & _).
  exists h', polygons,
    (Hex.locate upper_left_x upper_left_y ∅ (Hex.cells pattern_rows)).
  split; [exact Hrun|]. split.
  - intros x y c Honly Hne.
    rewrite (hex_located upper_left_x upper_left_y pattern_rows x y c) by done.
    f_equal. apply center_origin.
  - intros Hunique.
    destruct Horigin as (pattern_row & Hrow & Hy & Hx & Hfind & _).
    assert (Honly : Hex.only_at pattern_rows (Z.to_nat x_offset)
                                (Z.to_nat y_offset) "O").
    { split.
      - exists pattern_row. split; [done|]. rewrite <- Hfind.
        apply find_some. lia.
      - intros x' y' Hat. destruct (Hunique x' y' Hat). lia. }
    change "O" with (Str.char "O").
    rewrite (hex_located upper_left_x upper_left_y pattern_rows _ _ "O")
      by done.
    unfold upper_left_x, upper_left_y.
    rewrite center_origin, !Z2Nat.id, !Z.sub_diag by lia.
    unfold P.mk2. f_equal. f_equal; ring.
Qed.

Section grid.

Lemma half_pitch_pos : (0 < Romi.half_hex_dx_pitch)%R.
Proof.
  unfold Romi.half_hex_dx_pitch, Romi.hex_dy_pitch.
  apply Rdiv_lt_0_compat; [lra|]. apply sqrt_lt_R0. lra.
Qed.

Lemma pitch_square :
  (Romi.hex_dy_pitch * Romi.hex_dy_pitch
   = 3 * (Romi.half_hex_dx_pitch * Romi.half_hex_dx_pitch))%R.
Proof.
  unfold Romi.half_hex_dx_pitch.
  assert (Hsqrt : (sqrt 3 * sqrt 3 = 3)%R) by (apply sqrt_sqrt; lra).
  assert (Hpos : (0 < sqrt 3)%R) by (apply sqrt_lt_R0; lra).
  set (s := sqrt 3) in *. set (p := Romi.hex_dy_pitch).
  replace (3 * (p / s * (p / s)))%R with (p * p * (3 / (s * s)))%R
    by (field; lra).
  rewrite Hsqrt. field.
Qed.

Lemma distance_two_half (dx dy : float) :
  (dx * dx + dy * dy
   = 4 * (Romi.half_hex_dx_pitch * Romi.half_hex_dx_pitch))%R →
  sqrt (dx * dx + dy * dy + 0 * 0) = (2 * Romi.half_hex_dx_pitch)%R.
Proof.
  intros Hsum. pose proof half_pitch_pos as Hpos.
  replace (dx * dx + dy * dy + 0 * 0)%R
    with ((2 * Romi.half_hex_dx_pitch) * (2 * Romi.half_hex_dx_pitch))%R
    by (rewrite Rmult_0_l, Rplus_0_r, Hsum; ring).
  apply sqrt_square. lra.
Qed.

Lemma center_distance (upper_left_x upper_left_y : float) (c1 c2 : Hex.cell) :
  P.distance (Hex.center upper_left_x upper_left_y c1)
             (Hex.center upper_left_x upper_left_y c2)
  = sqrt (IZR (c1.1.1 - c2.1.1) * Romi.half_hex_dx_pitch *
          (IZR (c1.1.1 - c2.1.1) * Romi.half_hex_dx_pitch) +
          IZR (c1.1.2 - c2.1.2) * Romi.hex_dy_pitch *
          (IZR (c1.1.2 - c2.1.2) * Romi.hex_dy_pitch) + 0 * 0).
Proof.
  unfold P.distance, Hex.center, P.mk2. cbn [P.x P.y P.z].
  rewrite !minus_IZR. f_equal. ring.
Qed.

Lemma neighbours_distance (upper_left_x upper_left_y : float) (x y : nat)
    (a b c : ascii) :
  let pa := Hex.center upper_left_x upper_left_y (Z.of_nat x, Z.of_nat y, a) in
  let pb := Hex.center upper_left_x upper_left_y
                       (Z.of_nat (x + 2), Z.of_nat y, b) in
  let pc := Hex.center upper_left_x upper_left_y
                       (Z.of_nat (x + 1), Z.of_nat (y + 1), c) in
  P.distance pa pb = (2 * Romi.half_hex_dx_pitch)%R ∧
  P.distance pa pc = (2 * Romi.half_hex_dx_pitch)%R ∧
  P.distance pb pc = (2 * Romi.half_hex_dx_pitch)%R.
Proof.
  intros pa pb pc. pose proof pitch_square as Hsq.
  unfold pa, pb, pc. rewrite !center_distance. cbn [fst snd].
  replace (Z.of_nat x - Z.of_nat (x + 2)) with (-2) by lia.
  replace (Z.of_nat x - Z.of_nat (x + 1)) with (-1) by lia.
  replace (Z.of_nat (x + 2) - Z.of_nat (x + 1)) with 1 by lia.
  replace (Z.of_nat y - Z.of_nat y) with 0 by lia.
  replace (Z.of_nat y - Z.of_nat (y + 1)) with (-1) by lia.
  repeat split; apply distance_two_half; nra.
Qed.

End grid.

(** X25.  The grid of [hex_pattern_get] is made of equilateral triangles: for
    letters that occur once, the places of the letter in column [x] of row
    [y], of the letter two columns to its right and of the letter one column
    to its right in the next row are at distance [2 * 7.5 / sqrt(3)] from
    each other. *)
Theorem hex_pattern_equilateral (romi : Romi.t)
    (pattern_rows slot_pairs : list string) (hex_origin : P.t)
    (hole_diameter : float) (x_offset y_offset : Z) (h : heap)
    (x y : nat) (a b c : ascii) :
  h !! Polygon.default_points = Some [] →
  Hex.origin_at pattern_rows x_offset y_offset →
  Forall (Hex.slot_ok pattern_rows) slot_pairs →
  Hex.only_at pattern_rows x y a → a ≠ "-"%char →
  Hex.only_at pattern_rows (x + 2) y b → b ≠ "-"%char →
  Hex.only_at pattern_rows (x + 1) (y + 1) c → c ≠ "-"%char →
  ∃ h' polygons locations pa pb pc,
    Romi.hex_pattern_get romi pattern_rows slot_pairs hex_origin hole_diameter h
    = (h', inr (polygons, locations)) ∧
    locations !! Str.char a = Some pa ∧
    locations !! Str.char b = Some pb ∧
    locations !! Str.char c = Some pc ∧
    P.distance pa pb = (2 * (7.5 / sqrt 3))%R ∧
    P.distance pa pc = (2 * (7.5 / sqrt 3))%R ∧
    P.distance pb pc = (2 * (7.5 / sqrt 3))%R.
Proof.
  intros Hd Horigin Hok Ha Hna Hb Hnb Hc Hnc.
  set (upper_left_x := (P.x hex_origin - IZR x_offset * Romi.half_hex_dx_pitch)%R).
  set (upper_left_y := (P.y hex_origin + IZR y_offset * Romi.hex_dy_pitch)%R).
  destruct (slots_ok_slots upper_left_x upper_left_y pattern_rows
              (Romi.slot_dy romi - Romi.slot_dx romi) (Romi.slot_dx romi)
              slot_pairs Hok) as [slots Hslots].
  destruct (hex_pattern_get_run romi pattern_rows slot_pairs hex_origin
              hole_diameter x_offset y_offset slots h Hd Horigin Hslots)
    as (h' & polygons & Hrun & _).
  destruct (neighbours_distance upper_left_x upper_left_y x y a b c)
    as (Hab & Hac & Hbc).
  eexists h', polygons, _, _, _, _. split; [exact Hrun|].
  split; [by apply hex_located|]. split; [by apply hex_located|].
  split; [by apply hex_located|]. done.
Qed.

(** X26.  [hole_locate] turns the bounding box of a hole, given in inches in
    the coordinates of the drawing, into a diameter and a centre in
    millimetres relative to the origin of the robot: the centre is the
    middle of the box and the diameter is the mean of its width and height.
    For a square box, the box of the returned circle is the given box. *)
Theorem hole_locate_box (romi : Romi.t) (left_x right_x above_y below_y : float) :
  let scale := Romi.inches2mm romi in
  let origin := Romi.origin_offset romi in
  let diameter := (Romi.hole_locate romi left_x right_x above_y below_y).1 in
  let center := (Romi.hole_locate romi left_x right_x above_y below_y).2 in
  (2 * diameter = scale * (right_x - left_x) + scale * (above_y - below_y))%R ∧
  (2 * (P.x center + P.x origin) = scale * left_x + scale * right_x)%R ∧
  (2 * (P.y center + P.y origin) = scale * below_y + scale * above_y)%R ∧
  (P.z center + P.z origin = 0)%R ∧
  ((right_x - left_x = above_y - below_y)%R →
   (P.x center - diameter / 2 = scale * left_x - P.x origin)%R ∧
   (P.x center + diameter / 2 = scale * right_x - P.x origin)%R ∧
   (P.y center - diameter / 2 = scale * below_y - P.y origin)%R ∧
   (P.y center + diameter / 2 = scale * above_y - P.y origin)%R).
Proof.
  intros scale origin diameter center.
  unfold diameter, center, Romi.hole_locate, P.__sub__, P.mk2.
  cbn [fst snd P.x P.y P.z]. fold scale origin.
  repeat split; try field.
  all: assert (Hsq : (scale * (right_x - left_x)
                      = scale * (above_y - below_y))%R) by (by f_equal).
  all: lra.
Qed.

Lemma hole_locate_box_witness :
  let romi := Romi.__init__ in
  let scale := Romi.inches2mm romi in
  let origin := Romi.origin_offset romi in
  let diameter := (Romi.hole_locate romi 1 3 5 3).1 in
  let center := (Romi.hole_locate romi 1 3 5 3).2 in
  (2 * diameter = scale * (3 - 1) + scale * (5 - 3))%R ∧
  (2 * (P.x center + P.x origin) = scale * 1 + scale * 3)%R ∧
  (2 * (P.y center + P.y origin) = scale * 3 + scale * 5)%R ∧
  (P.z center + P.z origin = 0)%R ∧
  ((3 - 1 = 5 - 3)%R →
   (P.x center - diameter / 2 = scale * 1 - P.x origin)%R ∧
   (P.x center + diameter / 2 = scale * 3 - P.x origin)%R ∧
   (P.y center - diameter / 2 = scale * 3 - P.y origin)%R ∧
   (P.y center + diameter / 2 = scale * 5 - P.y origin)%R).
Proof. exact (hole_locate_box Romi.__init__ 1 3 5 3). Defined.

Section line.

Context (s_center q_center : P.t) (diameter : float).

Lemma line_offset (thirds : Z) (h : heap) :
  Client.call
    (lift_option Py.ZeroDivisionError
       (P.__truediv__
          (P.__rmul__ (P.__sub__ q_center s_center) (IZR thirds)) 3)) h
  = (h, inr (P.mk ((P.x q_center - P.x s_center) * IZR thirds / 3)
                  ((P.y q_center - P.y s_center) * IZR thirds / 3)
                  ((P.z q_center - P.z s_center) * IZR thirds / 3))).
Proof.
  apply call_ok. unfold P.__truediv__.
  destruct (Req_dec_T 3 0) as [H3|_]; [lra|done].
Qed.

Lemma line_hole_loop (indices : list Z) :
  ∀ (polygons : list Polygon.t) (h : heap),
    h !! Polygon.default_points = Some [] →
    ∃ h' made,
      Client.fold_c indices
        (Romi.line_hole s_center (P.__sub__ q_center s_center) diameter)
        polygons h
      = (h', inr (polygons ++ made)) ∧
      Hex.built h h' made
                (Hex.line_holes s_center q_center diameter indices).
Proof.
  induction indices as [|index indices IH]; intros polygons h Hd.
  - exists h, []. split; [by rewrite app_nil_r|apply built_nil].
  - cbn [Client.fold_c]. unfold Romi.line_hole at 1, Hex.line_holes.
    destruct (Z.eqb_spec (index mod 3) 1) as [Hskip|Hhole]; cbn [negb].
    + rewrite filter_cons_False by (intros Hne; by apply Hne).
      destruct (IH polygons h Hd) as (h' & made & Hrun & Hbuilt).
      exists h', made. split; [|done].
      by rewrite (cbind_ok _ _ h h polygons).
    + rewrite filter_cons_True by done. cbn [map].
      set (name := "Vector Hole " +:+ Py.str index).
      set (hole_center := Hex.line_center s_center q_center (index - 1)).
      destruct (circle_made name hole_center diameter 8 h)
        as [Hinit Hcircle]; [done|done|].
      set (polygon := Polygon.mk name (fresh (dom h))) in *.
      set (h1 := <[fresh (dom h) := View.circle_points hole_center diameter 8]> h)
        in *.
      destruct (IH (polygons ++ [polygon]) h1)
        as (h' & made & Hrun & Hbuilt); [by apply fresh_default|].
      exists h', (polygon :: made). split.
      * unfold mbind, Romi.C_bind.
        rewrite (cbind_ok _ _ h h1 (polygons ++ [polygon])).
        -- rewrite Hrun. by rewrite <- app_assoc.
        -- rewrite (cbind_ok _ _ h h _ (line_offset (index - 1) h)).
           rewrite (cbind_ok _ _ h _ polygon Hinit).
           by rewrite (cbind_ok _ _ _ h1 () Hcircle).
      * apply (built_app h h1 h' [polygon] made [_] _); [|done].
        apply built_one.
Qed.

End line.

(** X27.  With a table that has ["S"] and ["Q"], [line_hole_polygons_get]
    returns six polygons of 8 points, named [Vector Hole 0, 2, 3, 5, 6, 8]:
    circles of the diameter of the small hole around the points at
    [-1/3, 1/3, 2/3, 4/3, 5/3, 7/3] of the way from [S] to [Q].  Each polygon
    has a new point list of its own, and no list that existed before the
    call is changed. *)
Theorem line_hole_polygons_made (romi : Romi.t)
    (lower_hex_table : gmap string P.t) (s_center q_center : P.t) (h : heap) :
  let diameter :=
    (Romi.hole_locate romi (-3.289535) (-3.198980) 0.256524 0.165984).1 in
  let hole (index : Z) :=
    ("Vector Hole " +:+ Py.str index,
     View.circle_points (Hex.line_center s_center q_center (index - 1))
                        diameter 8) in
  h !! Polygon.default_points = Some [] →
  lower_hex_table !! "S" = Some s_center →
  lower_hex_table !! "Q" = Some q_center →
  ∃ h' polygons,
    Romi.line_hole_polygons_get romi lower_hex_table h = (h', inr polygons) ∧
    Hex.built h h' polygons [hole 0; hole 2; hole 3; hole 5; hole 6; hole 8] ∧
    Py.len polygons = 6 ∧
    ∀ index, Py.len (hole index).2 = 8.
Proof.
  intros diameter hole Hd Hs Hq.
  destruct (line_hole_loop s_center q_center diameter (Py.range 9) [] h Hd)
    as (h' & polygons & Hrun & Hbuilt).
  exists h', polygons. split; [|split; [exact Hbuilt|split]].
  - unfold Romi.line_hole_polygons_get.
    destruct (Romi.hole_locate romi (-3.289535) (-3.198980) 0.256524 0.165984)
      as [small_hole_diameter small_hole_center] eqn:Hlocate.
    unfold mbind, Romi.C_bind.
    rewrite (cbind_ok _ _ h h s_center)
      by (unfold Client.dict_get; by rewrite Hs).
    rewrite (cbind_ok _ _ h h q_center)
      by (unfold Client.dict_get; by rewrite Hq).
    exact Hrun.
  - destruct Hbuilt as (Hf & _ & _). apply Forall2_length in Hf.
    unfold Py.len. by rewrite Hf.
  - intros index.
    exact (appended_length (View.CircleAppend
             (Hex.line_center s_center q_center (index - 1)) diameter 8)).
Qed.

(** X28.  [line_hole_polygons_get] raises [KeyError] for ["S"] when the table
    has no ["S"], and for ["Q"] when it has ["S"] but no ["Q"]; the heap is
    as it was and no polygon has been made. *)
Theorem line_hole_key_error (romi : Romi.t)
    (lower_hex_table : gmap string P.t) (h : heap) :
  (lower_hex_table !! "S" = None →
   Romi.line_hole_polygons_get romi lower_hex_table h
   = (h, inl (Client.KeyError "S"))) ∧
  (is_Some (lower_hex_table !! "S") → lower_hex_table !! "Q" = None →
   Romi.line_hole_polygons_get romi lower_hex_table h
   = (h, inl (Client.KeyError "Q"))).
Proof.
  unfold Romi.line_hole_polygons_get.
  destruct (Romi.hole_locate romi (-3.289535) (-3.198980) 0.256524 0.165984)
    as [small_hole_diameter small_hole_center].
  unfold mbind, Romi.C_bind. split.
  - intros Hs. apply cbind_raise. unfold Client.dict_get. by rewrite Hs.
  - intros [s_center Hs] Hq.
    rewrite (cbind_ok _ _ h h s_center)
      by (unfold Client.dict_get; by rewrite Hs).
    apply cbind_raise. unfold Client.dict_get. by rewrite Hq.
Qed.

(** A small pattern: two holes over the origin hole. *)
Lemma example_pattern_origin : Hex.origin_at ["A-B"; "-O-"] 1 1.
Proof.
  exists "-O-". split; [done|]. split; [lia|]. split; [lia|]. split; [done|].
  intros y row Hy Hrow. destruct y as [|y]; [|lia].
  injection Hrow as <-. done.
Qed.

Lemma example_pattern_only :
  Hex.only_at ["A-B"; "-O-"] 0 0 "A" ∧
  Hex.only_at ["A-B"; "-O-"] 2 0 "B" ∧
  Hex.only_at ["A-B"; "-O-"] 1 1 "O".
Proof.
  split; [|split]; (split; [eexists; split; reflexivity|]).
  all: intros x' y' (row & Hrow & Hcol).
  all: destruct y' as [|[|y']]; simpl in Hrow; [| |done]; injection Hrow as <-.
  all: destruct x' as [|[|[|x']]]; simpl in Hcol; done.
Qed.

Lemma example_pattern_letter (c : ascii) :
  c ∈ ["A"; "B"; "O"]%char → c ∈ Hex.letters ["A-B"; "-O-"].
Proof. done. Qed.

Lemma example_pattern_slot : Hex.slot_ok ["A-B"; "-O-"] "AB".
Proof.
  exists "A"%char, "B"%char. repeat split.
  - apply example_pattern_letter. repeat constructor.
  - apply example_pattern_letter. repeat constructor.
Qed.

Lemma example_pattern_bad_slot : ¬ Hex.slot_ok ["A-B"; "-O-"] "Ax".
Proof.
  intros (c1 & c2 & _ & [= <-] & _ & Hin).
  repeat (apply elem_of_cons in Hin as [[=]|Hin]). by apply elem_of_nil in Hin.
Qed.

Lemma hex_pattern_polygons_witness :
  let romi := Romi.__init__ in
  let pattern_rows := ["A-B"; "-O-"] in
  let slot_pairs := ["AB"] in
  let hex_origin := P.mk 10 20 0 in
  let h := Polygon.heap_init in
  let upper_left_x := (P.x hex_origin - IZR 1 * Romi.half_hex_dx_pitch)%R in
  let upper_left_y := (P.y hex_origin + IZR 1 * Romi.hex_dy_pitch)%R in
  let holes := Hex.holes upper_left_x upper_left_y 3 (Hex.cells pattern_rows) in
  ∃ h' polygons locations slots,
    Romi.hex_pattern_get romi pattern_rows slot_pairs hex_origin 3 h
    = (h', inr (polygons, locations)) ∧
    Forall2 (λ slot_pair spec,
               Hex.slot locations (Romi.slot_dy romi - Romi.slot_dx romi)
                        (Romi.slot_dx romi) slot_pair = Some spec)
            slot_pairs slots ∧
    Hex.built h h' polygons (holes ++ slots) ∧
    Py.len polygons = Py.len holes + Py.len slot_pairs ∧
    Forall (λ spec, Py.len spec.2 = 8) holes ∧
    Forall (λ spec, Py.len spec.2 = 16) slots.
Proof.
  refine (hex_pattern_polygons Romi.__init__ ["A-B"; "-O-"] ["AB"]
            (P.mk 10 20 0) 3 1 1 Polygon.heap_init eq_refl
            example_pattern_origin _).
  constructor; [exact example_pattern_slot|constructor].
Defined.

Lemma hex_pattern_no_origin_witness :
  Romi.hex_pattern_get Romi.__init__ ["A-B"; "-a-"] ["Aa"] (P.mk 10 20 0) 3
                       Polygon.heap_init
  = (Polygon.heap_init, inl (Client.Raised Py.AssertionError)).
Proof.
  refine (hex_pattern_no_origin Romi.__init__ ["A-B"; "-a-"] ["Aa"]
            (P.mk 10 20 0) 3 Polygon.heap_init _).
  repeat (constructor;
          [intros Hin; repeat (apply elem_of_cons in Hin as [[=]|Hin]);
           by apply elem_of_nil in Hin|]).
  constructor.
Defined.

Lemma hex_pattern_bad_slot_witness :
  ∃ h',
    Romi.hex_pattern_get Romi.__init__ ["A-B"; "-O-"] (["AB"] ++ "Ax" :: ["BO"])
                         (P.mk 10 20 0) 3 Polygon.heap_init
    = (h', inl (Hex.slot_error ["A-B"; "-O-"] "Ax")) ∧
    ∀ l, is_Some (Polygon.heap_init !! l) → h' !! l = Polygon.heap_init !! l.
Proof.
  refine (hex_pattern_bad_slot Romi.__init__ ["A-B"; "-O-"] ["AB"] ["BO"] "Ax"
            (P.mk 10 20 0) 3 1 1 Polygon.heap_init eq_refl
            example_pattern_origin _ example_pattern_bad_slot).
  constructor; [exact example_pattern_slot|constructor].
Defined.

Lemma hex_pattern_locations_witness :
  let pattern_rows := ["A-B"; "-O-"] in
  let hex_origin := P.mk 10 20 0 in
  ∃ h' polygons locations,
    Romi.hex_pattern_get Romi.__init__ pattern_rows ["AB"] hex_origin 3
                         Polygon.heap_init
    = (h', inr (polygons, locations)) ∧
    (∀ (x y : nat) (c : ascii),
       Hex.only_at pattern_rows x y c → c ≠ "-"%char →
       locations !! Str.char c
       = Some (P.mk2 (P.x hex_origin +
                      IZR (Z.of_nat x - 1) * Romi.half_hex_dx_pitch)
                     (P.y hex_origin -
                      IZR (Z.of_nat y - 1) * Romi.hex_dy_pitch))) ∧
    ((∀ x y, Hex.at_cell pattern_rows x y "O" →
             Z.of_nat x = 1 ∧ Z.of_nat y = 1) →
     locations !! "O" = Some (P.mk2 (P.x hex_origin) (P.y hex_origin))).
Proof.
  refine (hex_pattern_locations Romi.__init__ ["A-B"; "-O-"] ["AB"]
            (P.mk 10 20 0) 3 1 1 Polygon.heap_init eq_refl
            example_pattern_origin _).
  constructor; [exact example_pattern_slot|constructor].
Defined.

Lemma hex_pattern_equilateral_witness :
  ∃ h' polygons locations pa pb pc,
    Romi.hex_pattern_get Romi.__init__ ["A-B"; "-O-"] ["AB"] (P.mk 10 20 0) 3
                         Polygon.heap_init
    = (h', inr (polygons, locations)) ∧
    locations !! Str.char "A" = Some pa ∧
    locations !! Str.char "B" = Some pb ∧
    locations !! Str.char "O" = Some pc ∧
    P.distance pa pb = (2 * (7.5 / sqrt 3))%R ∧
    P.distance pa pc = (2 * (7.5 / sqrt 3))%R ∧
    P.distance pb pc = (2 * (7.5 / sqrt 3))%R.
Proof.
  refine (hex_pattern_equilateral Romi.__init__ ["A-B"; "-O-"] ["AB"]
            (P.mk 10 20 0) 3 1 1 Polygon.heap_init 0 0 "A" "B" "O" eq_refl
            example_pattern_origin _ _ _ _ _ _ _); try done.
  - constructor; [exact example_pattern_slot|constructor].
  - apply example_pattern_only.
  - apply example_pattern_only.
  - apply example_pattern_only.
Defined.

Lemma line_hole_polygons_made_witness :
  let romi := Romi.__init__ in
  let lower_hex_table : gmap string P.t :=
    <["S" := P.mk 0 0 0]> (<["Q" := P.mk 3 6 0]> ∅) in
  let s_center := P.mk 0 0 0 in
  let q_center := P.mk 3 6 0 in
  let h := Polygon.heap_init in
  let diameter :=
    (Romi.hole_locate romi (-3.289535) (-3.198980) 0.256524 0.165984).1 in
  let hole (index : Z) :=
    ("Vector Hole " +:+ Py.str index,
     View.circle_points (Hex.line_center s_center q_center (index - 1))
                        diameter 8) in
  ∃ h' polygons,
    Romi.line_hole_polygons_get romi lower_hex_table h = (h', inr polygons) ∧
    Hex.built h h' polygons [hole 0; hole 2; hole 3; hole 5; hole 6; hole 8] ∧
    Py.len polygons = 6 ∧
    ∀ index, Py.len (hole index).2 = 8.
Proof.
  exact (line_hole_polygons_made Romi.__init__
           (<["S" := P.mk 0 0 0]> (<["Q" := P.mk 3 6 0]> ∅))
           (P.mk 0 0 0) (P.mk 3 6 0) Polygon.heap_init
           eq_refl eq_refl eq_refl).
Defined.

(** X29.  The table of [hex_pattern_get] feeds [line_hole_polygons_get], as
    in [base_scad_polygon_generate]: when the pattern has an ['O'], the slot
    pairs name letters of the pattern and ['S'] and ['Q'] are letters of the
    pattern, the two calls in a row return normally, the second with six
    polygons.  All the polygons returned have point lists of their own,
    different from each other and from the lists that existed before, which
    are as they were. *)
Theorem hex_then_line_holes (romi : Romi.t)
    (pattern_rows slot_pairs : list string) (hex_origin : P.t)
    (hole_diameter : float) (x_offset y_offset : Z) (h : heap) :
  h !! Polygon.default_points = Some [] →
  Hex.origin_at pattern_rows x_offset y_offset →
  Forall (Hex.slot_ok pattern_rows) slot_pairs →
  "S"%char ∈ Hex.letters pattern_rows →
  "Q"%char ∈ Hex.letters pattern_rows →
  ∃ h1 h2 hex_polygons table line_polygons,
    Romi.hex_pattern_get romi pattern_rows slot_pairs hex_origin hole_diameter h
    = (h1, inr (hex_polygons, table)) ∧
    Romi.line_hole_polygons_get romi table h1 = (h2, inr line_polygons) ∧
    Py.len line_polygons = 6 ∧
    NoDup (Polygon.points <$> hex_polygons ++ line_polygons) ∧
    Forall (λ polygon, h !! Polygon.points polygon = None ∧
                       is_Some (h2 !! Polygon.points polygon))
           (hex_polygons ++ line_polygons) ∧
    ∀ l, is_Some (h !! l) → h2 !! l = h !! l.
Proof.
  intros Hd Horigin Hok HS HQ.
  set (upper_left_x := (P.x hex_origin - IZR x_offset * Romi.half_hex_dx_pitch)%R).
  set (upper_left_y := (P.y hex_origin + IZR y_offset * Romi.hex_dy_pitch)%R).
  destruct (slots_ok_slots upper_left_x upper_left_y pattern_rows
              (Romi.slot_dy romi - Romi.slot_dx romi) (Romi.slot_dx romi)
              slot_pairs Hok) as [slots Hslots].
  destruct (hex_pattern_get_run romi pattern_rows slot_pairs hex_origin
              hole_diameter x_offset y_offset slots h Hd Horigin Hslots)
    as (h1 & hex_polygons & Hrun1 & Hbuilt1).
  fold upper_left_x upper_left_y in Hrun1, Hbuilt1.
  set (table := Hex.locate upper_left_x upper_left_y ∅
                           (Hex.cells pattern_rows)) in *.
  destruct (locate_live upper_left_x upper_left_y (Hex.cells pattern_rows)
              "S" ∅) as [s_center Hs]; [by right|].
  destruct (locate_live upper_left_x upper_left_y (Hex.cells pattern_rows)
              "Q" ∅) as [q_center Hq]; [by right|].
  fold table in Hs, Hq. unfold Str.char in Hs, Hq.
  destruct (Romi.hole_locate romi (-3.289535) (-3.198980) 0.256524 0.165984)
    as [small_hole_diameter small_hole_center] eqn:Hlocate.
  destruct (line_hole_loop s_center q_center small_hole_diameter (Py.range 9)
              [] h1) as (h2 & line_polygons & Hrun2 & Hbuilt2);
    [by eapply built_default|].
  pose proof (built_app _ _ _ _ _ _ _ Hbuilt1 Hbuilt2) as Hbuilt.
  exists h1, h2, hex_polygons, table, line_polygons.
  split; [exact Hrun1|]. split; [|split; [|split; [|split]]].
  - unfold Romi.line_hole_polygons_get. rewrite Hlocate.
    unfold mbind, Romi.C_bind.
    rewrite (cbind_ok _ _ h1 h1 s_center)
      by (unfold Client.dict_get; by rewrite Hs).
    rewrite (cbind_ok _ _ h1 h1 q_center)
      by (unfold Client.dict_get; by rewrite Hq).
    exact Hrun2.
  - destruct Hbuilt2 as (Hf & _ & _). apply Forall2_length in Hf.
    unfold Py.len. by rewrite Hf.
  - by destruct Hbuilt as (_ & Hdup & _).
  - by eapply built_fresh.
  - by destruct Hbuilt as (_ & _ & Hframe).
Qed.

Lemma example_table_pattern :
  Hex.origin_at ["S-Q"; "-O-"] 1 1 ∧
  "S"%char ∈ Hex.letters ["S-Q"; "-O-"] ∧
  "Q"%char ∈ Hex.letters ["S-Q"; "-O-"] ∧
  Hex.slot_ok ["S-Q"; "-O-"] "SO".
Proof.
  split; [|split; [|split]].
  - exists "-O-". split; [done|]. split; [lia|]. split; [lia|]. split; [done|].
    intros y row Hy Hrow. destruct y as [|y]; [|lia].
    injection Hrow as <-. done.
  - repeat constructor.
  - apply elem_of_cons. right. repeat constructor.
  - exists "S"%char, "O"%char. repeat split.
    + repeat constructor.
    + do 2 (apply elem_of_cons; right). repeat constructor.
Qed.

Lemma hex_then_line_holes_witness :
  let romi := Romi.__init__ in
  let h := Polygon.heap_init in
  ∃ h1 h2 hex_polygons table line_polygons,
    Romi.hex_pattern_get romi ["S-Q"; "-O-"] ["SO"] (P.mk 10 20 0) 3 h
    = (h1, inr (hex_polygons, table)) ∧
    Romi.line_hole_polygons_get romi table h1 = (h2, inr line_polygons) ∧
    Py.len line_polygons = 6 ∧
    NoDup (Polygon.points <$> hex_polygons ++ line_polygons) ∧
    Forall (λ polygon, h !! Polygon.points polygon = None ∧
                       is_Some (h2 !! Polygon.points polygon))
           (hex_polygons ++ line_polygons) ∧
    ∀ l, is_Some (h !! l) → h2 !! l = h !! l.
Proof.
  refine (hex_then_line_holes Romi.__init__ ["S-Q"; "-O-"] ["SO"]
            (P.mk 10 20 0) 3 1 1 Polygon.heap_init eq_refl _ _ _ _);
    try apply example_table_pattern.
  constructor; [apply example_table_pattern|constructor].
Defined.
